(** * nanoGPT [train.py]: a shallow embedding of the training driver

    The script is embedded as it is written: module-level statements become
    functions over an explicit state, the [while True] loop becomes a fuelled
    fixpoint together with a proof that the fuel computed from the state is
    always enough, Python exceptions become the [Raise] outcome (the state
    reached when the exception is raised is kept, as in Python), and every
    call that leaves the process (console, file system, process group, wandb,
    model, optimizer) is recorded in a trace of events.

    Python [int]s are [Z].  The learning rate is a Python [float]; its
    arithmetic ([*], [/], [math.cos], [math.pi]) is read over the real
    numbers, so rounding is outside this model.  Loss values are kept abstract
    together with their comparison.

    The embedding starts at line 96, from a configuration as the defaults and
    the configurator of lines 29-94 leave it.  Wall-clock time ([t0], [dt]),
    device placement and the tf32 switches carry no state that the driver
    branches on and are left out.

    The configurator of lines 67-94 is embedded on its own, in the module
    [Configurator], over the dictionary of module globals. *)

From Stdlib Require Import ZArith QArith Reals Lra Lia Ascii String.
From stdpp Require Import gmap strings list fin_maps.

#[local] Open Scope Z_scope.

(** ** Outcomes of Python code *)

Inductive exn :=
| ZeroDivisionError
| AssertionError
| KeyError
| NameError
| RuntimeError
| FileNotFoundError
| ExternalError.

Inductive outcome (A : Type) :=
| Ok (a : A)
| Raise (e : exn).
Arguments Ok {A} a.
Arguments Raise {A} e.

Definition is_ok {A} (o : outcome A) : bool :=
  match o with Ok _ => true | Raise _ => false end.

(** ** Configuration: the module-level defaults of lines 26-62, after the
    overrides of the configurator have been applied *)

Record config := {
  out_dir : string;
  eval_interval : Z;
  log_interval : Z;
  eval_iters : Z;
  eval_only : bool;
  wandb_log : bool;
  batch_size : Z;
  block_size : Z;
  init_from : string;
  dropout : Q;
  n_layer : Z;
  n_head : Z;
  n_embd : Z;
  learning_rate : R;
  max_iters : Z;
  decay_lr : bool;
  warmup_iters : Z;
  lr_decay_iters : Z;
  min_lr : R;
  backend : string;
  compile_model : bool
}.

(** ** Learning-rate schedule (lines 186-197) *)

(** Python's true division [a / b] on numbers read as reals: a zero divisor
    raises. *)
Definition py_truediv (a b : R) : outcome R :=
  if Req_dec_T b 0 then Raise ZeroDivisionError else Ok (a / b)%R.

(** [assert 0 <= decay_ratio <= 1] *)
Definition assert_unit_interval (r : R) : outcome unit :=
  if Rle_dec 0 r then
    if Rle_dec r 1 then Ok tt else Raise AssertionError
  else Raise AssertionError.

Definition get_lr (c : config) (iter : Z) : outcome R :=
  if iter <? warmup_iters c then
    py_truediv (learning_rate c * IZR iter) (IZR (warmup_iters c))
  else if iter >? lr_decay_iters c then
    Ok (min_lr c)
  else
    match py_truediv (IZR (iter - warmup_iters c))
                     (IZR (lr_decay_iters c - warmup_iters c)) with
    | Raise e => Raise e
    | Ok decay_ratio =>
        match assert_unit_interval decay_ratio with
        | Raise e => Raise e
        | Ok _ =>
            let coeff := (0.5 * (1.0 + cos (PI * decay_ratio)))%R in
            Ok (min_lr c + coeff * (learning_rate c - min_lr c))%R
        end
    end.

(** ** State and exceptions

    A statement is a function from the state before it to the state after it
    and its outcome; when a statement raises, the statements after it are
    skipped and the state it reached is kept. *)

Definition M (S A : Type) : Type := S -> S * outcome A.

Definition ret {S A : Type} (a : A) : M S A := fun s => (s, Ok a).

Definition raise {S A : Type} (e : exn) : M S A := fun s => (s, Raise e).

Definition bind {S A B : Type} (m : M S A) (k : A -> M S B) : M S B :=
  fun s =>
    match m s with
    | (s', Ok a) => k a s'
    | (s', Raise e) => (s', Raise e)
    end.

Definition lift {S A : Type} (o : outcome A) : M S A := fun s => (s, o).

Definition when {S : Type} (b : bool) (m : M S unit) : M S unit :=
  if b then m else ret tt.

Declare Scope py_scope.
Delimit Scope py_scope with py.
Notation "x <- m ;; k" := (bind m (fun x => k))
  (at level 20, m at level 99, k at level 200, only parsing) : py_scope.
Notation "m ;; k" := (bind m (fun _ => k))
  (at level 100, k at level 200, only parsing, right associativity) : py_scope.
#[local] Open Scope py_scope.

(** ** Python and torch primitives used by the script *)

(** [a % b] on [int]s: floor modulo, a zero divisor raises. *)
Definition py_mod (a b : Z) : outcome Z :=
  if b =? 0 then Raise ZeroDivisionError else Ok (a mod b).

(** A slice bound as Python and numpy normalise it against the length. *)
Definition norm_index (len i : Z) : Z :=
  if i <? 0 then Z.max 0 (i + len) else Z.min i len.

(** [data[lo:hi]]: never raises, bounds outside the array are clipped. *)
Definition py_slice {A : Type} (data : list A) (lo hi : Z) : list A :=
  let n := Z.of_nat (length data) in
  let lo' := norm_index n lo in
  let hi' := norm_index n hi in
  take (Z.to_nat (hi' - lo')) (drop (Z.to_nat lo') data).

(** [range(n)] *)
Definition py_range (n : Z) : list nat := seq 0 (Z.to_nat n).

(** [torch.stack(rows)]: needs at least one row and rows of one length. *)
Definition torch_stack (rows : list (list Z)) : outcome (list (list Z)) :=
  match rows with
  | [] => Raise RuntimeError
  | r :: rest =>
      if forallb (fun r' => Nat.eqb (length r') (length r)) rest
      then Ok rows else Raise RuntimeError
  end.

(** ** Model hyperparameters (line 127) *)

(** The values of [model_args]: four [int]s and the [float] dropout, which is
    only ever compared, so a rational stands for it. *)
Inductive hval :=
| HInt (z : Z)
| HFloat (q : Q).

(** Python's [==] on these numbers compares by value across [int] and
    [float]. *)
Definition hval_eqb (a b : hval) : bool :=
  match a, b with
  | HInt x, HInt y => x =? y
  | HInt x, HFloat q => Qeq_bool (inject_Z x) q
  | HFloat q, HInt x => Qeq_bool q (inject_Z x)
  | HFloat p, HFloat q => Qeq_bool p q
  end.

Definition model_args (c : config) : list (string * hval) :=
  [ ("n_layer", HInt (n_layer c));
    ("n_head", HInt (n_head c));
    ("n_embd", HInt (n_embd c));
    ("block_size", HInt (block_size c));
    ("dropout", HFloat (dropout c)) ]%string.

(** [os.path.join(a, b)] for a relative [b]. *)
Definition ends_with_slash (a : string) : bool :=
  match rev (String.list_ascii_of_string a) with
  | ch :: _ => Ascii.eqb ch "/"%char
  | [] => false
  end.

Definition path_join (a b : string) : string :=
  if String.eqb a "" then b
  else if ends_with_slash a then (a +:+ b)%string
  else (a +:+ "/" +:+ b)%string.

Definition ckpt_path (c : config) : string := path_join (out_dir c) "ckpt.pt".

(** ** External collaborators

    [model.py], torch and the optimizer are consumed through this interface.
    [weights] is what [state_dict()] returns, [rng] the state of torch's CPU
    generator, [loss] a loss value with the comparison [<] that the driver
    applies to it. *)

Class Collaborators := {
  weights : Type;
  opt_state : Type;
  rng : Type;
  loss : Type;
  (* torch.manual_seed(seed) *)
  manual_seed : Z -> rng;
  (* torch.randint(high, (n,)) for 0 < high *)
  randint : rng -> Z -> nat -> list Z * rng;
  (* GPT(gptconf), built from model_args *)
  gpt_new : list (string * hval) -> rng -> weights * rng;
  (* GPT.from_pretrained(name): the weights and the model's block_size *)
  gpt_from_pretrained : string -> rng -> outcome (weights * Z) * rng;
  (* model.crop_block_size(block_size) *)
  crop_block_size : weights -> Z -> weights;
  (* model.configure_optimizers(weight_decay, learning_rate, betas) *)
  configure_optimizers : config -> weights -> opt_state;
  (* param_group['lr'] = lr for every group *)
  set_lr : R -> opt_state -> opt_state;
  (* logits, loss = model(X, Y), in training or in eval mode *)
  forward : weights -> bool -> list (list Z) -> list (list Z) -> outcome loss;
  (* optimizer.zero_grad(); loss.backward(); optimizer.step() *)
  train_update : weights -> opt_state -> list (list Z) -> list (list Z) ->
                 weights * opt_state;
  (* torch.zeros(n), losses.mean(), losses['val'] < best_val_loss, 1e9 *)
  loss_zero : loss;
  loss_mean : list loss -> loss;
  loss_lt : loss -> loss -> bool;
  loss_1e9 : loss
}.

Section Driver.

Context `{Collaborators}.

(** ** Checkpoints, events, state *)

Record checkpoint := Checkpoint {
  ck_model : weights;
  ck_optimizer : opt_state;
  ck_model_args : gmap string hval;
  ck_iter_num : Z;
  ck_best_val_loss : loss
}.

Inductive message :=
| MsgInitScratch
| MsgResuming (dir : string)
| MsgInitGpt2 (name : string)
| MsgCompiling
| MsgStep (iter : Z) (train_loss val_loss : loss)
| MsgIter (iter : Z) (lossf : loss).

Inductive event :=
| EvInitProcessGroup (bk : string)
| EvMakeDirs (path : string)
| EvManualSeed (seed : Z)
| EvPrint (m : message)
| EvTorchLoad (path : string)
| EvWandbInit
| EvWandbLog (iter : Z) (train_loss val_loss : loss) (lr : R)
| EvModelEval
| EvModelTrain
| EvGetBatch (split : string)
| EvForward (training : bool)
| EvZeroGrad
| EvBackward
| EvOptimizerStep
| EvTorchSave (path : string) (ck : checkpoint)
| EvDestroyProcessGroup.

(** The model object: its parameters, its [block_size] attribute and the
    [training] flag toggled by [model.train()] / [model.eval()]. *)
Record model_obj := Model {
  m_weights : weights;
  m_block_size : Z;
  m_training : bool
}.

(** The script's variables once the model exists. *)
Record proc := Proc {
  model : model_obj;
  optimizer : opt_state;
  iter_num : Z;
  best_val_loss : loss
}.

(** Everything a run can touch: checkpoint files by path, the generator, the
    events so far (newest first) and the variables bound so far ([unit]
    before the model is built, [proc] afterwards). *)
Record world (P : Type) := World {
  files : gmap string checkpoint;
  gen : rng;
  trace : list event;
  vars : P
}.
Arguments World {P}.
Arguments files {P}.
Arguments gen {P}.
Arguments trace {P}.
Arguments vars {P}.

(** The two token arrays and the worker's environment. *)
Record environment := {
  train_data : list Z;
  val_data : list Z;
  local_rank : option Z
}.

(** *** State accessors *)

Definition emit {P : Type} (e : event) : M (world P) unit :=
  fun w => (World (files w) (gen w) (e :: trace w) (vars w), Ok tt).

Definition get_vars {P : Type} : M (world P) P :=
  fun w => (w, Ok (vars w)).

Definition with_vars {P Q : Type} (q : Q) (w : world P) : world Q :=
  World (files w) (gen w) (trace w) q.

Definition set_model (m : model_obj) (p : proc) : proc :=
  Proc m (optimizer p) (iter_num p) (best_val_loss p).

Definition set_optimizer (o : opt_state) (p : proc) : proc :=
  Proc (model p) o (iter_num p) (best_val_loss p).

Definition set_iter_num (i : Z) (p : proc) : proc :=
  Proc (model p) (optimizer p) i (best_val_loss p).

Definition set_best_val_loss (l : loss) (p : proc) : proc :=
  Proc (model p) (optimizer p) (iter_num p) l.

Definition set_training (b : bool) (m : model_obj) : model_obj :=
  Model (m_weights m) (m_block_size m) b.

Definition modify_vars {P : Type} (f : P -> P) : M (world P) unit :=
  fun w => (World (files w) (gen w) (trace w) (f (vars w)), Ok tt).

(** *** Worker topology (lines 96-102) *)

Definition ddp (env : environment) : bool :=
  match local_rank env with
  | Some r => negb (r =? -1)
  | None => false
  end.

Definition gpu_id (env : environment) : Z :=
  if ddp env then default 0 (local_rank env) else 0.

(** *** Torch calls that touch the state *)

(** [torch.randint(high, (n,))]: [high] must be positive, [n] not negative. *)
Definition torch_randint {P : Type} (high n : Z) : M (world P) (list Z) :=
  fun w =>
    if (high <=? 0) || (n <? 0) then (w, Raise RuntimeError)
    else
      let r := randint (gen w) high (Z.to_nat n) in
      (World (files w) r.2 (trace w) (vars w), Ok r.1).

(** [torch.zeros(n)] *)
Definition torch_zeros (n : Z) : outcome (list loss) :=
  if n <? 0 then Raise RuntimeError
  else Ok (replicate (Z.to_nat n) loss_zero).

(** [torch.load(path)] *)
Definition torch_load {P : Type} (path : string) : M (world P) checkpoint :=
  fun w =>
    let w' := World (files w) (gen w) (EvTorchLoad path :: trace w) (vars w) in
    match files w !! path with
    | Some ck => (w', Ok ck)
    | None => (w', Raise FileNotFoundError)
    end.

(** [torch.save(ck, path)]: the file at [path] is replaced. *)
Definition torch_save {P : Type} (ck : checkpoint) (path : string)
  : M (world P) unit :=
  fun w =>
    (World (<[path := ck]> (files w)) (gen w)
           (EvTorchSave path ck :: trace w) (vars w), Ok tt).

(** [model(X, Y)] under autocast; the loss is what the driver uses. *)
Definition model_call (X Y : list (list Z)) : M (world proc) loss :=
  m <- get_vars ;;
  emit (EvForward (m_training (model m))) ;;
  lift (forward (m_weights (model m)) (m_training (model m)) X Y).

(** *** Corpus sampler (lines 114-120) *)

(** Line 115 *)
Definition split_data (env : environment) (split : string) : list Z :=
  if String.eqb split "train" then train_data env else val_data env.

Definition get_batch {P : Type} (c : config) (env : environment)
  (split : string) : M (world P) (list (list Z) * list (list Z)) :=
  let data := split_data env split in
  emit (EvGetBatch split) ;;
  ix <- torch_randint (Z.of_nat (length data) - block_size c) (batch_size c) ;;
  x <- lift (torch_stack
               (map (fun i => py_slice data i (i + block_size c)) ix)) ;;
  y <- lift (torch_stack
               (map (fun i => py_slice data (i + 1) (i + 1 + block_size c))
                    ix)) ;;
  ret (x, y).

(** *** Evaluation runner (lines 170-183) *)

(** The body of [for k in range(eval_iters)] over the remaining indices. *)
Fixpoint eval_batches (c : config) (env : environment) (split : string)
  (ks : list nat) (losses : list loss) : M (world proc) (list loss) :=
  match ks with
  | [] => ret losses
  | k :: ks' =>
      b <- get_batch c env split ;;
      l <- model_call b.1 b.2 ;;
      eval_batches c env split ks' (<[k := l]> losses)
  end.

(** One turn of [for split in ['train', 'val']]: the value of [out[split]]. *)
Definition eval_split (c : config) (env : environment) (split : string)
  : M (world proc) loss :=
  losses <- lift (torch_zeros (eval_iters c)) ;;
  losses' <- eval_batches c env split (py_range (eval_iters c)) losses ;;
  ret (loss_mean losses').

(** Returns [(out['train'], out['val'])]. *)
Definition estimate_loss (c : config) (env : environment)
  : M (world proc) (loss * loss) :=
  emit EvModelEval ;;
  modify_vars (fun p => set_model (set_training false (model p)) p) ;;
  lt <- eval_split c env "train" ;;
  lv <- eval_split c env "val" ;;
  emit EvModelTrain ;;
  modify_vars (fun p => set_model (set_training true (model p)) p) ;;
  ret (lt, lv).

(** *** Startup (lines 96-106) *)

Definition startup (c : config) (env : environment) : M (world unit) unit :=
  when (ddp env) (emit (EvInitProcessGroup (backend c))) ;;
  when (gpu_id env =? 0) (emit (EvMakeDirs (out_dir c))) ;;
  emit (EvManualSeed (1337 + gpu_id env)) ;;
  (fun w => (World (files w) (manual_seed (1337 + gpu_id env)) (trace w)
                   (vars w), Ok tt)).

(** *** Model and optimizer construction (lines 122-168) *)

(** [for k, v in model_args.items(): assert checkpoint_model_args[k] == v] *)
Fixpoint check_model_args (ckargs : gmap string hval)
  (args : list (string * hval)) : outcome unit :=
  match args with
  | [] => Ok tt
  | (k, v) :: rest =>
      match ckargs !! k with
      | None => Raise KeyError
      | Some v' =>
          if hval_eqb v' v then check_model_args ckargs rest
          else Raise AssertionError
      end
  end.

(** [GPT(gptconf)]: a fresh model in training mode. *)
Definition new_gpt {P : Type} (c : config) : M (world P) model_obj :=
  fun w =>
    let r := gpt_new (model_args c) (gen w) in
    (World (files w) r.2 (trace w) (vars w),
     Ok (Model r.1 (block_size c) true)).

(** [GPT.from_pretrained(init_from)] *)
Definition from_pretrained {P : Type} (name : string)
  : M (world P) model_obj :=
  fun w =>
    let r := gpt_from_pretrained name (gen w) in
    let w' := World (files w) r.2 (trace w) (vars w) in
    match r.1 with
    | Ok (wts, bs) => (w', Ok (Model wts bs true))
    | Raise e => (w', Raise e)
    end.

(** Lines 123-149: the model, [iter_num], [best_val_loss] and, when resuming,
    the loaded checkpoint.  With an [init_from] that matches no branch,
    [model] stays unbound and line 151 raises [NameError]. *)
Definition build_model (c : config)
  : M (world unit) (model_obj * Z * loss * option checkpoint) :=
  if String.eqb (init_from c) "scratch" then
    emit (EvPrint MsgInitScratch) ;;
    m <- new_gpt c ;;
    ret (m, 0, loss_1e9, None)
  else if String.eqb (init_from c) "resume" then
    emit (EvPrint (MsgResuming (out_dir c))) ;;
    ck <- torch_load (ckpt_path c) ;;
    lift (check_model_args (ck_model_args ck) (model_args c)) ;;
    m <- new_gpt c ;;
    ret (Model (ck_model ck) (m_block_size m) (m_training m),
         ck_iter_num ck, ck_best_val_loss ck, Some ck)
  else if String.prefix "gpt2" (init_from c) then
    emit (EvPrint (MsgInitGpt2 (init_from c))) ;;
    m <- from_pretrained (init_from c) ;;
    ret (m, 0, loss_1e9, None)
  else raise NameError.

(** Lines 151-152 *)
Definition crop_model (c : config) (m : model_obj) : model_obj :=
  if block_size c <? m_block_size m then
    Model (crop_block_size (m_weights m) (block_size c)) (block_size c)
          (m_training m)
  else m.

(** Lines 156-158 *)
Definition build_optimizer (c : config) (m : model_obj)
  (ck : option checkpoint) : opt_state :=
  let o := configure_optimizers c (m_weights m) in
  if String.eqb (init_from c) "resume" then
    match ck with Some k => ck_optimizer k | None => o end
  else o.

Definition model_init (c : config) : M (world unit) proc :=
  r <- build_model c ;;
  let '(m, it, best, ck) := r in
  let m' := crop_model c m in
  let o := build_optimizer c m' ck in
  when (compile_model c) (emit (EvPrint MsgCompiling)) ;;
  ret (Proc m' o it best).

(** Lines 200-206 *)
Definition wandb_setup {P : Type} (c : config) (env : environment)
  : M (world P) unit :=
  when (wandb_log c && (gpu_id env =? 0)) (emit EvWandbInit).

(** *** One turn of the training loop (lines 212-264) *)

(** Lines 213-218 *)
Definition determine_lr (c : config) : M (world proc) R :=
  if decay_lr c then
    p <- get_vars ;;
    lr <- lift (get_lr c (iter_num p)) ;;
    modify_vars (fun p => set_optimizer (set_lr lr (optimizer p)) p) ;;
    ret lr
  else ret (learning_rate c).

(** The dictionary of lines 234-240. *)
Definition make_checkpoint (c : config) (p : proc) : checkpoint :=
  Checkpoint (m_weights (model p)) (optimizer p)
             (list_to_map (model_args c)) (iter_num p) (best_val_loss p).

(** Lines 220-241 *)
Definition eval_and_checkpoint (c : config) (env : environment) (lr : R)
  : M (world proc) unit :=
  p <- get_vars ;;
  r <- lift (py_mod (iter_num p) (eval_interval c)) ;;
  if (r =? 0) && (gpu_id env =? 0) then
    losses <- estimate_loss c env ;;
    emit (EvPrint (MsgStep (iter_num p) losses.1 losses.2)) ;;
    when (wandb_log c)
         (emit (EvWandbLog (iter_num p) losses.1 losses.2 lr)) ;;
    p <- get_vars ;;
    if loss_lt losses.2 (best_val_loss p) then
      modify_vars (set_best_val_loss losses.2) ;;
      if iter_num p >? 0 then
        p <- get_vars ;;
        torch_save (make_checkpoint c p) (ckpt_path c)
      else ret tt
    else ret tt
  else ret tt.

(** Lines 245-260 *)
Definition train_step (c : config) (env : environment) : M (world proc) unit :=
  b <- get_batch c env "train" ;;
  l <- model_call b.1 b.2 ;;
  emit EvZeroGrad ;;
  emit EvBackward ;;
  emit EvOptimizerStep ;;
  modify_vars (fun p =>
    let r := train_update (m_weights (model p)) (optimizer p) b.1 b.2 in
    set_optimizer r.2
      (set_model (Model r.1 (m_block_size (model p)) (m_training (model p)))
                 p)) ;;
  p <- get_vars ;;
  r <- lift (py_mod (iter_num p) (log_interval c)) ;;
  when ((r =? 0) && (gpu_id env =? 0))
       (emit (EvPrint (MsgIter (iter_num p) l))) ;;
  modify_vars (set_iter_num (iter_num p + 1)).

(** The body of [while True]; the result tells whether a [break] was taken. *)
Definition loop_body (c : config) (env : environment) : M (world proc) bool :=
  lr <- determine_lr c ;;
  eval_and_checkpoint c env lr ;;
  p <- get_vars ;;
  if (iter_num p =? 0) && eval_only c then ret true
  else
    train_step c env ;;
    p <- get_vars ;;
    ret (iter_num p >=? max_iters c).

(** [while True]: [None] when the fuel does not reach a [break] or an
    exception. *)
Fixpoint training_loop (c : config) (env : environment) (fuel : nat)
  (w : world proc) : option (world proc * outcome unit) :=
  match fuel with
  | O => None
  | S fuel' =>
      match loop_body c env w with
      | (w', Raise e) => Some (w', Raise e)
      | (w', Ok true) => Some (w', Ok tt)
      | (w', Ok false) => training_loop c env fuel' w'
      end
  end.

(** Turns of the loop that are enough from a state, whatever happens. *)
Definition loop_fuel (c : config) (w : world proc) : nat :=
  S (Z.to_nat (max_iters c - iter_num (vars w))).

(** Lines 200-266 from the state that model construction leaves. *)
Definition run_from_init (c : config) (env : environment) (w : world proc)
  : option (world proc * outcome unit) :=
  match wandb_setup c env w with
  | (w1, Raise e) => Some (w1, Raise e)
  | (w1, Ok _) =>
      match training_loop c env (loop_fuel c w1) w1 with
      | None => None
      | Some (w2, Raise e) => Some (w2, Raise e)
      | Some (w2, Ok _) => Some (emit EvDestroyProcessGroup w2)
      end
  end.

(** The whole script from line 96 on.  The variables of the final state are
    [None] when the run stopped before the model and optimizer were built. *)
Definition train_main (c : config) (env : environment) (w0 : world unit)
  : option (world (option proc) * outcome unit) :=
  match (startup c env ;; model_init c) w0 with
  | (w1, Raise e) => Some (with_vars None w1, Raise e)
  | (w1, Ok p) =>
      match run_from_init c env (with_vars p w1) with
      | None => None
      | Some (w2, o) => Some (with_vars (Some (vars w2)) w2, o)
      end
  end.

(** ** Assumptions on the collaborators and on a run *)

(** What torch documents for [randint]: as many draws as asked, each in
    [0, high). *)
Definition randint_in_range : Prop :=
  forall (g : rng) (high : Z) (n : nat),
    0 < high ->
    length (randint g high n).1 = n /\
    Forall (fun i => 0 <= i < high) (randint g high n).1.

(** The model's forward pass returns a loss. *)
Definition forward_returns : Prop :=
  forall (wts : weights) (training : bool) (X Y : list (list Z)),
    exists l, forward wts training X Y = Ok l.

(** A split from which a batch can be drawn: at least one row is asked for
    and the array is longer than one window. *)
Definition sampler_ok (c : config) (data : list Z) : Prop :=
  0 < batch_size c /\ 0 <= block_size c < Z.of_nat (length data).

(** The start offsets from which an input window and its target both lie
    inside the array. *)
Definition valid_offset (c : config) (data : list Z) (i : Z) : Prop :=
  0 <= i /\ i + 1 + block_size c <= Z.of_nat (length data).

(** ** Relating the state before and after a statement *)

(** The part of the state that outlives a statement apart from the trace and
    the generator: the checkpoint files and the variables. *)
Definition store {P : Type} (w : world P) : gmap string checkpoint * P :=
  (files w, vars w).

(** [w'] is reached from [w] by emitting events that all satisfy [Q] while
    files and variables move along [R]. *)
Definition evolves {P : Type} (Q : event -> Prop)
  (R : relation (gmap string checkpoint * P)) (w w' : world P) : Prop :=
  R (store w) (store w') /\
  exists l, trace w' = l ++ trace w /\ Forall Q l.

(** A statement that relates its states in this way from every state and
    whatever its outcome. *)
Definition respects {P A : Type} (Q : event -> Prop)
  (R : relation (gmap string checkpoint * P)) (m : M (world P) A) : Prop :=
  forall w, evolves Q R w (m w).1.

(** Checkpoint files are what they were. *)
Definition same_files {P : Type} : relation (gmap string checkpoint * P) :=
  fun a b => b.1 = a.1.

(** No constraint on files and variables. *)
Definition any_store {P : Type} : relation (gmap string checkpoint * P) :=
  fun _ _ => True.

(** Events of drawing a batch and of a forward pass in eval mode: what an
    evaluation pass does between [model.eval()] and [model.train()]. *)
Definition eval_event (e : event) : Prop :=
  match e with
  | EvGetBatch _ => True
  | EvForward training => training = false
  | _ => False
  end.

End Driver.

Arguments World {_ P}.
Arguments files {_ P}.
Arguments gen {_ P}.
Arguments trace {_ P}.
Arguments vars {_ P}.

(** ** A small executable instance of the collaborators

    Integers stand for weights, optimizer state, generator state and losses:
    the model's loss is [100 - weights] in training mode and one less in eval
    mode, and an update adds one to the weights, so that the loss improves at
    every step. *)

#[export] Instance toy : Collaborators := {|
  weights := Z;
  opt_state := Z;
  rng := Z;
  loss := Z;
  manual_seed := fun seed => seed;
  randint := fun g high n =>
    (map (fun k => (g + Z.of_nat k) mod high) (seq 0 n), g + Z.of_nat n);
  gpt_new := fun _ g => (0, g + 1);
  gpt_from_pretrained := fun _ g => (Ok (0, 1024), g + 1);
  crop_block_size := fun w _ => w;
  configure_optimizers := fun _ _ => 0;
  set_lr := fun _ o => o;
  forward := fun w training _ _ => Ok (if training then 100 - w else 99 - w);
  train_update := fun w o _ _ => (w + 1, o + 1);
  loss_zero := 0;
  loss_mean := fun l => fold_right Z.min 1000000000 l;
  loss_lt := Z.ltb;
  loss_1e9 := 1000000000
|}.

(** A configuration with small numbers: evaluation every second iteration,
    three iterations in all, windows of three tokens, no decay. *)
Definition small_config : config := {|
  out_dir := "out";
  eval_interval := 2;
  log_interval := 1;
  eval_iters := 2;
  eval_only := false;
  wandb_log := false;
  batch_size := 2;
  block_size := 3;
  init_from := "scratch";
  dropout := 1 # 10;
  n_layer := 12;
  n_head := 12;
  n_embd := 768;
  learning_rate := 1;
  max_iters := 3;
  decay_lr := false;
  warmup_iters := 0;
  lr_decay_iters := 1;
  min_lr := 0;
  backend := "nccl";
  compile_model := true
|}.

Definition small_env (rank : option Z) : environment := {|
  train_data := [10; 11; 12; 13; 14; 15; 16; 17];
  val_data := [20; 21; 22; 23; 24; 25];
  local_rank := rank
|}.

Definition empty_world : world unit := World ∅ 0 [] tt.



(** The small environment with a validation split of three tokens, no longer
    than one window of [small_config]. *)
Definition short_val_env : environment := {|
  train_data := [10; 11; 12; 13; 14; 15; 16; 17];
  val_data := [20; 21; 22];
  local_rank := None
|}.

(** A state after model construction: a fresh model in training mode. *)
Definition fresh_world : world proc :=
  World ∅ 1337 [] (Proc (Model 0 3 true) 0 0 loss_1e9).

(** A checkpoint write. *)
Definition is_save `{Collaborators} (e : event) : Prop :=
  match e with
  | EvTorchSave _ _ => True
  | _ => False
  end.

(** A state at iteration 2 of a run whose best validation loss so far is 99:
    the next evaluation of the small instance improves on it. *)
Definition world_at_2 : world proc :=
  World ∅ 1337 [] (Proc (Model 2 3 true) 2 2 99).

(** A hyperparameter requested for the run for which the checkpoint stores
    no equal value: it stores a different one, or none. *)
Definition mismatch (ckargs : gmap string hval) (args : list (string * hval))
  : Prop :=
  exists k v,
    In (k, v) args /\
    forall v', ckargs !! k = Some v' -> hval_eqb v' v = false.

(** [small_config] with another [init_from] and [block_size]. *)
Definition small_config_with (init : string) (bs : Z) : config := {|
  out_dir := out_dir small_config;
  eval_interval := eval_interval small_config;
  log_interval := log_interval small_config;
  eval_iters := eval_iters small_config;
  eval_only := eval_only small_config;
  wandb_log := wandb_log small_config;
  batch_size := batch_size small_config;
  block_size := bs;
  init_from := init;
  dropout := dropout small_config;
  n_layer := n_layer small_config;
  n_head := n_head small_config;
  n_embd := n_embd small_config;
  learning_rate := learning_rate small_config;
  max_iters := max_iters small_config;
  decay_lr := decay_lr small_config;
  warmup_iters := warmup_iters small_config;
  lr_decay_iters := lr_decay_iters small_config;
  min_lr := min_lr small_config;
  backend := backend small_config;
  compile_model := compile_model small_config
|}.

(** A checkpoint of the small instance taken at iteration 40 with a best
    validation loss of 12, and a file system that holds it. *)
Definition ckpt_40 : checkpoint :=
  Checkpoint 5 7 (list_to_map (model_args small_config)) 40 12.

Definition world_with_ckpt : world unit :=
  World {[ "out/ckpt.pt"%string := ckpt_40 ]} 0 [] tt.

(** ** Classes of events *)

(** What a turn of the loop may emit on a worker: sampling, forward and
    update steps on every worker; evaluation, console lines, wandb lines and
    the checkpoint write, to the fixed path, on the primary only. *)
Definition loop_event `{Collaborators} (c : config) (env : environment)
  (e : event) : Prop :=
  match e with
  | EvGetBatch _ | EvForward _ | EvZeroGrad | EvBackward | EvOptimizerStep =>
      True
  | EvModelEval | EvModelTrain
  | EvPrint (MsgStep _ _ _) | EvPrint (MsgIter _ _) => gpu_id env = 0
  | EvWandbLog _ _ _ _ => gpu_id env = 0 /\ wandb_log c = true
  | EvTorchSave path _ => gpu_id env = 0 /\ path = ckpt_path c
  | _ => False
  end.

(** What lines 96-206 may emit before the loop. *)
Definition startup_event `{Collaborators} (c : config) (env : environment)
  (e : event) : Prop :=
  match e with
  | EvInitProcessGroup bk => ddp env = true /\ bk = backend c
  | EvMakeDirs path => gpu_id env = 0 /\ path = out_dir c
  | EvManualSeed seed => seed = 1337 + gpu_id env
  | EvPrint MsgInitScratch | EvPrint (MsgResuming _)
  | EvPrint (MsgInitGpt2 _) | EvPrint MsgCompiling => True
  | EvTorchLoad path => path = ckpt_path c
  | EvWandbInit => gpu_id env = 0 /\ wandb_log c = true
  | _ => False
  end.

(** The side effects that the loop and the startup code guard with
    [gpu_id == 0]: directory creation, checkpoint writes, wandb calls, and
    the console lines of evaluation and of training progress. *)
Definition primary_only `{Collaborators} (e : event) : Prop :=
  match e with
  | EvMakeDirs _ | EvTorchSave _ _ | EvWandbInit | EvWandbLog _ _ _ _
  | EvPrint (MsgStep _ _ _) | EvPrint (MsgIter _ _) => True
  | _ => False
  end.

(** Any console output. *)
Definition is_print `{Collaborators} (e : event) : Prop :=
  match e with
  | EvPrint _ => True
  | _ => False
  end.

(** The announcements of model construction, printed without a guard. *)
Definition is_announcement `{Collaborators} (e : event) : Prop :=
  match e with
  | EvPrint MsgInitScratch | EvPrint (MsgResuming _)
  | EvPrint (MsgInitGpt2 _) | EvPrint MsgCompiling => True
  | _ => False
  end.

(** Steps of the training path proper: gradient reset, backward pass,
    optimizer step, and a forward pass in training mode. *)
Definition training_event `{Collaborators} (e : event) : Prop :=
  match e with
  | EvZeroGrad | EvBackward | EvOptimizerStep => True
  | EvForward training => training = true
  | _ => False
  end.

(** The iteration counter is what it was. *)
Definition keeps_iter `{Collaborators}
  : relation (gmap string checkpoint * proc) :=
  fun a b => iter_num b.2 = iter_num a.2.

(** Conditions under which no statement of the loop raises: non-zero
    intervals, a decay horizon beyond the warmup when decay is on, a
    non-negative number of evaluation batches, and two splits from which
    batches can be drawn. *)
Definition loop_ok (c : config) (env : environment) : Prop :=
  eval_interval c <> 0 /\
  log_interval c <> 0 /\
  (decay_lr c = true -> warmup_iters c < lr_decay_iters c) /\
  0 <= eval_iters c /\
  sampler_ok c (train_data env) /\
  sampler_ok c (val_data env).




(** The teardown call of line 266. *)
Definition is_teardown `{Collaborators} (e : event) : Prop :=
  match e with
  | EvDestroyProcessGroup => True
  | _ => False
  end.

(** The call of line 98. *)
Definition is_group_init `{Collaborators} (e : event) : Prop :=
  match e with
  | EvInitProcessGroup _ => True
  | _ => False
  end.

(** [small_config] as an eval-only run. *)
Definition eval_only_config : config := {|
  out_dir := out_dir small_config;
  eval_interval := 1;
  log_interval := log_interval small_config;
  eval_iters := eval_iters small_config;
  eval_only := true;
  wandb_log := wandb_log small_config;
  batch_size := batch_size small_config;
  block_size := block_size small_config;
  init_from := init_from small_config;
  dropout := dropout small_config;
  n_layer := n_layer small_config;
  n_head := n_head small_config;
  n_embd := n_embd small_config;
  learning_rate := learning_rate small_config;
  max_iters := max_iters small_config;
  decay_lr := decay_lr small_config;
  warmup_iters := warmup_iters small_config;
  lr_decay_iters := lr_decay_iters small_config;
  min_lr := min_lr small_config;
  backend := backend small_config;
  compile_model := compile_model small_config
|}.

(** The events of a run, oldest first, with its outcome. *)
Definition run_history `{Collaborators} (c : config) (env : environment)
  (w0 : world unit) : option (list event * outcome unit) :=
  match train_main c env w0 with
  | Some (w, o) => Some (rev (trace w), o)
  | None => None
  end.

(** The same checkpoint with one more stored hyperparameter, as a later
    version of the script would write it, and a file system that holds it. *)
Definition ckpt_40_vocab : checkpoint :=
  Checkpoint 5 7
    (<["vocab_size"%string := HInt 50257]>
       (list_to_map (model_args small_config)))
    40 12.

Definition world_with_vocab_ckpt : world unit :=
  World {[ "out/ckpt.pt"%string := ckpt_40_vocab ]} 0 [] tt.


(** The events of [n] evaluation batches of a split, newest first: each
    batch is drawn and then run through the model in eval mode. *)
Definition batch_events `{Collaborators} (split : string) (n : nat)
  : list event :=
  concat (replicate n [EvForward false; EvGetBatch split]).

(** A loss that the model returns in eval mode on given weights. *)
Definition eval_output `{Collaborators} (wts : weights) (l : loss) : Prop :=
  exists X Y, forward wts false X Y = Ok l.

(** Calls of [optimizer.step()]. *)
Definition is_optimizer_step `{Collaborators} (e : event) : bool :=
  match e with
  | EvOptimizerStep => true
  | _ => false
  end.

Definition optimizer_steps `{Collaborators} (l : list event) : nat :=
  length (List.filter is_optimizer_step l).

(** What the loop writes to disk: a checkpoint taken at a positive iteration
    that is a multiple of [eval_interval], with the hyperparameters of the
    run. *)
Definition good_ckpt `{Collaborators} (c : config) (ck : checkpoint)
  : Prop :=
  0 < ck_iter_num ck /\
  ck_iter_num ck mod eval_interval c = 0 /\
  ck_model_args ck = list_to_map (model_args c).

(** The events of a turn of the loop, with what is known of each: forward
    passes, draws and update steps, the evaluation markers and log lines,
    and checkpoint writes, which go to the fixed path and are good. *)
Definition turn_event `{Collaborators} (c : config) (e : event) : Prop :=
  match e with
  | EvGetBatch _ | EvForward _ | EvZeroGrad | EvBackward | EvOptimizerStep
  | EvModelEval | EvModelTrain
  | EvPrint (MsgStep _ _ _) | EvPrint (MsgIter _ _)
  | EvWandbLog _ _ _ _ => True
  | EvTorchSave path ck => path = ckpt_path c /\ good_ckpt c ck
  | _ => False
  end.

(** The checkpoint files after some turns, against the files before: the
    file at the fixed path is untouched or holds a good checkpoint, every
    other path is untouched. *)
Definition files_evolve `{Collaborators} (c : config)
  (fs fs' : gmap string checkpoint) : Prop :=
  (forall path, path <> ckpt_path c -> fs' !! path = fs !! path) /\
  (fs' !! ckpt_path c = fs !! ckpt_path c \/
   exists ck, fs' !! ckpt_path c = Some ck /\ good_ckpt c ck).

(** Calls into wandb. *)
Definition is_wandb `{Collaborators} (e : event) : Prop :=
  match e with
  | EvWandbInit | EvWandbLog _ _ _ _ => True
  | _ => False
  end.

(** [small_config] with other intervals. *)
Definition small_config_every (eval_every log_every : Z) : config := {|
  out_dir := out_dir small_config;
  eval_interval := eval_every;
  log_interval := log_every;
  eval_iters := eval_iters small_config;
  eval_only := eval_only small_config;
  wandb_log := wandb_log small_config;
  batch_size := batch_size small_config;
  block_size := block_size small_config;
  init_from := init_from small_config;
  dropout := dropout small_config;
  n_layer := n_layer small_config;
  n_head := n_head small_config;
  n_embd := n_embd small_config;
  learning_rate := learning_rate small_config;
  max_iters := max_iters small_config;
  decay_lr := decay_lr small_config;
  warmup_iters := warmup_iters small_config;
  lr_decay_iters := lr_decay_iters small_config;
  min_lr := min_lr small_config;
  backend := backend small_config;
  compile_model := compile_model small_config
|}.

(** ** The configurator (lines 67-94)

    The configurator works on the dictionary of module globals, which holds
    the configuration variables next to every other module-level name:
    [arg], [key], [val], [attempt], [config_file] and [f] are assigned at
    module level and are globals themselves.  Python values are kept
    abstract together with [type], [ast.literal_eval] and [exec]. *)

Module Configurator.

(** The exceptions the configurator can meet.  A constructor stands for the
    class and its subclasses; [OtherError] is any class outside the two that
    line 85 catches. *)
Inductive error :=
| AssertionError
| ValueError
| SyntaxError
| FileNotFoundError
| OtherError (name : string).

(** [except (SyntaxError, ValueError)] *)
Definition caught (e : error) : bool :=
  match e with
  | SyntaxError | ValueError => true
  | _ => false
  end.

Class Python := {
  pyval : Type;
  pytype : Type;
  pytype_eq_dec :: EqDecision pytype;
  (** [type(v)] *)
  type_of : pyval -> pytype;
  (** the [str] object of a text *)
  str_val : string -> pyval;
  (** the file object of [open(path)] *)
  file_val : string -> pyval;
  (** [ast.literal_eval] *)
  literal_eval : string -> error + pyval;
  (** [exec(source)] at module level: the globals it leaves, what it prints
      and the exception it ends with, if any *)
  exec : string -> gmap string pyval ->
         gmap string pyval * list string * option error
}.

Section Script.

Context `{Python}.

(** What [print] receives, newest first in [console]. *)
Inductive line :=
| LineConfigFile (config_file : string)
| LineText (text : string)
| LineOverride (key : string) (attempt : pyval).

Record state := State {
  globals : gmap string pyval;
  console : list line
}.

Definition set_global (name : string) (v : pyval) (s : state) : state :=
  State (<[name := v]> (globals s)) (console s).

Definition print (l : line) (s : state) : state :=
  State (globals s) (l :: console s).

(** ['=' in arg] *)
Fixpoint contains (ch : ascii) (s : string) : bool :=
  match s with
  | EmptyString => false
  | String a rest => Ascii.eqb a ch || contains ch rest
  end.

(** [arg.split('=')]: the pieces between the separators, one more than
    there are separators. *)
Fixpoint split (sep : ascii) (s : string) : list string :=
  match s with
  | EmptyString => [EmptyString]
  | String a rest =>
      if Ascii.eqb a sep then EmptyString :: split sep rest
      else
        match split sep rest with
        | [] => [String a EmptyString]
        | piece :: pieces => String a piece :: pieces
        end
  end.

(** [key[2:]] *)
Definition drop2 (s : string) : string :=
  match s with
  | String _ (String _ rest) => rest
  | _ => EmptyString
  end.

(** [os.path.join('config', name)]: an absolute [name] wins. *)
Definition os_path_join_config (name : string) : string :=
  if String.prefix "/" name then name else ("config/" +:+ name)%string.

(** Lines 82-87: the value read as a literal, the text itself when it is
    not one. *)
Definition parse_attempt (val : string) : error + pyval :=
  match literal_eval val with
  | inr v => inr v
  | inl e => if caught e then inr (str_val val) else inl e
  end.

(** Lines 70-75 *)
Definition run_config_file (fs : gmap string string) (arg : string)
  (s : state) : state * option error :=
  if String.prefix "--" arg then (s, Some AssertionError)
  else
    let config_file := os_path_join_config (arg +:+ ".py")%string in
    let s := set_global "config_file" (str_val config_file) s in
    let s := print (LineConfigFile config_file) s in
    match fs !! config_file with
    | None => (s, Some FileNotFoundError)
    | Some source =>
        let s := set_global "f" (file_val config_file) s in
        let s := print (LineText source) s in
        let r := exec source (globals s) in
        (State r.1.1 (rev (map LineText r.1.2) ++ console s), r.2)
    end.

(** Lines 78-94.  [globals()[key]] in the assertion of line 89 is read
    after [attempt] has been assigned. *)
Definition override (arg : string) (s : state) : state * option error :=
  if negb (String.prefix "--" arg) then (s, Some AssertionError)
  else
    match split "=" arg with
    | [key; val] =>
        let s := set_global "key" (str_val key) s in
        let s := set_global "val" (str_val val) s in
        let key := drop2 key in
        let s := set_global "key" (str_val key) s in
        match globals s !! key with
        | None => (s, Some ValueError)
        | Some _ =>
            match parse_attempt val with
            | inl e => (s, Some e)
            | inr attempt =>
                let s := set_global "attempt" attempt s in
                match globals s !! key with
                | None => (s, Some (OtherError "KeyError"))
                | Some current =>
                    if bool_decide (type_of attempt = type_of current)
                    then
                      let s := print (LineOverride key attempt) s in
                      (set_global key attempt s, None)
                    else (s, Some AssertionError)
                end
            end
        end
    | _ => (s, Some ValueError)
    end.

(** The body of the [for] of line 67. *)
Definition configure_arg (fs : gmap string string) (arg : string)
  (s : state) : state * option error :=
  let s := set_global "arg" (str_val arg) s in
  if contains "=" arg then override arg s else run_config_file fs arg s.

Fixpoint configure_args (fs : gmap string string) (args : list string)
  (s : state) : state * option error :=
  match args with
  | [] => (s, None)
  | arg :: rest =>
      match configure_arg fs arg s with
      | (s', None) => configure_args fs rest s'
      | (s', Some e) => (s', Some e)
      end
  end.

(** [for arg in sys.argv[1:]] *)
Definition configurator (fs : gmap string string) (argv : list string)
  (s : state) : state * option error :=
  configure_args fs (drop 1 argv) s.

(** The module-level names the configurator assigns besides the key it
    overrides. *)
Definition temporaries : list string :=
  ["arg"; "key"; "val"; "attempt"; "config_file"; "f"].

(** The number of occurrences of a character. *)
Fixpoint count (ch : ascii) (s : string) : nat :=
  match s with
  | EmptyString => 0%nat
  | String a rest => ((if Ascii.eqb a ch then 1 else 0) + count ch rest)%nat
  end.

(** The text of a well-formed override. *)
Definition override_arg (key val : string) : string :=
  ("--" +:+ key +:+ "=" +:+ val)%string.

(** The globals when line 81 looks [key] up. *)
Definition at_lookup (key val : string) (s : state) : state :=
  set_global "key" (str_val key)
    (set_global "val" (str_val val)
       (set_global "key" (str_val ("--" +:+ key)%string)
          (set_global "arg" (str_val (override_arg key val)) s))).

End Script.

(** A small instance: integers, booleans and texts, a reader of a few
    literals, and an [exec] that runs empty files only. *)
Inductive small_val :=
| SInt (z : Z)
| SBool (b : bool)
| SStr (s : string)
| SFile (path : string).

Inductive small_type := TyInt | TyBool | TyStr | TyFile.

#[local] Instance small_type_eq_dec : EqDecision small_type.
Proof. solve_decision. Defined.

Definition small_type_of (v : small_val) : small_type :=
  match v with
  | SInt _ => TyInt
  | SBool _ => TyBool
  | SStr _ => TyStr
  | SFile _ => TyFile
  end.

Definition small_literal_eval (s : string) : error + small_val :=
  if String.eqb s "True" then inr (SBool true)
  else if String.eqb s "False" then inr (SBool false)
  else if String.eqb s "32" then inr (SInt 32)
  else if String.eqb s "'out'" then inr (SStr "out")
  else if String.eqb s "" then inl SyntaxError
  else inl ValueError.

Definition small_exec (source : string) (g : gmap string small_val)
  : gmap string small_val * list string * option error :=
  if String.eqb source "" then (g, [], None)
  else (g, [], Some (OtherError "NotImplementedError")).

Definition small : Python :=
  Build_Python small_val small_type small_type_eq_dec small_type_of
               SStr SFile small_literal_eval small_exec.

(** A few of the defaults of lines 29-62. *)
Definition small_globals : gmap string small_val :=
  list_to_map [("batch_size", SInt 8); ("eval_only", SBool false);
               ("out_dir", SStr "out")].

Definition small_state : @state small := @State small small_globals [].

End Configurator.

(** * Properties *)

(** ** The learning-rate schedule *)

Section Schedule.

#[local] Open Scope R_scope.

Lemma py_truediv_ok (a b : R) : b <> 0 -> py_truediv a b = Ok (a / b).
Proof.
  intros Hb. unfold py_truediv.
  destruct (Req_dec_T b 0) as [E | _]; [contradiction | reflexivity].
Qed.

Lemma assert_unit_interval_ok (r : R) :
  0 <= r <= 1 -> assert_unit_interval r = Ok tt.
Proof.
  intros [H0 H1]. unfold assert_unit_interval.
  destruct (Rle_dec 0 r) as [_ | N]; [| contradiction].
  destruct (Rle_dec r 1) as [_ | N]; [reflexivity | contradiction].
Qed.

(** The invariant asserted at line 195: between warmup and the decay horizon
    the ratio lies in the unit interval. *)
Lemma decay_ratio_bounds (i W D : Z) :
  (W <= i <= D)%Z -> (W < D)%Z ->
  0 <= IZR (i - W) / IZR (D - W) <= 1.
Proof.
  intros [Hlo Hhi] HWD.
  assert (Hd : 0 < IZR (D - W)) by (apply (IZR_lt 0); lia).
  assert (Hn : 0 <= IZR (i - W)) by (apply (IZR_le 0); lia).
  assert (Hle : IZR (i - W) <= IZR (D - W)) by (apply IZR_le; lia).
  split.
  - apply Rle_mult_inv_pos; assumption.
  - apply Rmult_le_reg_r with (r := IZR (D - W)); [assumption |].
    unfold Rdiv. rewrite Rmult_assoc, Rinv_l by lra. lra.
Qed.

Lemma get_lr_warmup (c : config) (i : Z) :
  (i < warmup_iters c)%Z -> warmup_iters c <> 0%Z ->
  get_lr c i = Ok (learning_rate c * IZR i / IZR (warmup_iters c)).
Proof.
  intros Hi HW. unfold get_lr.
  destruct (Z.ltb_spec i (warmup_iters c)) as [_ | ?]; [| lia].
  apply py_truediv_ok. intros E. apply eq_IZR_R0 in E. contradiction.
Qed.

Lemma get_lr_after_decay (c : config) (i : Z) :
  (warmup_iters c <= i)%Z -> (i > lr_decay_iters c)%Z ->
  get_lr c i = Ok (min_lr c).
Proof.
  intros HW HD. unfold get_lr.
  destruct (Z.ltb_spec i (warmup_iters c)) as [? | _]; [lia |].
  destruct (Z.gtb_spec i (lr_decay_iters c)) as [_ | ?]; [reflexivity | lia].
Qed.

Lemma get_lr_cosine (c : config) (i : Z) :
  (warmup_iters c <= i <= lr_decay_iters c)%Z ->
  (warmup_iters c < lr_decay_iters c)%Z ->
  get_lr c i =
  Ok (min_lr c +
      0.5 * (1 + cos (PI * (IZR (i - warmup_iters c) /
                            IZR (lr_decay_iters c - warmup_iters c)))) *
      (learning_rate c - min_lr c)).
Proof.
  intros Hi HWD. unfold get_lr.
  destruct (Z.ltb_spec i (warmup_iters c)) as [? | _]; [lia |].
  destruct (Z.gtb_spec i (lr_decay_iters c)) as [? | _]; [lia |].
  rewrite py_truediv_ok.
  - rewrite assert_unit_interval_ok by (apply decay_ratio_bounds; assumption).
    replace 1.0 with 1 by lra. reflexivity.
  - intros E. apply eq_IZR_R0 in E. lia.
Qed.

(** The schedule raises only when the warmup and the horizon coincide with
    the iteration (a division by zero at line 194). *)
Lemma get_lr_returns (c : config) (i : Z) :
  (0 <= i)%Z -> (warmup_iters c < lr_decay_iters c)%Z ->
  exists lr, get_lr c i = Ok lr.
Proof.
  intros Hi HWD.
  destruct (Z.lt_ge_cases i (warmup_iters c)) as [Hw | Hw].
  - eexists. apply get_lr_warmup; lia.
  - destruct (Z.le_gt_cases i (lr_decay_iters c)) as [Hd | Hd].
    + eexists. apply get_lr_cosine; lia.
    + eexists. apply get_lr_after_decay; lia.
Qed.




End Schedule.

(** ** The corpus sampler *)

Section Sampler.

Context `{Collaborators}.

Lemma norm_index_in_range (len i : Z) :
  0 <= i <= len -> norm_index len i = i.
Proof.
  intros Hi. unfold norm_index.
  destruct (Z.ltb_spec i 0); lia.
Qed.

(** Inside the array a slice is the plain sub-list. *)
Lemma py_slice_in_range {A : Type} (data : list A) (lo hi : Z) :
  0 <= lo <= hi -> hi <= Z.of_nat (length data) ->
  py_slice data lo hi = take (Z.to_nat (hi - lo)) (drop (Z.to_nat lo) data).
Proof.
  intros Hlo Hhi. unfold py_slice.
  rewrite !norm_index_in_range by lia. reflexivity.
Qed.

Lemma py_slice_length {A : Type} (data : list A) (lo hi : Z) :
  0 <= lo <= hi -> hi <= Z.of_nat (length data) ->
  length (py_slice data lo hi) = Z.to_nat (hi - lo).
Proof.
  intros Hlo Hhi. rewrite py_slice_in_range by assumption.
  rewrite length_take, length_drop. lia.
Qed.

Lemma py_slice_lookup {A : Type} (data : list A) (lo hi : Z) (j : nat) :
  0 <= lo <= hi -> hi <= Z.of_nat (length data) ->
  (j < Z.to_nat (hi - lo))%nat ->
  py_slice data lo hi !! j = data !! (Z.to_nat lo + j)%nat.
Proof.
  intros Hlo Hhi Hj. rewrite py_slice_in_range by assumption.
  rewrite lookup_take_lt by assumption. apply lookup_drop.
Qed.

Lemma torch_stack_same_length (rows : list (list Z)) (n : nat) :
  rows <> [] -> Forall (fun r => length r = n) rows ->
  torch_stack rows = Ok rows.
Proof.
  intros Hne Hall. destruct rows as [| r rest]; [contradiction |].
  simpl. apply Forall_cons in Hall as [Hr Hrest].
  replace (forallb _ rest) with true; [reflexivity |].
  symmetry. apply forallb_forall. intros r' Hin.
  rewrite Forall_forall in Hrest.
  apply Nat.eqb_eq. rewrite Hr. apply Hrest.
  apply list_elem_of_In. exact Hin.
Qed.

(** What a call of the sampler does when a batch can be drawn. *)
Lemma get_batch_ok {P : Type} (c : config) (env : environment)
  (split : string) (w : world P) :
  randint_in_range -> sampler_ok c (split_data env split) ->
  let data := split_data env split in
  let r := randint (gen w) (Z.of_nat (length data) - block_size c)
                   (Z.to_nat (batch_size c)) in
  get_batch c env split w =
  (World (files w) r.2 (EvGetBatch split :: trace w) (vars w),
   Ok (map (fun i => py_slice data i (i + block_size c)) r.1,
       map (fun i => py_slice data (i + 1) (i + 1 + block_size c)) r.1)).
Proof.
  intros Hrand [HB HL]. cbv zeta.
  unfold get_batch, bind, emit, torch_randint, lift, ret. simpl.
  set (data := split_data env split) in *.
  set (r := randint (gen w) (Z.of_nat (length data) - block_size c)
                    (Z.to_nat (batch_size c))).
  destruct (Hrand (gen w) (Z.of_nat (length data) - block_size c)
                  (Z.to_nat (batch_size c))) as [Hlen Hrange]; [lia |].
  fold r in Hlen, Hrange.
  assert (Hne : r.1 <> []).
  { intros E. rewrite E in Hlen. simpl in Hlen. lia. }
  destruct (Z.leb_spec (Z.of_nat (length data) - block_size c) 0); [lia |].
  destruct (Z.ltb_spec (batch_size c) 0); [lia |].
  simpl.
  rewrite (torch_stack_same_length _ (Z.to_nat (block_size c))).
  - rewrite (torch_stack_same_length _ (Z.to_nat (block_size c))).
    + reflexivity.
    + destruct r.1; [contradiction | discriminate].
    + apply Forall_map. eapply Forall_impl; [exact Hrange |].
      intros i Hi. simpl in Hi. rewrite py_slice_length by lia. lia.
  - destruct r.1; [contradiction | discriminate].
  - apply Forall_map. eapply Forall_impl; [exact Hrange |].
    intros i Hi. simpl in Hi. rewrite py_slice_length by lia. lia.
Qed.

(** C5.  When a batch can be drawn (at least one row, an array longer than
    one window), the sampler returns [batch_size] input rows and as many
    target rows; row [k] of the input is the window of [block_size] tokens
    that starts at the [k]-th drawn offset [i], row [k] of the target the
    window that starts at [i + 1], so the target is the input shifted by one
    token; the offsets are what [torch.randint] draws from [0, len - L),
    which is exactly the set of offsets where both windows lie inside the
    array. *)
Theorem get_batch_windows {P : Type} (c : config) (env : environment)
  (split : string) (w : world P) :
  randint_in_range -> sampler_ok c (split_data env split) ->
  let data := split_data env split in
  let L := Z.to_nat (block_size c) in
  exists w' x y ix,
    get_batch c env split w = (w', Ok (x, y)) /\
    ix = (randint (gen w) (Z.of_nat (length data) - block_size c)
                  (Z.to_nat (batch_size c))).1 /\
    length ix = Z.to_nat (batch_size c) /\
    length x = length ix /\ length y = length ix /\
    (forall i, valid_offset c data i <->
               0 <= i < Z.of_nat (length data) - block_size c) /\
    forall k i, ix !! k = Some i ->
      valid_offset c data i /\
      exists xr yr,
        x !! k = Some xr /\ y !! k = Some yr /\
        length xr = L /\ length yr = L /\
        (forall j, (j < L)%nat ->
           xr !! j = data !! (Z.to_nat i + j)%nat /\
           yr !! j = data !! (Z.to_nat i + 1 + j)%nat /\
           is_Some (yr !! j)) /\
        (forall j, (j + 1 < L)%nat -> yr !! j = xr !! (j + 1)%nat).
Proof.
  intros Hrand Hok.
  pose proof (get_batch_ok c env split w Hrand Hok) as Hrun.
  destruct Hok as [HB HL]. cbv zeta in *.
  set (data := split_data env split) in *.
  destruct (Hrand (gen w) (Z.of_nat (length data) - block_size c)
                  (Z.to_nat (batch_size c))) as [Hlen Hrange]; [lia |].
  eexists _, _, _, _. split; [exact Hrun |]. split; [reflexivity |].
  split; [exact Hlen |]. rewrite !length_map.
  split; [reflexivity |]. split; [reflexivity |].
  split; [intros i; unfold valid_offset; lia |].
  intros k i Hk.
  assert (Hi : 0 <= i < Z.of_nat (length data) - block_size c).
  { rewrite Forall_forall in Hrange. apply Hrange.
    apply list_elem_of_lookup. exists k. exact Hk. }
  split; [unfold valid_offset; lia |].
  eexists _, _. rewrite !list_lookup_fmap, Hk. simpl.
  split; [reflexivity |]. split; [reflexivity |].
  rewrite !py_slice_length by lia.
  split; [lia |]. split; [lia |]. split.
  - intros j Hj. rewrite !py_slice_lookup by lia.
    replace (Z.to_nat (i + 1) + j)%nat with (Z.to_nat i + 1 + j)%nat by lia.
    split; [reflexivity |]. split; [reflexivity |].
    apply lookup_lt_is_Some. lia.
  - intros j Hj. rewrite !py_slice_lookup by lia. f_equal. lia.
Qed.

End Sampler.

Lemma toy_randint_in_range : randint_in_range.
Proof.
  intros g high n Hhigh. simpl. split.
  - rewrite length_map, length_seq. reflexivity.
  - apply Forall_map, Forall_forall. intros k _. simpl.
    apply Z.mod_pos_bound. exact Hhigh.
Qed.

(** The sampler on the eight training tokens of the small environment: two
    rows of three tokens, the targets one token ahead. *)
Lemma get_batch_windows_small :
  exists w',
    get_batch small_config (small_env None) "train" empty_world =
    (w', Ok ([[10; 11; 12]; [11; 12; 13]], [[11; 12; 13]; [12; 13; 14]])).
Proof.
  destruct (get_batch_windows small_config (small_env None) "train"
              empty_world toy_randint_in_range)
    as (w' & x & y & ix & Hrun & _).
  - split; simpl; lia.
  - exists w'. rewrite Hrun. vm_compute in Hrun.
    injection Hrun as _ Hx Hy. rewrite <- Hx, <- Hy. reflexivity.
Defined.

(** ** Frame reasoning for statements *)

Section Frames.

Context `{Collaborators}.

Lemma evolves_refl {P : Type} (Q : event -> Prop)
  (R : relation (gmap string checkpoint * P))
  (w : world P) :
  Reflexive R -> evolves Q R w w.
Proof.
  intros HR. split; [apply HR |]. exists []. split; [reflexivity | constructor].
Qed.

Lemma evolves_trans {P : Type} (Q : event -> Prop)
  (R : relation (gmap string checkpoint * P))
  (w1 w2 w3 : world P) :
  Transitive R -> evolves Q R w1 w2 -> evolves Q R w2 w3 ->
  evolves Q R w1 w3.
Proof.
  intros HT [Hv1 (l1 & E1 & F1)] [Hv2 (l2 & E2 & F2)].
  split; [eapply HT; eassumption |].
  exists (l2 ++ l1). split.
  - rewrite E2, E1. apply app_assoc.
  - apply Forall_app. split; assumption.
Qed.

Lemma evolves_weaken {P : Type} (Q Q' : event -> Prop)
  (R R' : relation (gmap string checkpoint * P)) (w w' : world P) :
  (forall e, Q e -> Q' e) -> (forall a b, R a b -> R' a b) ->
  evolves Q R w w' -> evolves Q' R' w w'.
Proof.
  intros HQ HR [Hv (l & E & F)]. split; [apply HR, Hv |].
  exists l. split; [exact E |]. eapply Forall_impl; [exact F | exact HQ].
Qed.

Lemma respects_weaken {P A : Type} (Q Q' : event -> Prop)
  (R R' : relation (gmap string checkpoint * P)) (m : M (world P) A) :
  (forall e, Q e -> Q' e) -> (forall a b, R a b -> R' a b) ->
  respects Q R m -> respects Q' R' m.
Proof.
  intros HQ HR Hm w. eapply evolves_weaken; [exact HQ | exact HR | apply Hm].
Qed.

Lemma respects_ret {P A : Type} (Q : event -> Prop)
  (R : relation (gmap string checkpoint * P))
  (a : A) :
  Reflexive R -> respects Q R (ret a).
Proof. intros HR w. apply evolves_refl, HR. Qed.

Lemma respects_raise {P A : Type} (Q : event -> Prop)
  (R : relation (gmap string checkpoint * P))
  (e : exn) :
  Reflexive R -> respects Q R (raise (A := A) e).
Proof. intros HR w. apply evolves_refl, HR. Qed.

Lemma respects_lift {P A : Type} (Q : event -> Prop)
  (R : relation (gmap string checkpoint * P))
  (o : outcome A) :
  Reflexive R -> respects Q R (lift o).
Proof. intros HR w. apply evolves_refl, HR. Qed.

Lemma respects_bind {P A B : Type} (Q : event -> Prop)
  (R : relation (gmap string checkpoint * P))
  (m : M (world P) A) (k : A -> M (world P) B) :
  Transitive R ->
  respects Q R m -> (forall a, respects Q R (k a)) ->
  respects Q R (bind m k).
Proof.
  intros HT Hm Hk w. unfold bind.
  specialize (Hm w). destruct (m w) as [w1 [a | e]]; simpl in *.
  - eapply evolves_trans; [exact HT | exact Hm | apply Hk].
  - exact Hm.
Qed.

Lemma respects_emit {P : Type} (Q : event -> Prop)
  (R : relation (gmap string checkpoint * P))
  (e : event) :
  Reflexive R -> Q e -> respects Q R (emit (P := P) e).
Proof.
  intros HR He w. split; [apply HR |].
  exists [e]. split; [reflexivity | repeat constructor; exact He].
Qed.

Lemma respects_when {P : Type} (Q : event -> Prop)
  (R : relation (gmap string checkpoint * P))
  (b : bool) (m : M (world P) unit) :
  Reflexive R -> (b = true -> respects Q R m) -> respects Q R (when b m).
Proof.
  intros HR Hm. destruct b; simpl; [apply Hm; reflexivity |].
  apply respects_ret, HR.
Qed.

Lemma respects_get_vars {P : Type} (Q : event -> Prop)
  (R : relation (gmap string checkpoint * P)) :
  Reflexive R -> respects Q R (get_vars (P := P)).
Proof. intros HR w. apply evolves_refl, HR. Qed.

Lemma respects_modify_vars {P : Type} (Q : event -> Prop)
  (R : relation (gmap string checkpoint * P)) (f : P -> P) :
  (forall fs p, R (fs, p) (fs, f p)) -> respects Q R (modify_vars f).
Proof.
  intros Hf w. split; [apply Hf |].
  exists []. split; [reflexivity | constructor].
Qed.

Lemma respects_torch_randint {P : Type} (Q : event -> Prop)
  (R : relation (gmap string checkpoint * P)) (high n : Z) :
  Reflexive R -> respects Q R (torch_randint (P := P) high n).
Proof.
  intros HR w. unfold torch_randint.
  destruct ((high <=? 0) || (n <? 0)); simpl.
  - apply evolves_refl, HR.
  - split; [apply HR | exists []; split; [reflexivity | constructor]].
Qed.

Lemma respects_torch_load {P : Type} (Q : event -> Prop)
  (R : relation (gmap string checkpoint * P)) (path : string) :
  Reflexive R -> Q (EvTorchLoad path) ->
  respects Q R (torch_load (P := P) path).
Proof.
  intros HR HQ w. unfold torch_load.
  destruct (files w !! path); simpl;
    (split; [apply HR |
             exists [EvTorchLoad path];
             split; [reflexivity | repeat constructor; exact HQ]]).
Qed.

Lemma respects_get_batch {P : Type} (Q : event -> Prop)
  (R : relation (gmap string checkpoint * P))
  (c : config) (env : environment) (split : string) :
  Reflexive R -> Transitive R -> Q (EvGetBatch split) ->
  respects Q R (get_batch (P := P) c env split).
Proof.
  intros HR HT HQ. unfold get_batch.
  apply respects_bind; [exact HT | apply respects_emit; assumption |].
  intros _. apply respects_bind;
    [exact HT | apply respects_torch_randint, HR |].
  intros ix. apply respects_bind; [exact HT | apply respects_lift, HR |].
  intros x. apply respects_bind; [exact HT | apply respects_lift, HR |].
  intros y. apply respects_ret, HR.
Qed.

End Frames.

(** ** The evaluation runner *)

Section Evaluation.

Context `{Collaborators}.

Lemma model_call_evolves (X Y : list (list Z)) (w : world proc) :
  evolves (fun e => e = EvForward (m_training (model (vars w)))) eq
          w (model_call X Y w).1.
Proof.
  unfold model_call, bind, get_vars, emit, lift. simpl.
  split; [reflexivity |].
  exists [EvForward (m_training (model (vars w)))].
  split; [reflexivity | repeat constructor].
Qed.

Lemma evolves_eq_vars {P : Type} (Q : event -> Prop) (w w' : world P) :
  evolves Q eq w w' -> vars w' = vars w /\ files w' = files w.
Proof.
  intros [E _]. unfold store in E. injection E as Ef Ev. auto.
Qed.

(** While the model is in eval mode, the batches of one split leave files
    and variables alone and only draw batches and run forward passes. *)
Lemma eval_batches_evolves (c : config) (env : environment) (split : string)
  (ks : list nat) :
  forall (losses : list loss) (w : world proc),
    m_training (model (vars w)) = false ->
    evolves eval_event eq w (eval_batches c env split ks losses w).1.
Proof.
  induction ks as [| k ks IH]; intros losses w Hmode; cbn [eval_batches].
  - apply evolves_refl. intros ?; reflexivity.
  - unfold bind.
    pose proof (respects_get_batch (P := proc) eval_event eq c env split
                  ltac:(intros ?; reflexivity)
                  ltac:(intros ? ? ? -> ->; reflexivity) I w) as Hb.
    destruct (get_batch c env split w) as [w1 [b | e]]; cbn [fst snd] in *;
      [| exact Hb].
    destruct (evolves_eq_vars _ _ _ Hb) as [Hv1 _].
    pose proof (model_call_evolves b.1 b.2 w1) as Hc.
    rewrite Hv1, Hmode in Hc.
    assert (Hc' : evolves eval_event eq w1 (model_call b.1 b.2 w1).1).
    { eapply evolves_weaken; [| | exact Hc]; [| auto].
      intros e ->. reflexivity. }
    destruct (model_call b.1 b.2 w1) as [w2 [l | e]]; cbn [fst snd] in *.
    + destruct (evolves_eq_vars _ _ _ Hc') as [Hv2 _].
      eapply evolves_trans; [typeclasses eauto | exact Hb |].
      eapply evolves_trans; [typeclasses eauto | exact Hc' |].
      apply IH. rewrite Hv2, Hv1. exact Hmode.
    + eapply evolves_trans; [typeclasses eauto | exact Hb | exact Hc'].
Qed.

Lemma eval_split_evolves (c : config) (env : environment) (split : string)
  (w : world proc) :
  m_training (model (vars w)) = false ->
  evolves eval_event eq w (eval_split c env split w).1.
Proof.
  intros Hmode. unfold eval_split, bind, lift, ret.
  destruct (torch_zeros (eval_iters c)) as [z | e]; cbn [fst snd].
  - pose proof (eval_batches_evolves c env split (py_range (eval_iters c))
                  z w Hmode) as Hb.
    destruct (eval_batches c env split (py_range (eval_iters c)) z w)
      as [w1 [ls | e]]; exact Hb.
  - apply evolves_refl. intros ?; reflexivity.
Qed.

(** What an evaluation pass leaves behind.  On a normal return the trace is
    [model.eval()], batches and forward passes in eval mode, [model.train()],
    and the model is in training mode; when it raises, the trace stops inside
    the pass and the model is still in eval mode.  Files and all other
    variables are untouched either way. *)
Lemma estimate_loss_shape (c : config) (env : environment)
  (w w' : world proc) (o : outcome (loss * loss)) :
  estimate_loss c env w = (w', o) ->
  exists l,
    Forall eval_event l /\
    files w' = files w /\
    match o with
    | Ok _ =>
        trace w' = EvModelTrain :: l ++ EvModelEval :: trace w /\
        vars w' = set_model (set_training true (model (vars w))) (vars w)
    | Raise _ =>
        trace w' = l ++ EvModelEval :: trace w /\
        vars w' = set_model (set_training false (model (vars w))) (vars w)
    end.
Proof.
  unfold estimate_loss, bind, emit, modify_vars, ret.
  cbn [fst snd files gen trace vars].
  set (w0 := World (files w) (gen w) (EvModelEval :: trace w)
                   (set_model (set_training false (model (vars w))) (vars w))).
  pose proof (eval_split_evolves c env "train" w0 eq_refl) as H1.
  destruct (eval_split c env "train" w0) as [w1 [lt | e]];
    cbn [fst snd] in *;
    destruct (evolves_eq_vars _ _ _ H1) as [Hv1 Hf1];
    destruct H1 as [_ (l1 & Et1 & F1)].
  - assert (Hm1 : m_training (model (vars w1)) = false)
      by (rewrite Hv1; reflexivity).
    pose proof (eval_split_evolves c env "val" w1 Hm1) as H2.
    destruct (eval_split c env "val" w1) as [w2 [lv | e]];
      cbn [fst snd files gen trace vars] in *;
      destruct (evolves_eq_vars _ _ _ H2) as [Hv2 Hf2];
      destruct H2 as [_ (l2 & Et2 & F2)];
      intros E; injection E as <- <-;
      exists (l2 ++ l1);
      (split; [apply Forall_app; split; assumption |]);
      cbn [fst snd files gen trace vars];
      (split; [rewrite Hf2, Hf1; reflexivity |]);
      rewrite ?Et2, ?Et1, ?Hv2, ?Hv1; cbn [fst snd files gen trace vars];
      rewrite <- app_assoc; split; reflexivity.
  - intros E; injection E as <- <-.
    exists l1. split; [exact F1 |]. split; [rewrite Hf1; reflexivity |].
    rewrite Et1, Hv1. split; reflexivity.
Qed.

(** C2, as amended.  [estimate_loss] puts the model in eval mode on entry and
    back in training mode only on a normal return: when the evaluation
    raises, the exception leaves with the model still in eval mode. *)
Theorem estimate_loss_mode (c : config) (env : environment) (w : world proc) :
  match (estimate_loss c env w).2 with
  | Ok _ => m_training (model (vars (estimate_loss c env w).1)) = true
  | Raise _ => m_training (model (vars (estimate_loss c env w).1)) = false
  end.
Proof.
  destruct (estimate_loss c env w) as [w' o] eqn:E.
  destruct (estimate_loss_shape c env w w' o E) as (l & _ & _ & Hcase).
  cbn [fst snd]. destruct o; destruct Hcase as [_ ->]; reflexivity.
Qed.

End Evaluation.

(** C2 as stated fails: with a validation split too short for one window,
    the pass raises in [get_batch('val')] after the train split went through,
    and the model that entered in training mode is left in eval mode. *)
Lemma estimate_loss_raise_keeps_eval_mode :
  m_training (model (vars fresh_world)) = true /\
  (estimate_loss small_config short_val_env fresh_world).2 =
    Raise RuntimeError /\
  m_training
    (model (vars (estimate_loss small_config short_val_env fresh_world).1)) =
    false /\
  rev (trace (estimate_loss small_config short_val_env fresh_world).1) =
    [EvModelEval; EvGetBatch "train"; EvForward false;
     EvGetBatch "train"; EvForward false; EvGetBatch "val"].
Proof. vm_compute. repeat split. Qed.

(** ** The evaluation and checkpoint block *)

Section CheckpointBlock.

Context `{Collaborators}.

(** The block of lines 220-241 by cases: the modulo raises; the guard is
    false; the evaluation raises; the evaluation returns and the block logs,
    updates the best loss when it improved, and saves when moreover the
    iteration is positive. *)
Lemma eval_and_checkpoint_cases (c : config) (env : environment) (lr : R)
  (w w' : world proc) (o : outcome unit) :
  eval_and_checkpoint c env lr w = (w', o) ->
  (eval_interval c = 0 /\ o = Raise ZeroDivisionError /\ w' = w) \/
  (eval_interval c <> 0 /\
   (iter_num (vars w) mod eval_interval c <> 0 \/ gpu_id env <> 0) /\
   o = Ok tt /\ w' = w) \/
  (eval_interval c <> 0 /\
   iter_num (vars w) mod eval_interval c = 0 /\ gpu_id env = 0 /\
   exists w1 o1,
     estimate_loss c env w = (w1, o1) /\
     match o1 with
     | Raise e => o = Raise e /\ w' = w1
     | Ok losses =>
         o = Ok tt /\
         let logs :=
           (if wandb_log c
            then [EvWandbLog (iter_num (vars w)) losses.1 losses.2 lr]
            else []) ++
           [EvPrint (MsgStep (iter_num (vars w)) losses.1 losses.2)] in
         if loss_lt losses.2 (best_val_loss (vars w1)) then
           let p' := set_best_val_loss losses.2 (vars w1) in
           if iter_num (vars w1) >? 0 then
             w' = World (<[ckpt_path c := make_checkpoint c p']> (files w1))
                        (gen w1)
                        (EvTorchSave (ckpt_path c) (make_checkpoint c p')
                           :: logs ++ trace w1)
                        p'
           else w' = World (files w1) (gen w1) (logs ++ trace w1) p'
         else w' = World (files w1) (gen w1) (logs ++ trace w1) (vars w1)
     end).
Proof.
  unfold eval_and_checkpoint, bind, get_vars, lift, py_mod.
  cbn [fst snd].
  destruct (Z.eqb_spec (eval_interval c) 0) as [Hz | Hz].
  { intros E. injection E as <- <-. left. auto. }
  destruct (Z.eqb_spec (iter_num (vars w) mod eval_interval c) 0)
    as [Hmod | Hmod]; cbn [andb];
    [| intros E; injection E as <- <-; right; left; auto].
  destruct (Z.eqb_spec (gpu_id env) 0) as [Hg | Hg];
    [| intros E; injection E as <- <-; right; left; auto].
  intros E. right. right.
  split; [exact Hz |]. split; [exact Hmod |]. split; [exact Hg |].
  destruct (estimate_loss c env w) as [w1 [losses | e]].
  2: { exists w1, (Raise e). injection E as <- <-. auto. }
  exists w1, (Ok losses). split; [reflexivity |].
  revert E. unfold when, emit, modify_vars, torch_save, ret.
  cbn [fst snd files gen trace vars].
  destruct (wandb_log c); cbn [fst snd files gen trace vars app];
    (destruct (loss_lt losses.2 (best_val_loss (vars w1)));
     cbn [fst snd files gen trace vars iter_num set_best_val_loss];
     [destruct (iter_num (vars w1) >? 0) |]);
    cbn [fst snd files gen trace vars];
    intros E; injection E as <- <-; split; reflexivity.
Qed.

Lemma eval_event_not_save (l : list event) :
  Forall eval_event l -> Forall (fun e => ~ is_save e) l.
Proof.
  intros F. eapply Forall_impl; [exact F |].
  intros e He. destruct e; simpl in *; auto.
Qed.

(** The events of an evaluation pass with its console and wandb lines hold
    no checkpoint write. *)
Lemma eval_logs_not_save (it : Z) (lt lv : loss) (lr : R) (b : bool)
  (le : list event) :
  Forall eval_event le ->
  Forall (fun e => ~ is_save e)
    (((if b then [EvWandbLog it lt lv lr] else []) ++
      [EvPrint (MsgStep it lt lv)]) ++
     EvModelTrain :: le ++ [EvModelEval]).
Proof.
  intros F. apply Forall_app. split.
  - destruct b; repeat constructor; simpl; auto.
  - constructor; [simpl; auto |].
    apply Forall_app. split; [apply eval_event_not_save, F |].
    repeat constructor; simpl; auto.
Qed.

(** C4.  When the block of lines 220-241 completes, it has written a
    checkpoint if and only if the worker is the primary, the iteration is a
    multiple of [eval_interval], the validation loss just estimated is
    strictly below [best_val_loss], and the iteration is positive.  The
    checkpoint written holds the model weights, the optimizer state, the
    model hyperparameters, the iteration and the updated best validation
    loss; it goes to [ckpt.pt] in [out_dir], where it replaces whatever was
    stored, and no other file changes. *)
Theorem checkpoint_written_iff (c : config) (env : environment) (lr : R)
  (w w' : world proc) :
  eval_and_checkpoint c env lr w = (w', Ok tt) ->
  exists l,
    trace w' = l ++ trace w /\
    ((exists path ck, In (EvTorchSave path ck) l) <->
     (gpu_id env = 0 /\
      iter_num (vars w) mod eval_interval c = 0 /\
      (exists w1 lt lv,
         estimate_loss c env w = (w1, Ok (lt, lv)) /\
         loss_lt lv (best_val_loss (vars w)) = true) /\
      iter_num (vars w) > 0)) /\
    (forall path ck, In (EvTorchSave path ck) l ->
       path = ckpt_path c /\
       ck_model ck = m_weights (model (vars w)) /\
       ck_optimizer ck = optimizer (vars w) /\
       ck_model_args ck = list_to_map (model_args c) /\
       ck_iter_num ck = iter_num (vars w) /\
       ck_best_val_loss ck = best_val_loss (vars w') /\
       (exists w1 lt,
          estimate_loss c env w = (w1, Ok (lt, ck_best_val_loss ck))) /\
       files w' = <[ckpt_path c := ck]> (files w) /\
       files w' !! ckpt_path c = Some ck /\
       (forall path', path' <> ckpt_path c ->
                      files w' !! path' = files w !! path')) /\
    ((forall path ck, ~ In (EvTorchSave path ck) l) -> files w' = files w).
Proof.
  intros Hrun.
  destruct (eval_and_checkpoint_cases c env lr w w' (Ok tt) Hrun)
    as [(_ & Ho & _) | [(Hz & Hguard & _ & ->) | (Hz & Hmod & Hg & Hev)]].
  - discriminate.
  - exists []. split; [reflexivity |]. split; [| split].
    + split.
      * intros (path & ck & []).
      * intros (Hg & Hmod & _). destruct Hguard; contradiction.
    + intros path ck [].
    + reflexivity.
  - destruct Hev as (w1 & [[lt lv] | e] & Hest & Hcase);
      [| destruct Hcase; discriminate].
    destruct (estimate_loss_shape c env w w1 _ Hest)
      as (le & Fle & Hf1 & Ht1 & Hv1).
    destruct Hcase as [_ Hw']. cbn [fst snd] in Hw'.
    assert (Hbest : best_val_loss (vars w1) = best_val_loss (vars w))
      by (rewrite Hv1; reflexivity).
    assert (Hit : iter_num (vars w1) = iter_num (vars w))
      by (rewrite Hv1; reflexivity).
    pose proof (eval_logs_not_save (iter_num (vars w)) lt lv lr
                  (wandb_log c) le Fle) as Hnos.
    set (logs := (if wandb_log c
                  then [EvWandbLog (iter_num (vars w)) lt lv lr] else []) ++
                 [EvPrint (MsgStep (iter_num (vars w)) lt lv)]) in *.
    assert (Hnotin : forall path ck,
              ~ In (EvTorchSave path ck)
                   (logs ++ EvModelTrain :: le ++ [EvModelEval])).
    { intros path ck Hin. rewrite Forall_forall in Hnos.
      apply (Hnos (EvTorchSave path ck)); [| exact I].
      apply list_elem_of_In. exact Hin. }
    assert (Htr : logs ++ trace w1 =
                  (logs ++ EvModelTrain :: le ++ [EvModelEval]) ++ trace w).
    { rewrite Ht1, <- app_assoc. f_equal.
      cbn [app]. rewrite <- app_assoc. reflexivity. }
    rewrite Hbest, Hit in Hw'.
    destruct (loss_lt lv (best_val_loss (vars w))) eqn:Hlt;
      [destruct (Z.gtb_spec (iter_num (vars w)) 0) as [Hpos | Hpos] |].
    + (* improved at a positive iteration: the checkpoint is written *)
      set (ck0 := make_checkpoint c (set_best_val_loss lv (vars w1))) in *.
      exists (EvTorchSave (ckpt_path c) ck0 ::
              logs ++ EvModelTrain :: le ++ [EvModelEval]).
      subst w'. cbn [trace files vars].
      split; [rewrite Htr; reflexivity |]. split; [| split].
      * split; [| intros _; exists (ckpt_path c), ck0; left; reflexivity].
        intros _. split; [exact Hg |]. split; [exact Hmod |].
        split; [| lia]. exists w1, lt, lv. auto.
      * intros path ck [Heq | Hin]; [| destruct (Hnotin _ _ Hin)].
        injection Heq as <- <-. unfold ck0, make_checkpoint.
        cbn [ck_model ck_optimizer ck_model_args ck_iter_num
             ck_best_val_loss set_best_val_loss model optimizer iter_num
             best_val_loss].
        rewrite Hv1, Hf1. cbn [set_model model optimizer iter_num m_weights
                               set_training].
        split; [reflexivity |]. split; [reflexivity |].
        split; [reflexivity |]. split; [reflexivity |].
        split; [reflexivity |]. split; [reflexivity |].
        split; [exists w1, lt; exact Hest |].
        split; [reflexivity |].
        split; [apply lookup_insert_eq |].
        intros path' Hne. apply lookup_insert_ne. congruence.
      * intros Hnone. exfalso.
        apply (Hnone (ckpt_path c) ck0). left. reflexivity.
    + (* improved at iteration zero or below: nothing is written *)
      exists (logs ++ EvModelTrain :: le ++ [EvModelEval]).
      subst w'. cbn [trace files vars].
      split; [exact Htr |]. split; [| split].
      * split; [intros (path & ck & Hin); destruct (Hnotin _ _ Hin) |].
        intros (_ & _ & _ & Hgt). lia.
      * intros path ck Hin. destruct (Hnotin _ _ Hin).
      * intros _. exact Hf1.
    + (* no improvement: nothing is written *)
      exists (logs ++ EvModelTrain :: le ++ [EvModelEval]).
      subst w'. cbn [trace files vars].
      split; [exact Htr |]. split; [| split].
      * split; [intros (path & ck & Hin); destruct (Hnotin _ _ Hin) |].
        intros (_ & _ & (w1' & lt' & lv' & Hest' & Hlt') & _).
        rewrite Hest in Hest'. injection Hest' as _ _ <-. congruence.
      * intros path ck Hin. destruct (Hnotin _ _ Hin).
      * intros _. exact Hf1.
Qed.

End CheckpointBlock.


(** ** Startup, model construction and resume *)

Section Init.

Context `{Collaborators}.

(** Lines 96-106 always complete; the files are left alone. *)
Lemma startup_run (c : config) (env : environment) (w : world unit) :
  startup c env w =
  (World (files w) (manual_seed (1337 + gpu_id env))
         (EvManualSeed (1337 + gpu_id env) ::
          (if gpu_id env =? 0 then [EvMakeDirs (out_dir c)] else []) ++
          (if ddp env then [EvInitProcessGroup (backend c)] else []) ++
          trace w)
         tt, Ok tt).
Proof.
  destruct w as [fs g tr []].
  unfold startup, bind, when, emit, ret.
  destruct (ddp env), (gpu_id env =? 0); reflexivity.
Qed.

(** The loop of lines 139-140 passes exactly when the checkpoint stores an
    equal value for every requested hyperparameter. *)
Lemma check_model_args_ok (ckargs : gmap string hval)
  (args : list (string * hval)) :
  check_model_args ckargs args = Ok tt <->
  forall k v, In (k, v) args ->
    exists v', ckargs !! k = Some v' /\ hval_eqb v' v = true.
Proof.
  induction args as [| [k v] rest IH]; simpl.
  - split; [intros _ k v [] | reflexivity].
  - destruct (ckargs !! k) as [v' |] eqn:Hk.
    + destruct (hval_eqb v' v) eqn:Heq.
      * rewrite IH. split.
        -- intros Hrest k0 v0 [E | Hin]; [| apply Hrest, Hin].
           injection E as <- <-. eauto.
        -- intros Hall k0 v0 Hin. apply Hall. right. exact Hin.
      * split; [discriminate |]. intros Hall.
        destruct (Hall k v (or_introl eq_refl)) as (v'' & Hk' & Heq').
        congruence.
    + split; [discriminate |]. intros Hall.
      destruct (Hall k v (or_introl eq_refl)) as (v'' & Hk' & _).
      congruence.
Qed.

(** Otherwise it raises [AssertionError] or [KeyError]. *)
Lemma check_model_args_raises (ckargs : gmap string hval)
  (args : list (string * hval)) :
  mismatch ckargs args ->
  check_model_args ckargs args = Raise AssertionError \/
  check_model_args ckargs args = Raise KeyError.
Proof.
  intros (k & v & Hin & Hbad).
  destruct (check_model_args ckargs args) as [[] | e] eqn:Hc.
  - pose proof (proj1 (check_model_args_ok ckargs args) Hc) as Hall.
    destruct (Hall k v Hin) as (v' & Hk & Heq).
    rewrite (Hbad v' Hk) in Heq. discriminate.
  - clear Hin Hbad. revert Hc.
    induction args as [| [k0 v0] rest IH]; simpl; [discriminate |].
    destruct (ckargs !! k0) as [v' |]; [| intros E; injection E as <-; auto].
    destruct (hval_eqb v' v0); [exact IH |].
    intros E; injection E as <-; auto.
Qed.

(** Model construction on the resume path, when the file is there and the
    hyperparameters agree. *)
Lemma model_init_resume (c : config) (w : world unit) (ck : checkpoint) :
  init_from c = "resume"%string ->
  files w !! ckpt_path c = Some ck ->
  check_model_args (ck_model_args ck) (model_args c) = Ok tt ->
  model_init c w =
  (World (files w) (gpt_new (model_args c) (gen w)).2
         ((if compile_model c then [EvPrint MsgCompiling] else []) ++
          EvTorchLoad (ckpt_path c) :: EvPrint (MsgResuming (out_dir c)) ::
          trace w)
         tt,
   Ok (Proc (Model (ck_model ck) (block_size c) true) (ck_optimizer ck)
            (ck_iter_num ck) (ck_best_val_loss ck))).
Proof.
  intros Hinit Hfile Hcheck. destruct w as [fs g tr []].
  cbn [files gen trace vars] in *.
  unfold model_init, build_model, bind. rewrite Hinit.
  cbn [String.eqb Ascii.eqb Bool.eqb].
  unfold emit, torch_load, lift, new_gpt, ret, when.
  cbn [fst snd files gen trace vars]. rewrite Hfile, Hcheck.
  cbn [fst snd files gen trace vars m_block_size m_training].
  unfold crop_model, build_optimizer.
  cbn [m_block_size m_weights m_training]. rewrite Z.ltb_irrefl, Hinit.
  cbn [String.eqb Ascii.eqb Bool.eqb].
  destruct (compile_model c); reflexivity.
Qed.

(** [wandb.init] is the only thing between model construction and the loop:
    the loop is entered with the variables that construction produced. *)
Lemma wandb_setup_run {P : Type} (c : config) (env : environment)
  (w : world P) :
  wandb_setup c env w =
  (World (files w) (gen w)
         ((if wandb_log c && (gpu_id env =? 0) then [EvWandbInit] else []) ++
          trace w)
         (vars w), Ok tt).
Proof.
  unfold wandb_setup, when, emit, ret. destruct w as [fs g tr p].
  destruct (wandb_log c && (gpu_id env =? 0)); reflexivity.
Qed.

(** C6.  With [init_from = 'resume'], a checkpoint in place and matching
    hyperparameters, model construction succeeds and hands the loop the
    iteration counter and the best validation loss stored in the checkpoint,
    the optimizer state and the weights restored from it: the first turn of
    the loop starts from a state [w2] with [iter_num = N] and
    [best_val_loss = B]. *)
Theorem resume_restores_state (c : config) (env : environment)
  (w0 : world unit) (ck : checkpoint) :
  init_from c = "resume"%string ->
  files w0 !! ckpt_path c = Some ck ->
  check_model_args (ck_model_args ck) (model_args c) = Ok tt ->
  exists w1 p w2,
    (startup c env ;; model_init c) w0 = (w1, Ok p) /\
    wandb_setup c env (with_vars p w1) = (w2, Ok tt) /\
    vars w2 = p /\
    iter_num p = ck_iter_num ck /\
    best_val_loss p = ck_best_val_loss ck /\
    optimizer p = ck_optimizer ck /\
    m_weights (model p) = ck_model ck /\
    train_main c env w0 =
      match training_loop c env (loop_fuel c w2) w2 with
      | None => None
      | Some (w3, Raise e) => Some (with_vars (Some (vars w3)) w3, Raise e)
      | Some (w3, Ok _) =>
          Some (World (files w3) (gen w3)
                      (EvDestroyProcessGroup :: trace w3) (Some (vars w3)),
                Ok tt)
      end.
Proof.
  intros Hinit Hfile Hcheck.
  assert (Hrun : exists w1,
            (startup c env ;; model_init c) w0 =
            (w1, Ok (Proc (Model (ck_model ck) (block_size c) true)
                          (ck_optimizer ck) (ck_iter_num ck)
                          (ck_best_val_loss ck)))).
  { unfold bind. rewrite startup_run.
    erewrite model_init_resume;
      [eauto | exact Hinit | exact Hfile | exact Hcheck]. }
  destruct Hrun as (w1 & Hrun). eexists w1, _, _.
  split; [exact Hrun |]. split; [apply wandb_setup_run |].
  repeat (split; [reflexivity |]).
  unfold train_main. rewrite Hrun. unfold run_from_init.
  rewrite wandb_setup_run.
  destruct (training_loop _ _ _ _) as [[w3 [[] | e]] |]; reflexivity.
Qed.

(** The keys of [model_args] do not depend on the configuration. *)
Lemma model_args_keys (c c' : config) (k : string) (v' : hval) :
  In (k, v') (model_args c') -> exists v, In (k, v) (model_args c).
Proof.
  simpl. intros [E | [E | [E | [E | [E | []]]]]]; injection E as <- _;
    eexists; eauto 6.
Qed.

(** C8, as amended.  With [init_from = 'resume'] and a checkpoint in place:
    if for some hyperparameter requested for the run the checkpoint stores a
    different value or none, the run stops with [AssertionError] or
    [KeyError] right after loading, before a model exists and before any
    turn of the loop, so that no value of either side is taken over;
    whenever model construction succeeds, every requested hyperparameter has
    an equal stored value; and for a checkpoint whose hyperparameters were
    written by this script, that covers every stored hyperparameter. *)
Theorem resume_validates_hyperparameters (c : config) (env : environment)
  (w0 : world unit) (ck : checkpoint) :
  init_from c = "resume"%string ->
  files w0 !! ckpt_path c = Some ck ->
  (mismatch (ck_model_args ck) (model_args c) ->
   exists w e,
     train_main c env w0 = Some (w, Raise e) /\
     (e = AssertionError \/ e = KeyError) /\
     vars w = None /\
     files w = files w0 /\
     trace w = EvTorchLoad (ckpt_path c) ::
               EvPrint (MsgResuming (out_dir c)) ::
               trace (startup c env w0).1) /\
  (forall w1 p,
     (startup c env ;; model_init c) w0 = (w1, Ok p) ->
     (forall k v, In (k, v) (model_args c) ->
        exists v', ck_model_args ck !! k = Some v' /\ hval_eqb v' v = true) /\
     (forall c', ck_model_args ck = list_to_map (model_args c') ->
        forall k v', ck_model_args ck !! k = Some v' ->
          exists v, In (k, v) (model_args c) /\ hval_eqb v' v = true)).
Proof.
  intros Hinit Hfile.
  assert (Hshape : forall e,
            check_model_args (ck_model_args ck) (model_args c) = Raise e ->
            (startup c env ;; model_init c) w0 =
            (World (files w0) (manual_seed (1337 + gpu_id env))
                   (EvTorchLoad (ckpt_path c) ::
                    EvPrint (MsgResuming (out_dir c)) ::
                    trace (startup c env w0).1) tt,
             Raise e)).
  { intros e He. unfold bind. rewrite startup_run.
    unfold model_init, build_model, bind. rewrite Hinit.
    cbn [String.eqb Ascii.eqb Bool.eqb].
    unfold emit, torch_load, lift.
    cbn [fst snd files gen trace vars]. rewrite Hfile, He. reflexivity. }
  split.
  - intros Hbad.
    destruct (check_model_args_raises _ _ Hbad) as [He | He];
      (eexists _, _; unfold train_main; rewrite (Hshape _ He);
       split; [reflexivity |]; split; [auto |]; repeat split).
  - intros w1 p Hrun.
    assert (Hall : forall k v, In (k, v) (model_args c) ->
              exists v', ck_model_args ck !! k = Some v' /\
                         hval_eqb v' v = true).
    { apply check_model_args_ok.
      destruct (check_model_args (ck_model_args ck) (model_args c))
        as [[] | e] eqn:Hc; [reflexivity |].
      rewrite (Hshape e eq_refl) in Hrun. discriminate. }
    split; [exact Hall |].
    intros c' Hwritten k v' Hk.
    assert (Hin : In (k, v') (model_args c')).
    { apply list_elem_of_In. rewrite Hwritten in Hk.
      apply elem_of_list_to_map_2 in Hk. exact Hk. }
    destruct (model_args_keys c c' k v' Hin) as [v Hv].
    exists v. split; [exact Hv |].
    destruct (Hall k v Hv) as (v'' & Hk' & Heq). congruence.
Qed.

End Init.

(** Resuming the small instance from the checkpoint taken at iteration 40
    with best loss 12. *)
Lemma resume_restores_state_small :
  exists w1 p,
    (startup (small_config_with "resume" 3) (small_env None) ;;
     model_init (small_config_with "resume" 3)) world_with_ckpt =
    (w1, Ok p) /\
    iter_num p = 40 /\ best_val_loss p = 12.
Proof.
  destruct (resume_restores_state (small_config_with "resume" 3)
              (small_env None) world_with_ckpt ckpt_40)
    as (w1 & p & w2 & Hrun & _ & _ & Hi & Hb & _);
    [reflexivity | vm_compute; reflexivity | vm_compute; reflexivity |].
  exists w1, p. split; [exact Hrun |]. split; [exact Hi | exact Hb].
Defined.

(** Resuming with [block_size = 4] from a checkpoint that stores 3. *)
Lemma resume_rejects_block_size_4 :
  exists w e,
    train_main (small_config_with "resume" 4) (small_env None)
               world_with_ckpt = Some (w, Raise e) /\
    (e = AssertionError \/ e = KeyError) /\
    vars w = None.
Proof.
  destruct (resume_validates_hyperparameters (small_config_with "resume" 4)
              (small_env None) world_with_ckpt ckpt_40)
    as [Hbad _]; [reflexivity | vm_compute; reflexivity |].
  destruct Hbad as (w & e & Hrun & He & Hv & _).
  - exists "block_size"%string, (HInt 4). split.
    + simpl. auto.
    + intros v' Hv'.
      assert (E : ck_model_args ckpt_40 !! "block_size"%string =
                  Some (HInt 3)) by (vm_compute; reflexivity).
      rewrite E in Hv'. injection Hv' as <-. reflexivity.
  - exists w, e. auto.
Defined.

(** ** One turn of the loop *)

Section LoopBody.

Context `{Collaborators}.

#[local] Instance keeps_iter_refl : Reflexive keeps_iter.
Proof. intros a. reflexivity. Qed.

#[local] Instance keeps_iter_trans : Transitive keeps_iter.
Proof. intros a b d Hab Hbd. unfold keeps_iter in *. congruence. Qed.

#[local] Instance any_store_refl {P : Type} : Reflexive (any_store (P := P)).
Proof. intros a. exact I. Qed.

#[local] Instance any_store_trans {P : Type} : Transitive (any_store (P := P)).
Proof. intros a b d _ _. exact I. Qed.

Lemma respects_model_call (Q : event -> Prop)
  (R : relation (gmap string checkpoint * proc)) (X Y : list (list Z)) :
  Reflexive R -> (forall b, Q (EvForward b)) ->
  respects Q R (model_call X Y).
Proof.
  intros HR HQ w. eapply evolves_weaken; [| | apply model_call_evolves].
  - intros e ->. apply HQ.
  - intros a b ->. apply HR.
Qed.

Lemma respects_eval_batches (c : config) (env : environment) (split : string)
  (ks : list nat) (losses : list loss) :
  respects (loop_event c env) keeps_iter (eval_batches c env split ks losses).
Proof.
  revert losses. induction ks as [| k ks IH]; intros losses; cbn [eval_batches].
  - apply respects_ret. typeclasses eauto.
  - apply respects_bind; [typeclasses eauto | |].
    + apply respects_get_batch; [typeclasses eauto .. | exact I].
    + intros b. apply respects_bind; [typeclasses eauto | |].
      * apply respects_model_call; [typeclasses eauto | intros ?; exact I].
      * intros l. apply IH.
Qed.

Lemma respects_eval_split (c : config) (env : environment) (split : string) :
  respects (loop_event c env) keeps_iter (eval_split c env split).
Proof.
  unfold eval_split.
  apply respects_bind; [typeclasses eauto | |].
  - apply respects_lift. typeclasses eauto.
  - intros z. apply respects_bind; [typeclasses eauto | |].
    + apply respects_eval_batches.
    + intros ls. apply respects_ret. typeclasses eauto.
Qed.

Lemma respects_estimate_loss (c : config) (env : environment) :
  gpu_id env = 0 ->
  respects (loop_event c env) keeps_iter (estimate_loss c env).
Proof.
  intros Hg. unfold estimate_loss.
  apply respects_bind; [typeclasses eauto | |].
  { apply respects_emit; [typeclasses eauto | exact Hg]. }
  intros _. apply respects_bind; [typeclasses eauto | |].
  { apply respects_modify_vars. intros fs p. reflexivity. }
  intros _. apply respects_bind;
    [typeclasses eauto | apply respects_eval_split |].
  intros lt. apply respects_bind;
    [typeclasses eauto | apply respects_eval_split |].
  intros lv. apply respects_bind; [typeclasses eauto | |].
  { apply respects_emit; [typeclasses eauto | exact Hg]. }
  intros _. apply respects_bind; [typeclasses eauto | |].
  { apply respects_modify_vars. intros fs p. reflexivity. }
  intros _. apply respects_ret. typeclasses eauto.
Qed.

Lemma respects_torch_save (c : config) (env : environment)
  (ck : checkpoint) :
  gpu_id env = 0 ->
  respects (loop_event c env) keeps_iter (torch_save ck (ckpt_path c)).
Proof.
  intros Hg w. split; [reflexivity |].
  exists [EvTorchSave (ckpt_path c) ck].
  split; [reflexivity |]. repeat constructor. exact Hg.
Qed.

Lemma respects_eval_and_checkpoint (c : config) (env : environment) (lr : R) :
  respects (loop_event c env) keeps_iter (eval_and_checkpoint c env lr).
Proof.
  unfold eval_and_checkpoint.
  apply respects_bind; [typeclasses eauto | |].
  { apply respects_get_vars. typeclasses eauto. }
  intros p. apply respects_bind; [typeclasses eauto | |].
  { apply respects_lift. typeclasses eauto. }
  intros r. destruct (r =? 0); cbn [andb];
    [| apply respects_ret; typeclasses eauto].
  destruct (Z.eqb_spec (gpu_id env) 0) as [Hg | Hg];
    [| apply respects_ret; typeclasses eauto].
  apply respects_bind;
    [typeclasses eauto | apply respects_estimate_loss, Hg |].
  intros losses. apply respects_bind; [typeclasses eauto | |].
  { apply respects_emit; [typeclasses eauto | exact Hg]. }
  intros _. apply respects_bind; [typeclasses eauto | |].
  { apply respects_when; [typeclasses eauto |]. intros Hw.
    apply respects_emit; [typeclasses eauto | split; assumption]. }
  intros _. apply respects_bind; [typeclasses eauto | |].
  { apply respects_get_vars. typeclasses eauto. }
  intros p'. destruct (loss_lt losses.2 (best_val_loss p'));
    [| apply respects_ret; typeclasses eauto].
  apply respects_bind; [typeclasses eauto | |].
  { apply respects_modify_vars. intros fs q. reflexivity. }
  intros _. destruct (iter_num p' >? 0);
    [| apply respects_ret; typeclasses eauto].
  apply respects_bind; [typeclasses eauto | |].
  { apply respects_get_vars. typeclasses eauto. }
  intros q. apply respects_torch_save, Hg.
Qed.

Lemma respects_determine_lr (Q : event -> Prop) (c : config) :
  respects Q keeps_iter (determine_lr c).
Proof.
  unfold determine_lr. destruct (decay_lr c);
    [| apply respects_ret; typeclasses eauto].
  apply respects_bind; [typeclasses eauto | |].
  { apply respects_get_vars. typeclasses eauto. }
  intros p. apply respects_bind; [typeclasses eauto | |].
  { apply respects_lift. typeclasses eauto. }
  intros lr. apply respects_bind; [typeclasses eauto | |].
  { apply respects_modify_vars. intros fs q. reflexivity. }
  intros _. apply respects_ret. typeclasses eauto.
Qed.

Lemma respects_train_step (c : config) (env : environment) :
  respects (loop_event c env) any_store (train_step c env).
Proof.
  unfold train_step.
  apply respects_bind; [typeclasses eauto | |].
  { apply respects_get_batch; [typeclasses eauto .. | exact I]. }
  intros b. apply respects_bind; [typeclasses eauto | |].
  { apply respects_model_call; [typeclasses eauto | intros ?; exact I]. }
  intros l.
  do 3 (apply respects_bind;
        [typeclasses eauto
        | apply respects_emit; [typeclasses eauto | exact I]
        | intros _]).
  apply respects_bind; [typeclasses eauto | |].
  { apply respects_modify_vars. intros fs q. exact I. }
  intros _. apply respects_bind; [typeclasses eauto | |].
  { apply respects_get_vars. typeclasses eauto. }
  intros p. apply respects_bind; [typeclasses eauto | |].
  { apply respects_lift. typeclasses eauto. }
  intros r. apply respects_bind; [typeclasses eauto | |].
  { apply respects_when; [typeclasses eauto |]. intros Hc.
    apply andb_true_iff in Hc as [_ Hg]. apply Z.eqb_eq in Hg.
    apply respects_emit; [typeclasses eauto | exact Hg]. }
  intros _. apply respects_modify_vars. intros fs q. exact I.
Qed.

(** Whatever its outcome, a turn of the loop emits loop events only. *)
Lemma respects_loop_body (c : config) (env : environment) :
  respects (loop_event c env) any_store (loop_body c env).
Proof.
  unfold loop_body.
  apply respects_bind; [typeclasses eauto | |].
  { eapply respects_weaken; [| | apply (respects_determine_lr _ c)];
      [intros e He; exact He | intros a b _; exact I]. }
  intros lr. apply respects_bind; [typeclasses eauto | |].
  { eapply respects_weaken; [| | apply respects_eval_and_checkpoint];
      [intros e He; exact He | intros a b _; exact I]. }
  intros _. apply respects_bind; [typeclasses eauto | |].
  { apply respects_get_vars. typeclasses eauto. }
  intros p. destruct ((iter_num p =? 0) && eval_only c);
    [apply respects_ret; typeclasses eauto |].
  apply respects_bind; [typeclasses eauto | apply respects_train_step |].
  intros _. apply respects_bind; [typeclasses eauto | |].
  { apply respects_get_vars. typeclasses eauto. }
  intros q. apply respects_ret. typeclasses eauto.
Qed.

Lemma get_batch_store {P : Type} (c : config) (env : environment)
  (split : string) (w : world P) :
  store (get_batch c env split w).1 = store w.
Proof.
  destruct (respects_get_batch (fun _ => True) eq c env split
              ltac:(typeclasses eauto) ltac:(typeclasses eauto) I w)
    as [E _].
  symmetry. exact E.
Qed.

Lemma model_call_store (X Y : list (list Z)) (w : world proc) :
  store (model_call X Y w).1 = store w.
Proof.
  destruct (model_call_evolves X Y w) as [E _]. symmetry. exact E.
Qed.

(** A training step that completes has advanced the iteration by one. *)
Lemma train_step_iter (c : config) (env : environment) (w w' : world proc) :
  train_step c env w = (w', Ok tt) ->
  iter_num (vars w') = iter_num (vars w) + 1.
Proof.
  unfold train_step. unfold bind at 1.
  pose proof (get_batch_store c env "train" w) as Hs1.
  destruct (get_batch c env "train" w) as [w1 [b | e]]; [| discriminate].
  unfold bind at 1.
  pose proof (model_call_store b.1 b.2 w1) as Hs2.
  destruct (model_call b.1 b.2 w1) as [w2 [l | e]]; [| discriminate].
  cbn [fst snd] in Hs1, Hs2.
  assert (Hv : vars w2 = vars w).
  { unfold store in *. congruence. }
  unfold bind, emit, modify_vars, get_vars, lift, py_mod, when, ret.
  cbn [fst snd files gen trace vars].
  destruct (log_interval c =? 0); [discriminate |].
  cbn [iter_num set_optimizer set_model].
  destruct ((_ =? 0) && (gpu_id env =? 0));
    cbn [fst snd files gen trace vars];
    intros E; injection E as <-;
    cbn [vars set_iter_num iter_num]; rewrite Hv; reflexivity.
Qed.

(** A turn of the loop by its outcome: it can only ask for another turn
    after a training step that left the iteration, now one higher, below
    [max_iters]; it breaks either at iteration zero of an eval-only run,
    without a training step, or after a training step that brought the
    iteration to [max_iters] or beyond. *)
Lemma loop_body_cases (c : config) (env : environment) (w w' : world proc)
  (b : bool) :
  loop_body c env w = (w', Ok b) ->
  if (iter_num (vars w) =? 0) && eval_only c then
    b = true /\ iter_num (vars w') = iter_num (vars w)
  else
    iter_num (vars w') = iter_num (vars w) + 1 /\
    b = (iter_num (vars w') >=? max_iters c).
Proof.
  unfold loop_body. unfold bind at 1.
  destruct (respects_determine_lr (fun _ => True) c w) as [Hi1 _].
  destruct (determine_lr c w) as [w1 [lr | e]]; [| discriminate].
  unfold bind at 1.
  destruct (respects_eval_and_checkpoint c env lr w1) as [Hi2 _].
  destruct (eval_and_checkpoint c env lr w1) as [w2 [[] | e]];
    [| discriminate].
  unfold keeps_iter, store in Hi1, Hi2. cbn [fst snd] in Hi1, Hi2.
  unfold bind at 1. unfold get_vars at 1. cbn [fst snd].
  rewrite Hi2, Hi1.
  destruct ((iter_num (vars w) =? 0) && eval_only c).
  - unfold ret. intros E. injection E as <- <-. split; congruence.
  - unfold bind at 1.
    destruct (train_step c env w2) as [w3 [[] | e]] eqn:Hstep;
      [| discriminate].
    apply train_step_iter in Hstep.
    unfold bind, get_vars, ret. cbn [fst snd].
    intros E. injection E as <- <-. split; [congruence | reflexivity].
Qed.

End LoopBody.

(** ** Turns that complete *)

Section LoopReturns.

Context `{Collaborators}.

Hypothesis randint_ok : randint_in_range.
Hypothesis forward_ok : forward_returns.

Variable c : config.
Variable env : environment.

Hypothesis run_ok : loop_ok c env.

Lemma model_call_returns (X Y : list (list Z)) (w : world proc) :
  exists w' l, model_call X Y w = (w', Ok l).
Proof.
  unfold model_call, bind, get_vars, emit, lift. cbn [fst snd].
  destruct (forward_ok (m_weights (model (vars w)))
              (m_training (model (vars w))) X Y) as [l ->].
  eauto.
Qed.

Lemma get_batch_returns {P : Type} (split : string) (w : world P) :
  split = "train"%string \/ split = "val"%string ->
  exists w' b, get_batch c env split w = (w', Ok b).
Proof.
  destruct run_ok as (_ & _ & _ & _ & Htrain & Hval).
  intros [-> | ->]; eexists _, _; apply get_batch_ok; assumption.
Qed.

Lemma eval_batches_returns (split : string) (ks : list nat) :
  split = "train"%string \/ split = "val"%string ->
  forall (losses : list loss) (w : world proc),
    exists w' ls, eval_batches c env split ks losses w = (w', Ok ls).
Proof.
  intros Hsplit. induction ks as [| k ks IH]; intros losses w;
    cbn [eval_batches].
  - unfold ret. eauto.
  - unfold bind.
    destruct (get_batch_returns split w Hsplit) as (w1 & b & ->).
    destruct (model_call_returns b.1 b.2 w1) as (w2 & l & ->).
    apply IH.
Qed.

Lemma eval_split_returns (split : string) (w : world proc) :
  split = "train"%string \/ split = "val"%string ->
  exists w' l, eval_split c env split w = (w', Ok l).
Proof.
  intros Hsplit. destruct run_ok as (_ & _ & _ & Hk & _).
  unfold eval_split, bind, lift, torch_zeros, ret.
  destruct (Z.ltb_spec (eval_iters c) 0); [lia |]. cbn [fst snd].
  destruct (eval_batches_returns split (py_range (eval_iters c)) Hsplit
              (replicate (Z.to_nat (eval_iters c)) loss_zero) w)
    as (w1 & ls & ->).
  eauto.
Qed.

Lemma estimate_loss_returns (w : world proc) :
  exists w' losses, estimate_loss c env w = (w', Ok losses).
Proof.
  unfold estimate_loss, bind, emit, modify_vars, ret.
  cbn [fst snd files gen trace vars].
  match goal with
  | |- context [eval_split c env "train" ?w0] =>
      destruct (eval_split_returns "train" w0 (or_introl eq_refl))
        as (w1 & lt & ->)
  end.
  destruct (eval_split_returns "val" w1 (or_intror eq_refl))
    as (w2 & lv & ->).
  eauto.
Qed.

Lemma eval_and_checkpoint_returns (lr : R) (w : world proc) :
  exists w', eval_and_checkpoint c env lr w = (w', Ok tt).
Proof.
  destruct (eval_and_checkpoint c env lr w) as [w' o] eqn:Hrun.
  exists w'. f_equal.
  destruct run_ok as (Hz & _).
  destruct (eval_and_checkpoint_cases c env lr w w' o Hrun)
    as [(Hz' & _) | [(_ & _ & -> & _) | (_ & _ & _ & Hev)]];
    [contradiction | reflexivity |].
  destruct Hev as (w1 & o1 & Hest & Hcase).
  destruct (estimate_loss_returns w) as (w1' & losses & Hest').
  rewrite Hest' in Hest. injection Hest as <- <-.
  destruct Hcase as [-> _]. reflexivity.
Qed.

Lemma determine_lr_returns (w : world proc) :
  0 <= iter_num (vars w) ->
  exists w' lr, determine_lr c w = (w', Ok lr).
Proof.
  intros Hi. destruct run_ok as (_ & _ & Hdecay & _).
  unfold determine_lr. destruct (decay_lr c); [| unfold ret; eauto].
  unfold bind, get_vars, lift, modify_vars, ret. cbn [fst snd].
  destruct (get_lr_returns c (iter_num (vars w)) Hi (Hdecay eq_refl))
    as [lr ->].
  eauto.
Qed.

Lemma train_step_returns (w : world proc) :
  exists w', train_step c env w = (w', Ok tt).
Proof.
  destruct run_ok as (_ & Hlog & _).
  unfold train_step. unfold bind at 1.
  destruct (get_batch_returns "train" w (or_introl eq_refl))
    as (w1 & b & ->).
  unfold bind at 1.
  destruct (model_call_returns b.1 b.2 w1) as (w2 & l & ->).
  unfold bind, emit, modify_vars, get_vars, lift, py_mod, when, ret.
  cbn [fst snd files gen trace vars].
  destruct (Z.eqb_spec (log_interval c) 0); [contradiction |].
  destruct ((_ =? 0) && (gpu_id env =? 0)); eauto.
Qed.

(** Under the run conditions a turn of the loop completes. *)
Lemma loop_body_returns (w : world proc) :
  0 <= iter_num (vars w) ->
  exists w' b, loop_body c env w = (w', Ok b).
Proof.
  intros Hi. unfold loop_body. unfold bind at 1.
  destruct (determine_lr_returns w Hi) as (w1 & lr & ->).
  unfold bind at 1.
  destruct (eval_and_checkpoint_returns lr w1) as (w2 & ->).
  unfold bind at 1. unfold get_vars at 1. cbn [fst snd].
  destruct ((iter_num (vars w2) =? 0) && eval_only c);
    [unfold ret; eauto |].
  unfold bind at 1.
  destruct (train_step_returns w2) as (w3 & ->).
  unfold bind, get_vars, ret. cbn [fst snd]. eauto.
Qed.

End LoopReturns.

(** ** The loop as a whole *)

Section LoopRuns.

Context `{Collaborators}.


Lemma training_loop_total_aux (c : config) (env : environment) (n : nat) :
  forall w : world proc,
    (Z.to_nat (max_iters c - iter_num (vars w)) <= n)%nat ->
    exists r, training_loop c env (S n) w = Some r.
Proof.
  induction n as [| n IH]; intros w Hn; cbn [training_loop];
    destruct (loop_body c env w) as [w1 [[|] | e]] eqn:Hbody; eauto;
    apply loop_body_cases in Hbody;
    destruct ((iter_num (vars w) =? 0) && eval_only c);
    destruct Hbody as [Hb Hi]; try discriminate;
    symmetry in Hi; rewrite Z.geb_leb in Hi; apply Z.leb_gt in Hi.
  - lia.
  - apply IH. lia.
Qed.

(** The loop terminates from every state, whatever happens in it: the fuel
    computed from the state always reaches a [break] or an exception. *)
Lemma training_loop_total (c : config) (env : environment) (w : world proc) :
  exists r, training_loop c env (loop_fuel c w) w = Some r.
Proof. apply training_loop_total_aux. lia. Qed.


Lemma training_loop_exit_aux (c : config) (env : environment) (n : nat) :
  randint_in_range -> forward_returns -> loop_ok c env ->
  forall w : world proc,
    (Z.to_nat (max_iters c - iter_num (vars w)) <= n)%nat ->
    0 <= iter_num (vars w) ->
    eval_only c = false \/ iter_num (vars w) <> 0 ->
    exists w',
      training_loop c env (S n) w = Some (w', Ok tt) /\
      iter_num (vars w') = Z.max (iter_num (vars w) + 1) (max_iters c).
Proof.
  intros Hrand Hfwd Hok.
  induction n as [| n IH]; intros w Hn Hi Hnot; cbn [training_loop];
    destruct (loop_body_returns Hrand Hfwd c env Hok w Hi)
      as (w1 & b & Hbody);
    rewrite Hbody; apply loop_body_cases in Hbody;
    (destruct ((iter_num (vars w) =? 0) && eval_only c) eqn:Hcond;
     [apply andb_true_iff in Hcond as [Hz He];
      apply Z.eqb_eq in Hz; destruct Hnot; congruence |]);
    destruct Hbody as [Hi1 Hb];
    destruct (Z.geb_spec (iter_num (vars w1)) (max_iters c)) as [Hge | Hlt];
    subst b.
  - exists w1. split; [reflexivity | lia].
  - lia.
  - exists w1. split; [reflexivity | lia].
  - destruct (IH w1) as (w' & Hrun & Hi'); [lia | lia | right; lia |].
    exists w'. split; [exact Hrun | lia].
Qed.

End LoopRuns.

(** ** The whole run *)

Section WholeRun.

Context `{Collaborators}.

Lemma respects_new_gpt {P : Type} (Q : event -> Prop)
  (R : relation (gmap string checkpoint * P)) (c : config) :
  Reflexive R -> respects Q R (new_gpt (P := P) c).
Proof.
  intros HR w. split; [apply HR |].
  exists []. split; [reflexivity | constructor].
Qed.

Lemma respects_from_pretrained {P : Type} (Q : event -> Prop)
  (R : relation (gmap string checkpoint * P)) (name : string) :
  Reflexive R -> respects Q R (from_pretrained (P := P) name).
Proof.
  intros HR w. unfold from_pretrained.
  destruct (gpt_from_pretrained name (gen w)).1 as [[wts bs] | e];
    (split; [apply HR | exists []; split; [reflexivity | constructor]]).
Qed.

(** Whatever its outcome, model construction emits startup events only and
    leaves the files alone. *)
Lemma respects_model_init (c : config) (env : environment) :
  respects (startup_event c env) same_files (model_init c).
Proof.
  assert (HR : Reflexive (same_files (P := unit))) by (intros a; reflexivity).
  assert (HT : Transitive (same_files (P := unit))).
  { intros a b d Hab Hbd. unfold same_files in *. congruence. }
  unfold model_init.
  apply respects_bind; [exact HT | |].
  - unfold build_model.
    destruct (String.eqb (init_from c) "scratch").
    { apply respects_bind;
        [exact HT | apply respects_emit; [exact HR | exact I] |].
      intros _. apply respects_bind;
        [exact HT | apply respects_new_gpt, HR |].
      intros m. apply respects_ret, HR. }
    destruct (String.eqb (init_from c) "resume").
    { apply respects_bind;
        [exact HT | apply respects_emit; [exact HR | exact I] |].
      intros _. apply respects_bind;
        [exact HT | apply respects_torch_load; [exact HR | reflexivity] |].
      intros ck. apply respects_bind;
        [exact HT | apply respects_lift, HR |].
      intros _. apply respects_bind;
        [exact HT | apply respects_new_gpt, HR |].
      intros m. apply respects_ret, HR. }
    destruct (String.prefix "gpt2" (init_from c)).
    { apply respects_bind;
        [exact HT | apply respects_emit; [exact HR | exact I] |].
      intros _. apply respects_bind;
        [exact HT | apply respects_from_pretrained, HR |].
      intros m. apply respects_ret, HR. }
    apply respects_raise, HR.
  - intros [[[m it] best] ck].
    apply respects_bind; [exact HT | | intros _; apply respects_ret, HR].
    apply respects_when; [exact HR |]. intros _.
    apply respects_emit; [exact HR | exact I].
Qed.

(** Whatever its outcome, the loop emits loop events only. *)
Lemma training_loop_evolves (c : config) (env : environment) (n : nat) :
  forall (w w' : world proc) (o : outcome unit),
    training_loop c env n w = Some (w', o) ->
    evolves (loop_event c env) any_store w w'.
Proof.
  induction n as [| n IH]; intros w w' o Hrun; [discriminate |].
  cbn [training_loop] in Hrun.
  pose proof (respects_loop_body c env w) as Hbody.
  destruct (loop_body c env w) as [w1 [[|] | e]]; cbn [fst] in Hbody.
  - injection Hrun as <- <-. exact Hbody.
  - eapply evolves_trans; [apply any_store_trans | exact Hbody |].
    eapply IH. exact Hrun.
  - injection Hrun as <- <-. exact Hbody.
Qed.

(** The trace of a run: the events of lines 96-106, then startup events of
    model construction and wandb setup, then loop events, then the teardown
    when the loop was left by a [break]. *)
Lemma train_main_trace (c : config) (env : environment) (w0 : world unit)
  (w : world (option proc)) (o : outcome unit) :
  train_main c env w0 = Some (w, o) ->
  exists ll li,
    trace w =
      (if is_ok o then [EvDestroyProcessGroup] else []) ++ ll ++ li ++
      trace (startup c env w0).1 /\
    Forall (loop_event c env) ll /\
    Forall (startup_event c env) li.
Proof.
  unfold train_main. unfold bind at 1.
  rewrite startup_run. cbn [fst].
  match goal with
  | |- context [model_init c ?w1] =>
      pose proof (respects_model_init c env w1) as Hinit;
      destruct (model_init c w1) as [w2 [p | e]]
  end; cbn [fst] in Hinit; destruct Hinit as [_ (li & Eli & Fli)].
  - unfold run_from_init. rewrite wandb_setup_run.
    match goal with
    | |- context [training_loop c env ?n ?w3] =>
        destruct (training_loop c env n w3) as [[w4 o4] |] eqn:Hloop;
        [apply training_loop_evolves in Hloop | discriminate]
    end.
    destruct Hloop as [_ (ll & Ell & Fll)].
    cbn [trace with_vars] in Ell.
    assert (Fw : Forall (startup_event c env)
                   ((if wandb_log c && (gpu_id env =? 0)
                     then [EvWandbInit] else []) ++ li)).
    { apply Forall_app. split; [| exact Fli].
      destruct (wandb_log c) eqn:Hw; cbn [andb]; [| constructor].
      destruct (Z.eqb_spec (gpu_id env) 0); repeat constructor; auto. }
    destruct o4 as [[] | e]; intros E; injection E as <- <-;
      eexists ll, _; (split; [| split; [exact Fll | exact Fw]]);
      cbn [trace with_vars emit fst is_ok app]; rewrite Ell, Eli;
      rewrite <- !app_assoc; reflexivity.
  - intros E. injection E as <- <-. exists [], li.
    split; [| split; [constructor | exact Fli]].
    cbn [trace with_vars is_ok app]. exact Eli.
Qed.

(** A run always ends: by a [break] or by an exception. *)
Lemma train_main_total (c : config) (env : environment) (w0 : world unit) :
  exists r, train_main c env w0 = Some r.
Proof.
  unfold train_main.
  destruct ((startup c env;; model_init c) w0) as [w1 [p | e]]; [| eauto].
  unfold run_from_init. rewrite wandb_setup_run.
  match goal with
  | |- context [training_loop c env ?n ?w3] =>
      destruct (training_loop_total c env w3) as [[w4 [[] | e]] Hloop]
  end; unfold loop_fuel in *; cbn [vars] in *; rewrite Hloop; eauto.
Qed.


(** Model construction from scratch. *)
Lemma model_init_scratch (c : config) (w : world unit) :
  init_from c = "scratch"%string ->
  model_init c w =
  (World (files w) (gpt_new (model_args c) (gen w)).2
         ((if compile_model c then [EvPrint MsgCompiling] else []) ++
          EvPrint MsgInitScratch :: trace w)
         tt,
   Ok (Proc (Model (gpt_new (model_args c) (gen w)).1 (block_size c) true)
            (configure_optimizers c (gpt_new (model_args c) (gen w)).1)
            0 loss_1e9)).
Proof.
  intros Hinit. destruct w as [fs g tr []].
  unfold model_init, build_model, bind. rewrite Hinit.
  cbn [String.eqb Ascii.eqb Bool.eqb].
  unfold emit, new_gpt, ret, when.
  cbn [fst snd files gen trace vars].
  unfold crop_model, build_optimizer.
  cbn [m_block_size m_weights m_training]. rewrite Z.ltb_irrefl, Hinit.
  cbn [String.eqb Ascii.eqb Bool.eqb].
  destruct (compile_model c); reflexivity.
Qed.






(** The events of lines 96-106, newest first. *)
Lemma startup_events (c : config) (env : environment) (w0 : world unit) :
  exists ls,
    trace (startup c env w0).1 = ls ++ trace w0 /\
    Forall (startup_event c env) ls /\
    (ddp env = true <-> Exists is_group_init ls).
Proof.
  rewrite startup_run. cbn [fst trace].
  exists (EvManualSeed (1337 + gpu_id env) ::
          (if gpu_id env =? 0 then [EvMakeDirs (out_dir c)] else []) ++
          (if ddp env then [EvInitProcessGroup (backend c)] else [])).
  split; [cbn [app]; rewrite <- app_assoc; reflexivity |]. split.
  - constructor; [reflexivity |].
    apply Forall_app. split.
    + destruct (Z.eqb_spec (gpu_id env) 0); repeat constructor; auto.
    + destruct (ddp env) eqn:Hd; repeat constructor; auto.
  - rewrite Exists_cons, Exists_app. split.
    + intros ->. right. right. constructor. exact I.
    + intros [Hf | [Hm | Hd]]; [destruct Hf | |].
      * destruct (gpu_id env =? 0); [| inversion Hm].
        apply Exists_cons in Hm as [Hf | Hn]; [destruct Hf | inversion Hn].
      * destruct (ddp env); [reflexivity | inversion Hd].
Qed.


Lemma loop_event_classes (c : config) (env : environment) (e : event) :
  loop_event c env e ->
  ~ is_teardown e /\ ~ is_group_init e /\
  (gpu_id env <> 0 -> ~ primary_only e /\ ~ is_print e).
Proof.
  destruct e as [| | | m | | | | | | | | | | | |]; try destruct m;
    simpl; intros He; repeat split; try tauto.
Qed.

Lemma startup_event_classes (c : config) (env : environment) (e : event) :
  startup_event c env e ->
  ~ is_teardown e /\ ~ is_save e /\ ~ training_event e /\
  (is_group_init e -> ddp env = true) /\
  (gpu_id env <> 0 -> ~ primary_only e /\ (is_print e -> is_announcement e)).
Proof.
  destruct e as [| | | m | | | | | | | | | | | |]; try destruct m;
    simpl; intros He; repeat split; try tauto.
Qed.



(** C1, as amended.  A run always ends, and on a worker whose rank is not
    zero none of its events is a directory creation, a checkpoint write, a
    wandb call or a console line of the loop (evaluation or training
    progress); the only console output of such a worker is the unguarded
    announcements of model construction. *)
Theorem nonprimary_side_effects (c : config) (env : environment)
  (w0 : world unit) :
  gpu_id env <> 0 ->
  match train_main c env w0 with
  | None => False
  | Some (w, _) =>
      exists l,
        trace w = l ++ trace w0 /\
        Forall (fun e => ~ primary_only e /\
                         (is_print e -> is_announcement e)) l
  end.
Proof.
  intros Hg.
  destruct (train_main_total c env w0) as [[w o] Hrun]. rewrite Hrun.
  destruct (train_main_trace c env w0 w o Hrun) as (ll & li & Ht & Fll & Fli).
  destruct (startup_events c env w0) as (ls & Els & Fls & _).
  exists ((if is_ok o then [EvDestroyProcessGroup] else []) ++
          ll ++ li ++ ls).
  split; [rewrite Ht, Els, <- !app_assoc; reflexivity |].
  rewrite !Forall_app. repeat split.
  - destruct (is_ok o); repeat constructor; simpl; tauto.
  - eapply Forall_impl; [exact Fll |]. intros e He.
    destruct (loop_event_classes c env e He) as (_ & _ & Hn).
    destruct (Hn Hg). tauto.
  - eapply Forall_impl; [exact Fli |]. intros e He.
    apply (startup_event_classes c env e He), Hg.
  - eapply Forall_impl; [exact Fls |]. intros e He.
    apply (startup_event_classes c env e He), Hg.
Qed.


End WholeRun.

(** * The properties on the small instance *)

Lemma toy_forward_returns : forward_returns.
Proof. intros wts training X Y. simpl. eauto. Qed.

Lemma small_loop_ok (rank : option Z) :
  loop_ok small_config (small_env rank).
Proof. repeat split; simpl; try lia; discriminate. Qed.


(** The block at iteration 2 of the small instance: the evaluation returns
    97 against a best loss of 99, and the checkpoint lands in
    [out/ckpt.pt]. *)
Lemma checkpoint_written_at_2 :
  exists w' ck,
    eval_and_checkpoint small_config (small_env None) 1%R world_at_2 =
      (w', Ok tt) /\
    files w' !! "out/ckpt.pt"%string = Some ck /\
    ck_iter_num ck = 2 /\ ck_best_val_loss ck = 97.
Proof.
  destruct (eval_and_checkpoint_returns toy_randint_in_range
              toy_forward_returns small_config (small_env None)
              (small_loop_ok None) 1%R world_at_2) as (w' & Hrun).
  destruct (checkpoint_written_iff small_config (small_env None) 1%R
              world_at_2 w' Hrun) as (l & Htr & Hiff & Hck & _).
  assert (Hest0 : (estimate_loss small_config (small_env None) world_at_2).2 =
                  Ok (97, 97)) by (vm_compute; reflexivity).
  assert (Hsave : exists path ck, In (EvTorchSave path ck) l).
  { apply Hiff. split; [reflexivity |]. split; [reflexivity |].
    split; [| simpl; lia].
    destruct (estimate_loss small_config (small_env None) world_at_2)
      as [w1 o1]. cbn [snd] in Hest0. subst o1.
    exists w1, 97, 97. split; reflexivity. }
  destruct Hsave as (path & ck & Hin).
  destruct (Hck path ck Hin)
    as (_ & _ & _ & _ & Hi & _ & (w1 & lt & Hest) & _ & Hfile & _).
  exists w', ck. split; [exact Hrun |]. split; [exact Hfile |].
  split; [exact Hi |].
  rewrite Hest in Hest0. cbn [snd] in Hest0. congruence.
Defined.




(** Rank 1 of the small instance: none of its events is reserved to the
    primary. *)
Lemma nonprimary_side_effects_rank_1 :
  gpu_id (small_env (Some 1)) <> 0 /\
  match train_main small_config (small_env (Some 1)) empty_world with
  | None => False
  | Some (w, _) =>
      exists l,
        trace w = l ++ trace empty_world /\
        Forall (fun e => ~ primary_only e /\
                         (is_print e -> is_announcement e)) l
  end.
Proof.
  assert (Hg : gpu_id (small_env (Some 1)) <> 0)
    by (intros E; vm_compute in E; discriminate E).
  split; [exact Hg |].
  exact (nonprimary_side_effects small_config (small_env (Some 1))
           empty_world Hg).
Defined.

(** C1 as stated fails for console output: rank 1 prints the announcements
    of model construction, which lines 130 and 162 do not guard. *)
Lemma rank_1_prints_announcements :
  gpu_id (small_env (Some 1)) = 1 /\
  run_history small_config (small_env (Some 1)) empty_world =
    Some ([EvInitProcessGroup "nccl"; EvManualSeed 1338;
           EvPrint MsgInitScratch; EvPrint MsgCompiling;
           EvGetBatch "train"; EvForward true;
           EvZeroGrad; EvBackward; EvOptimizerStep;
           EvGetBatch "train"; EvForward true;
           EvZeroGrad; EvBackward; EvOptimizerStep;
           EvGetBatch "train"; EvForward true;
           EvZeroGrad; EvBackward; EvOptimizerStep;
           EvDestroyProcessGroup], Ok tt) /\
  is_print (EvPrint MsgInitScratch) /\
  is_print (EvPrint MsgCompiling).
Proof.
  split; [reflexivity |]. split; [vm_compute; reflexivity |].
  split; exact I.
Qed.

(** The two exits of the small instance, not distributed: three turns up to
    [max_iters], and the eval-only [break]; each ends with the teardown. *)
Example teardown_small_runs :
  ddp (small_env None) = false /\
  match train_main small_config (small_env None) empty_world with
  | Some (w, o) => (head (trace w), length (trace w), o)
  | None => (None, 0%nat, Ok tt)
  end = (Some EvDestroyProcessGroup, 46%nat, Ok tt) /\
  run_history eval_only_config (small_env None) empty_world =
    Some ([EvMakeDirs "out"; EvManualSeed 1337;
           EvPrint MsgInitScratch; EvPrint MsgCompiling;
           EvModelEval;
           EvGetBatch "train"; EvForward false;
           EvGetBatch "train"; EvForward false;
           EvGetBatch "val"; EvForward false;
           EvGetBatch "val"; EvForward false;
           EvModelTrain; EvPrint (MsgStep 0 99 99);
           EvDestroyProcessGroup], Ok tt).
Proof.
  split; [reflexivity |]. split; vm_compute; reflexivity.
Qed.

(** C8 as stated fails for a hyperparameter that only the checkpoint holds:
    the stored [vocab_size], which the run does not request, is compared
    with nothing, and the resume goes through. *)
Lemma resume_ignores_stored_vocab_size :
  init_from (small_config_with "resume" 3) = "resume"%string /\
  files world_with_vocab_ckpt !! ckpt_path (small_config_with "resume" 3) =
    Some ckpt_40_vocab /\
  ck_model_args ckpt_40_vocab !! "vocab_size"%string = Some (HInt 50257) /\
  Forall (fun kv => kv.1 <> "vocab_size"%string)
         (model_args (small_config_with "resume" 3)) /\
  ((startup (small_config_with "resume" 3) (small_env None) ;;
    model_init (small_config_with "resume" 3)) world_with_vocab_ckpt).2 =
    Ok (Proc (Model 5 3 true) 7 40 12).
Proof.
  split; [reflexivity |]. split; [vm_compute; reflexivity |].
  split; [vm_compute; reflexivity |].
  split; [repeat constructor; discriminate |].
  vm_compute. reflexivity.
Qed.

(** * Further properties of the code *)

(** ** The schedule: failures, range, monotonicity *)

Section ScheduleShape.

#[local] Open Scope R_scope.

Lemma py_truediv_zero (a b : R) :
  b = 0 -> py_truediv a b = Raise ZeroDivisionError.
Proof.
  intros Hb. unfold py_truediv.
  destruct (Req_dec_T b 0) as [_ | N]; [reflexivity | contradiction].
Qed.

(** The ways [get_lr] can go: a division by zero, in the warmup branch when
    [warmup_iters] is 0 or in the cosine branch when the iteration, the
    warmup and the decay horizon coincide; a rate otherwise. *)
Lemma get_lr_cases (c : config) (i : Z) :
  (get_lr c i = Raise ZeroDivisionError /\
   ((i < warmup_iters c /\ warmup_iters c = 0)%Z \/
    (i = warmup_iters c /\ warmup_iters c = lr_decay_iters c)%Z)) \/
  ((exists lr, get_lr c i = Ok lr) /\
   ~ ((i < warmup_iters c /\ warmup_iters c = 0)%Z \/
      (i = warmup_iters c /\ warmup_iters c = lr_decay_iters c)%Z)).
Proof.
  destruct (Z.lt_ge_cases i (warmup_iters c)) as [Hw | Hw].
  - destruct (Z.eq_dec (warmup_iters c) 0%Z) as [Hz | Hz].
    + left. split; [| left; lia]. unfold get_lr.
      destruct (Z.ltb_spec i (warmup_iters c)) as [_ | ?]; [| lia].
      apply py_truediv_zero. rewrite Hz. reflexivity.
    + right. split; [eexists; apply get_lr_warmup; assumption | lia].
  - destruct (Z.le_gt_cases i (lr_decay_iters c)) as [Hd | Hd].
    + destruct (Z.eq_dec (warmup_iters c) (lr_decay_iters c)) as [Heq | Hne].
      * left. split; [| right; lia]. unfold get_lr.
        destruct (Z.ltb_spec i (warmup_iters c)) as [? | _]; [lia |].
        destruct (Z.gtb_spec i (lr_decay_iters c)) as [? | _]; [lia |].
        rewrite py_truediv_zero; [reflexivity |].
        rewrite Heq, Z.sub_diag. reflexivity.
      * right. split; [eexists; apply get_lr_cosine; lia | lia].
    + right. split; [eexists; apply get_lr_after_decay; lia | lia].
Qed.

Lemma get_lr_raise_kind (c : config) (i : Z) (e : exn) :
  get_lr c i = Raise e -> e = ZeroDivisionError.
Proof.
  intros E.
  destruct (get_lr_cases c i) as [[E' _] | [[lr E'] _]];
    rewrite E' in E; [injection E as <-; reflexivity | discriminate].
Qed.








End ScheduleShape.

(** ** The sampler: failures and where the tokens come from *)

Section SamplerEdges.

Context `{Collaborators}.

Lemma torch_stack_result (rows r : list (list Z)) :
  torch_stack rows = Ok r -> r = rows /\ rows <> [].
Proof.
  destruct rows as [| r0 rest]; simpl; [discriminate |].
  destruct (forallb _ rest); [| discriminate].
  intros E. injection E as <-. split; [reflexivity | discriminate].
Qed.

Lemma torch_stack_raises (rows : list (list Z)) (e : exn) :
  torch_stack rows = Raise e -> e = RuntimeError.
Proof.
  destruct rows as [| r0 rest]; simpl.
  - intros E. injection E as <-. reflexivity.
  - destruct (forallb _ rest); [discriminate |].
    intros E. injection E as <-. reflexivity.
Qed.

(** A call of the sampler, whatever its outcome: one event, files and
    variables untouched, [RuntimeError] as the only exception, and rows
    that are slices of the split at the drawn offsets. *)
Lemma get_batch_outcome {P : Type} (c : config) (env : environment)
  (split : string) (w w' : world P)
  (o : outcome (list (list Z) * list (list Z))) :
  get_batch c env split w = (w', o) ->
  trace w' = EvGetBatch split :: trace w /\
  files w' = files w /\ vars w' = vars w /\
  match o with
  | Raise e => e = RuntimeError
  | Ok (x, y) =>
      exists ix,
        x = map (fun i => py_slice (split_data env split) i
                                   (i + block_size c)) ix /\
        y = map (fun i => py_slice (split_data env split) (i + 1)
                                   (i + 1 + block_size c)) ix
  end.
Proof.
  unfold get_batch, bind, emit, torch_randint, lift, ret.
  cbn [fst snd files gen trace vars].
  destruct ((_ <=? 0) || (batch_size c <? 0)).
  { intros E. injection E as <- <-. auto. }
  cbn [fst snd files gen trace vars].
  match goal with
  | |- context [torch_stack ?rows] =>
      destruct (torch_stack rows) as [x | e] eqn:Hx
  end.
  2: { intros E. injection E as <- <-. cbn [trace files vars].
       repeat split. eapply torch_stack_raises, Hx. }
  apply torch_stack_result in Hx as [-> _].
  match goal with
  | |- context [torch_stack ?rows] =>
      destruct (torch_stack rows) as [y | e] eqn:Hy
  end.
  2: { intros E. injection E as <- <-. cbn [trace files vars].
       repeat split. eapply torch_stack_raises, Hy. }
  apply torch_stack_result in Hy as [-> _].
  intros E. injection E as <- <-. cbn [trace files vars].
  repeat split. eexists. split; reflexivity.
Qed.

Lemma py_slice_subseteq {A : Type} (data : list A) (lo hi : Z) :
  py_slice data lo hi ⊆ data.
Proof.
  unfold py_slice. etransitivity; [apply subseteq_take | apply subseteq_drop].
Qed.

(** X4.  For a window length that is not negative, the sampler returns a
    batch exactly when at least one row is asked for and the split is longer
    than one window; otherwise it raises [RuntimeError].  Either way it
    records one call and leaves files and variables alone. *)
Theorem get_batch_returns_iff {P : Type} (c : config) (env : environment)
  (split : string) (w : world P) :
  randint_in_range -> 0 <= block_size c ->
  (sampler_ok c (split_data env split) ->
   exists b, (get_batch c env split w).2 = Ok b) /\
  (~ sampler_ok c (split_data env split) ->
   (get_batch c env split w).2 = Raise RuntimeError) /\
  trace (get_batch c env split w).1 = EvGetBatch split :: trace w /\
  files (get_batch c env split w).1 = files w /\
  vars (get_batch c env split w).1 = vars w.
Proof.
  intros Hrand HL.
  destruct (get_batch c env split w) as [w' o] eqn:Hrun.
  destruct (get_batch_outcome c env split w w' o Hrun)
    as (Ht & Hf & Hv & Ho).
  cbn [fst snd]. split; [| split; [| auto]].
  - intros Hok. rewrite (get_batch_ok c env split w Hrand Hok) in Hrun.
    injection Hrun as _ <-. eauto.
  - intros Hbad. destruct o as [[x y] | e]; [exfalso | congruence].
    apply Hbad. clear Ho Ht Hf Hv.
    revert Hrun. unfold get_batch, bind, emit, torch_randint, lift, ret.
    cbn [fst snd files gen trace vars].
    set (data := split_data env split).
    destruct (Z.leb_spec (Z.of_nat (length data) - block_size c) 0)
      as [? | Hhigh]; [discriminate |].
    destruct (Z.ltb_spec (batch_size c) 0) as [? | HB]; [discriminate |].
    cbn [orb fst snd files gen trace vars].
    destruct (Hrand (gen w) (Z.of_nat (length data) - block_size c)
                    (Z.to_nat (batch_size c)) Hhigh) as [Hlen _].
    match goal with
    | |- context [torch_stack ?rows] =>
        destruct (torch_stack rows) as [x' | e] eqn:Hx; [| discriminate]
    end.
    apply torch_stack_result in Hx as [_ Hne]. intros _.
    split; [| lia].
    destruct (Z.eq_dec (batch_size c) 0) as [Hz | Hz]; [| lia].
    exfalso. apply Hne. rewrite Hz in Hlen. simpl in Hlen.
    apply nil_length_inv in Hlen. rewrite Hz. simpl. rewrite Hlen.
    reflexivity.
Qed.

(** X5.  Every token of a batch, input or target, is a token of the split
    it was drawn from: the sampler copies and never invents. *)
Theorem get_batch_tokens_from_split {P : Type} (c : config)
  (env : environment) (split : string) (w : world P) :
  match (get_batch c env split w).2 with
  | Ok (x, y) =>
      Forall (fun row => row ⊆ split_data env split) x /\
      Forall (fun row => row ⊆ split_data env split) y
  | Raise _ => True
  end.
Proof.
  destruct (get_batch c env split w) as [w' o] eqn:Hrun.
  destruct (get_batch_outcome c env split w w' o Hrun) as (_ & _ & _ & Ho).
  cbn [snd]. destruct o as [[x y] | e]; [| exact I].
  destruct Ho as (ix & -> & ->).
  split; apply Forall_map, Forall_forall; intros i _; apply py_slice_subseteq.
Qed.

End SamplerEdges.

(** ** The evaluation runner: what it leaves alone and what it reports *)

Section EvaluationShape.

Context `{Collaborators}.

(** X6.  An evaluation pass, whether it returns or raises, changes no
    checkpoint file and none of the weights, the optimizer state, the
    iteration counter and the best validation loss; when it returns and the
    model was in training mode, all variables are exactly what they were. *)
Theorem estimate_loss_preserves (c : config) (env : environment)
  (w : world proc) :
  files (estimate_loss c env w).1 = files w /\
  m_weights (model (vars (estimate_loss c env w).1)) =
    m_weights (model (vars w)) /\
  optimizer (vars (estimate_loss c env w).1) = optimizer (vars w) /\
  iter_num (vars (estimate_loss c env w).1) = iter_num (vars w) /\
  best_val_loss (vars (estimate_loss c env w).1) = best_val_loss (vars w) /\
  (is_ok (estimate_loss c env w).2 = true ->
   m_training (model (vars w)) = true ->
   vars (estimate_loss c env w).1 = vars w).
Proof.
  destruct (estimate_loss c env w) as [w' o] eqn:E.
  destruct (estimate_loss_shape c env w w' o E) as (l & _ & Hf & Hcase).
  cbn [fst snd].
  assert (Hv : exists b, vars w' =
                set_model (set_training b (model (vars w))) (vars w)).
  { destruct o; destruct Hcase as [_ ->]; eauto. }
  destruct Hv as [b Hv]. rewrite Hv.
  repeat (split; [reflexivity || exact Hf |]).
  intros Hok Hmode. destruct o as [r | e]; [| discriminate].
  destruct Hcase as [_ Hv']. rewrite <- Hv, Hv'.
  destruct (vars w) as [[wts bs tr] o' it best].
  simpl in *. subst tr. reflexivity.
Qed.

Lemma batch_events_snoc (split : string) (n : nat) :
  batch_events split (S n) =
  batch_events split n ++ [EvForward false; EvGetBatch split].
Proof.
  unfold batch_events. induction n as [| n IH]; [reflexivity |].
  change (concat (replicate (S (S n)) [EvForward false; EvGetBatch split]))
    with ([EvForward false; EvGetBatch split] ++
          concat (replicate (S n) [EvForward false; EvGetBatch split])).
  rewrite IH at 1. reflexivity.
Qed.

Lemma model_call_outcome (X Y : list (list Z)) (w w' : world proc)
  (o : outcome loss) :
  model_call X Y w = (w', o) ->
  trace w' = EvForward (m_training (model (vars w))) :: trace w /\
  files w' = files w /\ vars w' = vars w /\
  o = forward (m_weights (model (vars w))) (m_training (model (vars w))) X Y.
Proof.
  unfold model_call, bind, get_vars, emit, lift. cbn [fst snd].
  intros E. injection E as <- <-. auto.
Qed.

(** The batches of one split that all go through, in eval mode: the events
    are one draw and one forward pass per index, the losses list keeps its
    length, the slots of the indices hold outputs of the model and the other
    slots are unchanged. *)
Lemma eval_batches_fills (c : config) (env : environment) (split : string)
  (n : nat) :
  forall (s : nat) (losses : list loss) (w w' : world proc)
         (ls : list loss),
    m_training (model (vars w)) = false ->
    eval_batches c env split (seq s n) losses w = (w', Ok ls) ->
    trace w' = batch_events split n ++ trace w /\
    vars w' = vars w /\
    length ls = length losses /\
    forall k,
      (k < length losses)%nat ->
      ((s <= k < s + n)%nat ->
       exists l, ls !! k = Some l /\
                 eval_output (m_weights (model (vars w))) l) /\
      (~ (s <= k < s + n)%nat -> ls !! k = losses !! k).
Proof.
  induction n as [| n IH]; intros s losses w w' ls Hmode;
    cbn [seq eval_batches].
  - unfold ret. intros E. injection E as <- <-.
    repeat split; try reflexivity; intros; lia.
  - unfold bind.
    destruct (get_batch c env split w) as [w1 [b | e]] eqn:Hb;
      [| discriminate].
    apply get_batch_outcome in Hb as (Ht1 & _ & Hv1 & _).
    destruct (model_call b.1 b.2 w1) as [w2 [l | e]] eqn:Hc;
      [| discriminate].
    apply model_call_outcome in Hc as (Ht2 & _ & Hv2 & Hl).
    rewrite Hv1, Hmode in Ht2, Hl. intros Hrest.
    apply IH in Hrest as (Ht & Hv & Hlen & Hslots);
      [| rewrite Hv2, Hv1; exact Hmode].
    rewrite length_insert in Hlen, Hslots.
    split; [| split; [congruence | split; [exact Hlen |]]].
    + rewrite Ht, Ht2, Ht1, batch_events_snoc, <- app_assoc. reflexivity.
    + intros k Hk. destruct (Hslots k Hk) as [Hin Hout].
      rewrite Hv2, Hv1 in Hin. split.
      * intros Hrange. destruct (Nat.eq_dec k s) as [-> | Hne].
        -- exists l. split.
           ++ rewrite Hout by lia. apply list_lookup_insert_eq. exact Hk.
           ++ eexists _, _. symmetry. exact Hl.
        -- apply Hin. lia.
      * intros Hrange. rewrite Hout by lia.
        apply list_lookup_insert_ne. lia.
Qed.

(** One split of a pass that goes through: [eval_iters] batches, and the
    mean of as many outputs of the model. *)
Lemma eval_split_reports (c : config) (env : environment) (split : string)
  (w w' : world proc) (l : loss) :
  m_training (model (vars w)) = false ->
  eval_split c env split w = (w', Ok l) ->
  trace w' = batch_events split (Z.to_nat (eval_iters c)) ++ trace w /\
  vars w' = vars w /\
  exists ls,
    l = loss_mean ls /\
    length ls = Z.to_nat (eval_iters c) /\
    Forall (eval_output (m_weights (model (vars w)))) ls.
Proof.
  intros Hmode. unfold eval_split, bind, lift, torch_zeros, ret.
  destruct (eval_iters c <? 0); [discriminate |]. cbn [fst snd].
  unfold py_range.
  destruct (eval_batches c env split (seq 0 (Z.to_nat (eval_iters c)))
              (replicate (Z.to_nat (eval_iters c)) loss_zero) w)
    as [w1 [ls | e]] eqn:Hb; [| discriminate].
  intros E. injection E as <- <-.
  apply eval_batches_fills in Hb as (Ht & Hv & Hlen & Hslots);
    [| exact Hmode].
  rewrite length_replicate in Hlen, Hslots.
  split; [exact Ht |]. split; [exact Hv |].
  exists ls. split; [reflexivity |]. split; [exact Hlen |].
  apply Forall_lookup. intros k x Hk.
  assert (Hlt : (k < Z.to_nat (eval_iters c))%nat).
  { rewrite <- Hlen. eapply lookup_lt_Some, Hk. }
  destruct (Hslots k Hlt) as [Hin _].
  destruct Hin as (l & Hl & Hout); [lia |]. congruence.
Qed.

(** X7.  An evaluation pass that returns has drawn exactly [eval_iters]
    batches of the train split and then [eval_iters] batches of the
    validation split, each followed by one forward pass in eval mode, between
    [model.eval()] and [model.train()]; and each of the two losses it
    returns is the mean of exactly [eval_iters] losses that the model
    computed in eval mode on its unchanged weights: no slot of the
    zero-initialised tensor survives. *)
Theorem estimate_loss_reports (c : config) (env : environment)
  (w w' : world proc) (lt lv : loss) :
  estimate_loss c env w = (w', Ok (lt, lv)) ->
  trace w' =
    EvModelTrain ::
    batch_events "val" (Z.to_nat (eval_iters c)) ++
    batch_events "train" (Z.to_nat (eval_iters c)) ++
    EvModelEval :: trace w /\
  exists ls_train ls_val,
    lt = loss_mean ls_train /\ lv = loss_mean ls_val /\
    length ls_train = Z.to_nat (eval_iters c) /\
    length ls_val = Z.to_nat (eval_iters c) /\
    Forall (eval_output (m_weights (model (vars w)))) ls_train /\
    Forall (eval_output (m_weights (model (vars w)))) ls_val.
Proof.
  unfold estimate_loss, bind, emit, modify_vars, ret.
  cbn [fst snd files gen trace vars].
  set (w0 := World (files w) (gen w) (EvModelEval :: trace w)
                   (set_model (set_training false (model (vars w))) (vars w))).
  destruct (eval_split c env "train" w0) as [w1 [l1 | e]] eqn:H1;
    [| discriminate].
  apply eval_split_reports in H1 as (Ht1 & Hv1 & ls1 & -> & Hn1 & F1);
    [| reflexivity].
  destruct (eval_split c env "val" w1) as [w2 [l2 | e]] eqn:H2;
    [| discriminate].
  apply eval_split_reports in H2 as (Ht2 & Hv2 & ls2 & -> & Hn2 & F2);
    [| rewrite Hv1; reflexivity].
  intros E. injection E as <- <- <-. cbn [trace].
  split; [rewrite Ht2, Ht1; reflexivity |].
  exists ls1, ls2. rewrite Hv1 in F2.
  repeat split; assumption.
Qed.

(** X8.  With [eval_iters = 0] an evaluation pass always returns, whatever
    the splits hold: it draws nothing and reports the mean of an empty
    tensor for both splits.  With a negative [eval_iters] it raises
    [RuntimeError] at [torch.zeros] before drawing anything, and the model
    stays in eval mode. *)
Theorem estimate_loss_no_batches (c : config) (env : environment)
  (w : world proc) :
  (eval_iters c = 0 ->
   estimate_loss c env w =
   (World (files w) (gen w) (EvModelTrain :: EvModelEval :: trace w)
          (set_model (set_training true (model (vars w))) (vars w)),
    Ok (loss_mean [], loss_mean []))) /\
  (eval_iters c < 0 ->
   estimate_loss c env w =
   (World (files w) (gen w) (EvModelEval :: trace w)
          (set_model (set_training false (model (vars w))) (vars w)),
    Raise RuntimeError)).
Proof.
  split; intros Hk; unfold estimate_loss, eval_split, bind, emit,
    modify_vars, lift, torch_zeros, py_range, ret;
    cbn [fst snd files gen trace vars].
  - rewrite Hk. reflexivity.
  - destruct (Z.ltb_spec (eval_iters c) 0); [reflexivity | lia].
Qed.

End EvaluationShape.

(** ** Model construction: round trip and failures *)

Section InitEdges.

Context `{Collaborators}.




(** X10.  Resuming without a checkpoint file: the run stops with
    [FileNotFoundError] at [torch.load], after the startup events and the
    'Resuming' line, before a model exists; no file is touched and the
    teardown is not reached. *)
Theorem resume_without_checkpoint (c : config) (env : environment)
  (w0 : world unit) :
  init_from c = "resume"%string ->
  files w0 !! ckpt_path c = None ->
  train_main c env w0 =
  Some (World (files w0) (manual_seed (1337 + gpu_id env))
              (EvTorchLoad (ckpt_path c) ::
               EvPrint (MsgResuming (out_dir c)) ::
               trace (startup c env w0).1)
              None,
        Raise FileNotFoundError).
Proof.
  intros Hinit Hfile. unfold train_main. unfold bind at 1.
  rewrite startup_run. cbn [fst].
  unfold model_init, build_model, bind. rewrite Hinit.
  cbn [String.eqb Ascii.eqb Bool.eqb].
  unfold emit, torch_load.
  cbn [fst snd files gen trace vars]. rewrite Hfile. reflexivity.
Qed.

(** X11.  An [init_from] that is none of 'scratch', 'resume' and a name
    starting with 'gpt2' builds no model: the run stops with [NameError]
    where line 151 reads [model], having printed nothing after the startup
    events. *)
Theorem unknown_init_from (c : config) (env : environment)
  (w0 : world unit) :
  init_from c <> "scratch"%string ->
  init_from c <> "resume"%string ->
  String.prefix "gpt2" (init_from c) = false ->
  train_main c env w0 =
  Some (with_vars None (startup c env w0).1, Raise NameError).
Proof.
  intros Hs Hr Hg. unfold train_main. unfold bind at 1.
  destruct (startup c env w0) as [w1 o1] eqn:Hst.
  rewrite startup_run in Hst. injection Hst as <- <-. cbn [fst].
  unfold model_init, build_model, bind.
  apply String.eqb_neq in Hs, Hr. rewrite Hs, Hr, Hg. reflexivity.
Qed.

(** X12.  A model that construction returns is in training mode and its
    block size is the smaller of the configured [block_size] and the block
    size it was built with (a pretrained model is cropped, never grown);
    built from scratch or resumed, it has exactly the configured block size.
    Unless the run resumes, it starts at iteration 0 with the sentinel best
    loss and a fresh optimizer.  Construction writes no file. *)
Theorem model_init_result (c : config) (w w' : world unit) (p : proc) :
  model_init c w = (w', Ok p) ->
  m_training (model p) = true /\
  m_block_size (model p) <= block_size c /\
  (init_from c = "scratch"%string \/ init_from c = "resume"%string ->
   m_block_size (model p) = block_size c) /\
  (init_from c <> "resume"%string ->
   iter_num p = 0 /\ best_val_loss p = loss_1e9 /\
   optimizer p = configure_optimizers c (m_weights (model p))) /\
  files w' = files w.
Proof.
  destruct w as [fs g tr []].
  unfold model_init, build_model.
  destruct (String.eqb_spec (init_from c) "scratch") as [Hs | Hs].
  { unfold bind, emit, new_gpt, ret, when, crop_model, build_optimizer.
    cbn [fst snd files gen trace vars m_block_size m_weights m_training].
    rewrite Z.ltb_irrefl, Hs. cbn [String.eqb Ascii.eqb Bool.eqb].
    destruct (compile_model c); intros E; injection E as <- <-;
      cbn [model m_training m_block_size files iter_num best_val_loss
           optimizer m_weights];
      repeat split; auto; lia. }
  destruct (String.eqb_spec (init_from c) "resume") as [Hr | Hr].
  { unfold bind, emit, torch_load, lift, new_gpt, ret, when, crop_model,
      build_optimizer.
    cbn [fst snd files gen trace vars].
    destruct (fs !! ckpt_path c) as [ck |]; [| discriminate].
    destruct (check_model_args (ck_model_args ck) (model_args c))
      as [[] | e]; [| discriminate].
    cbn [fst snd files gen trace vars m_block_size m_weights m_training].
    rewrite Z.ltb_irrefl.
    destruct (compile_model c); intros E; injection E as <- <-;
      cbn [model m_training m_block_size files];
      repeat split; auto; try lia; contradiction. }
  destruct (String.prefix "gpt2" (init_from c)).
  2: { unfold bind, raise. discriminate. }
  unfold bind, emit, from_pretrained, ret, when, crop_model, build_optimizer.
  cbn [fst snd files gen trace vars].
  destruct (gpt_from_pretrained (init_from c) g).1 as [[wts bs] | e];
    [| discriminate].
  cbn [fst snd files gen trace vars m_block_size m_weights m_training].
  apply String.eqb_neq in Hr as Hr'. rewrite Hr'.
  destruct (Z.ltb_spec (block_size c) bs);
    destruct (compile_model c); intros E; injection E as <- <-;
    cbn [model m_training m_block_size files iter_num best_val_loss
         optimizer m_weights];
    repeat split; auto; try lia; intros [? | ?]; contradiction.
Qed.

End InitEdges.

(** ** The loop: what a turn does to files, counters and the trace *)

Section LoopEffects.

Context `{Collaborators}.

Lemma optimizer_steps_app (l1 l2 : list event) :
  optimizer_steps (l1 ++ l2) =
  (optimizer_steps l1 + optimizer_steps l2)%nat.
Proof.
  unfold optimizer_steps. rewrite List.filter_app. apply length_app.
Qed.

Lemma optimizer_steps_none (l : list event) :
  Forall (fun e => is_optimizer_step e = false) l ->
  optimizer_steps l = 0%nat.
Proof.
  intros F. induction F as [| e l He _ IH]; [reflexivity |].
  unfold optimizer_steps in *. cbn [List.filter]. rewrite He. exact IH.
Qed.

Lemma files_evolve_refl (c : config) (fs : gmap string checkpoint) :
  files_evolve c fs fs.
Proof. split; auto. Qed.

Lemma files_evolve_trans (c : config) (fs1 fs2 fs3 : gmap string checkpoint) :
  files_evolve c fs1 fs2 -> files_evolve c fs2 fs3 -> files_evolve c fs1 fs3.
Proof.
  intros [Ho1 Hc1] [Ho2 Hc2]. split.
  - intros path Hne. rewrite Ho2, Ho1 by assumption. reflexivity.
  - destruct Hc2 as [E2 | Hg2]; [| right; exact Hg2].
    rewrite E2. exact Hc1.
Qed.

Lemma files_evolve_save (c : config) (fs : gmap string checkpoint)
  (ck : checkpoint) :
  good_ckpt c ck -> files_evolve c fs (<[ckpt_path c := ck]> fs).
Proof.
  intros Hg. split.
  - intros path Hne. apply lookup_insert_ne. congruence.
  - right. exists ck. split; [apply lookup_insert_eq | exact Hg].
Qed.

(** The schedule step touches the optimizer only. *)
Lemma determine_lr_effect (c : config) (w w' : world proc) (o : outcome R) :
  determine_lr c w = (w', o) ->
  trace w' = trace w /\ files w' = files w /\
  iter_num (vars w') = iter_num (vars w) /\
  best_val_loss (vars w') = best_val_loss (vars w) /\
  model (vars w') = model (vars w).
Proof.
  unfold determine_lr. destruct (decay_lr c).
  - unfold bind, get_vars, lift, modify_vars, ret. cbn [fst snd].
    destruct (get_lr c (iter_num (vars w))) as [lr | e];
      intros E; injection E as <- <-; repeat split.
  - unfold ret. intros E. injection E as <- <-. repeat split.
Qed.

(** The evaluation and checkpoint block, whatever its outcome. *)
Lemma eval_and_checkpoint_effect (c : config) (env : environment) (lr : R)
  (w w' : world proc) (o : outcome unit) :
  eval_and_checkpoint c env lr w = (w', o) ->
  iter_num (vars w') = iter_num (vars w) /\
  m_weights (model (vars w')) = m_weights (model (vars w)) /\
  optimizer (vars w') = optimizer (vars w) /\
  (gpu_id env <> 0 -> w' = w) /\
  files_evolve c (files w) (files w') /\
  exists l,
    trace w' = l ++ trace w /\
    Forall (turn_event c) l /\
    optimizer_steps l = 0%nat.
Proof.
  intros Hrun.
  destruct (eval_and_checkpoint_cases c env lr w w' o Hrun)
    as [(_ & _ & ->) | [(_ & _ & _ & ->) | (Hz & Hmod & Hg & Hev)]].
  1, 2: repeat split; auto; try apply files_evolve_refl;
        exists []; repeat split; constructor.
  destruct Hev as (w1 & o1 & Hest & Hcase).
  destruct (estimate_loss_shape c env w w1 o1 Hest) as (le & Fle & Hf1 & Hsh).
  assert (Fle' : Forall (turn_event c) le).
  { eapply Forall_impl; [exact Fle |]. intros e. destruct e; simpl; tauto. }
  assert (Sle : Forall (fun e => is_optimizer_step e = false) le).
  { eapply Forall_impl; [exact Fle |].
    intros e. destruct e; simpl; tauto. }
  destruct o1 as [[lt lv] | e].
  - destruct Hsh as [Ht1 Hv1]. destruct Hcase as [_ Hw']. cbn [fst snd] in Hw'.
    set (logs := (if wandb_log c
                  then [EvWandbLog (iter_num (vars w)) lt lv lr] else []) ++
                 [EvPrint (MsgStep (iter_num (vars w)) lt lv)]) in *.
    assert (Flogs : Forall (turn_event c) logs /\
                    Forall (fun e => is_optimizer_step e = false) logs).
    { unfold logs. destruct (wandb_log c); split; repeat constructor. }
    destruct Flogs as [Flogs Slogs].
    assert (Htr : logs ++ trace w1 =
                  (logs ++ EvModelTrain :: le ++ [EvModelEval]) ++ trace w).
    { rewrite Ht1, <- app_assoc. f_equal.
      cbn [app]. rewrite <- app_assoc. reflexivity. }
    assert (Fall : Forall (turn_event c)
                     (logs ++ EvModelTrain :: le ++ [EvModelEval])).
    { apply Forall_app. split; [exact Flogs |].
      constructor; [exact I |]. apply Forall_app.
      split; [exact Fle' | repeat constructor]. }
    assert (Sall : optimizer_steps
                     (logs ++ EvModelTrain :: le ++ [EvModelEval]) = 0%nat).
    { apply optimizer_steps_none. apply Forall_app. split; [exact Slogs |].
      constructor; [reflexivity |]. apply Forall_app.
      split; [exact Sle | repeat constructor]. }
    assert (Hit : iter_num (vars w1) = iter_num (vars w))
      by (rewrite Hv1; reflexivity).
    destruct (loss_lt lv (best_val_loss (vars w1)));
      [destruct (Z.gtb_spec (iter_num (vars w1)) 0) as [Hpos | Hpos] |];
      subst w'; cbn [vars files trace];
      (split; [rewrite Hv1; reflexivity |]);
      (split; [rewrite Hv1; reflexivity |]);
      (split; [rewrite Hv1; reflexivity |]);
      (split; [intros Hn; contradiction |]); rewrite ?Hf1.
    + assert (Hgood : good_ckpt c
                (make_checkpoint c (set_best_val_loss lv (vars w1)))).
      { repeat split; cbn [make_checkpoint ck_iter_num ck_model_args
                           set_best_val_loss iter_num];
          [lia | rewrite Hit; exact Hmod]. }
      split; [apply files_evolve_save, Hgood |].
      exists (EvTorchSave (ckpt_path c)
                (make_checkpoint c (set_best_val_loss lv (vars w1)))
              :: logs ++ EvModelTrain :: le ++ [EvModelEval]).
      split; [rewrite Htr; reflexivity |]. split.
      * constructor; [| exact Fall]. split; [reflexivity | exact Hgood].
      * change (?e :: ?l) with ([e] ++ l).
        rewrite optimizer_steps_app, Sall. reflexivity.
    + split; [apply files_evolve_refl |].
      exists (logs ++ EvModelTrain :: le ++ [EvModelEval]). auto.
    + split; [apply files_evolve_refl |].
      exists (logs ++ EvModelTrain :: le ++ [EvModelEval]). auto.
  - destruct Hsh as [Ht1 Hv1]. destruct Hcase as [_ ->].
    rewrite Hv1, Hf1.
    repeat (split; [reflexivity |]).
    split; [intros Hn; contradiction |].
    split; [apply files_evolve_refl |].
    exists (le ++ [EvModelEval]).
    split; [rewrite Ht1, <- app_assoc; reflexivity |]. split.
    + apply Forall_app. split; [exact Fle' | repeat constructor].
    + apply optimizer_steps_none, Forall_app.
      split; [exact Sle | repeat constructor].
Qed.

#[local] Ltac step_facts :=
  repeat split;
  first [ reflexivity | solve [repeat constructor] | cbn; lia ].

(** A training step, whatever its outcome. *)
Lemma train_step_effect (c : config) (env : environment)
  (w w' : world proc) (o : outcome unit) :
  train_step c env w = (w', o) ->
  files w' = files w /\
  best_val_loss (vars w') = best_val_loss (vars w) /\
  exists l,
    trace w' = l ++ trace w /\
    Forall (turn_event c) l /\
    match o with
    | Ok _ =>
        iter_num (vars w') = iter_num (vars w) + 1 /\
        optimizer_steps l = 1%nat
    | Raise _ =>
        iter_num (vars w') = iter_num (vars w) /\
        (optimizer_steps l <= 1)%nat
    end.
Proof.
  unfold train_step. unfold bind at 1.
  destruct (get_batch c env "train" w) as [w1 o1] eqn:Hgb.
  destruct (get_batch_outcome c env "train" w w1 o1 Hgb)
    as (Ht1 & Hf1 & Hv1 & _).
  destruct o1 as [b | e]; cbn [fst snd].
  2: { intros E. injection E as <- <-. rewrite Hf1, Hv1, Ht1.
       repeat split. exists [EvGetBatch "train"].
       step_facts. }
  unfold bind at 1.
  destruct (model_call b.1 b.2 w1) as [w2 o2] eqn:Hmc.
  destruct (model_call_outcome _ _ w1 w2 o2 Hmc) as (Ht2 & Hf2 & Hv2 & _).
  destruct o2 as [l | e]; cbn [fst snd].
  2: { intros E. injection E as <- <-.
       rewrite Hf2, Hf1, Hv2, Ht2, Ht1, ?Hv1.
       repeat split.
       exists [EvForward (m_training (model (vars w))); EvGetBatch "train"].
       step_facts. }
  unfold bind, emit, modify_vars, get_vars, lift, py_mod, when, ret.
  cbn [fst snd files gen trace vars].
  destruct (Z.eqb_spec (log_interval c) 0) as [Hz | Hz];
    cbn [fst snd files gen trace vars].
  { intros E. injection E as <- <-. cbn [files trace vars].
    rewrite Hf2, Hf1, Hv2, Ht2, Ht1, ?Hv1.
    repeat split.
    exists [EvOptimizerStep; EvBackward; EvZeroGrad;
            EvForward (m_training (model (vars w))); EvGetBatch "train"].
    step_facts. }
  destruct ((_ =? 0) && (gpu_id env =? 0));
    cbn [fst snd files gen trace vars];
    intros E; injection E as <- <-; cbn [files trace vars];
    rewrite Hf2, Hf1, Hv2, Ht2, Ht1, ?Hv1; repeat split.
  - exists [EvPrint (MsgIter (iter_num (vars w)) l);
            EvOptimizerStep; EvBackward; EvZeroGrad;
            EvForward (m_training (model (vars w))); EvGetBatch "train"].
    step_facts.
  - exists [EvOptimizerStep; EvBackward; EvZeroGrad;
            EvForward (m_training (model (vars w))); EvGetBatch "train"].
    step_facts.
Qed.

(** The three parts of a turn, in order. *)
Lemma loop_body_parts (c : config) (env : environment)
  (w w' : world proc) (o : outcome bool) :
  loop_body c env w = (w', o) ->
  exists w1 o1,
    determine_lr c w = (w1, o1) /\
    match o1 with
    | Raise e => w' = w1 /\ o = Raise e
    | Ok lr =>
        exists w2 o2,
          eval_and_checkpoint c env lr w1 = (w2, o2) /\
          match o2 with
          | Raise e => w' = w2 /\ o = Raise e
          | Ok _ =>
              if (iter_num (vars w2) =? 0) && eval_only c
              then w' = w2 /\ o = Ok true
              else
                exists o3,
                  train_step c env w2 = (w', o3) /\
                  match o3 with
                  | Raise e => o = Raise e
                  | Ok _ => o = Ok (iter_num (vars w') >=? max_iters c)
                  end
          end
    end.
Proof.
  intros Hrun. unfold loop_body in Hrun. unfold bind at 1 in Hrun.
  destruct (determine_lr c w) as [w1 o1]. exists w1, o1.
  split; [reflexivity |].
  destruct o1 as [lr | e]; cbn [fst snd] in *;
    [| injection Hrun as <- <-; auto].
  unfold bind at 1 in Hrun.
  destruct (eval_and_checkpoint c env lr w1) as [w2 o2]. exists w2, o2.
  split; [reflexivity |].
  destruct o2 as [[] | e]; cbn [fst snd] in *;
    [| injection Hrun as <- <-; auto].
  unfold bind at 1, get_vars in Hrun. cbn [fst snd] in Hrun.
  destruct ((iter_num (vars w2) =? 0) && eval_only c).
  { unfold ret in Hrun. injection Hrun as <- <-. auto. }
  unfold bind at 1 in Hrun.
  destruct (train_step c env w2) as [w3 o3].
  destruct o3 as [[] | e]; cbn [fst snd] in Hrun.
  - unfold bind, get_vars, ret in Hrun. cbn [fst snd] in Hrun.
    injection Hrun as <- <-. exists (Ok tt). auto.
  - injection Hrun as <- <-. exists (Raise e). auto.
Qed.

(** One turn of the loop, whatever its outcome. *)
Lemma loop_body_effect (c : config) (env : environment)
  (w w' : world proc) (o : outcome bool) :
  loop_body c env w = (w', o) ->
  files_evolve c (files w) (files w') /\
  (gpu_id env <> 0 ->
   files w' = files w /\
   best_val_loss (vars w') = best_val_loss (vars w)) /\
  exists l,
    trace w' = l ++ trace w /\
    Forall (turn_event c) l /\
    match o with
    | Ok b =>
        optimizer_steps l = Z.to_nat (iter_num (vars w') - iter_num (vars w))
        /\ iter_num (vars w) <= iter_num (vars w') <= iter_num (vars w) + 1
        /\ (b = false -> iter_num (vars w') < max_iters c)
    | Raise _ =>
        iter_num (vars w') = iter_num (vars w) /\
        (optimizer_steps l <= 1)%nat
    end.
Proof.
  intros Hrun.
  destruct (loop_body_parts c env w w' o Hrun) as (w1 & o1 & Hlr & Hrest).
  destruct (determine_lr_effect c w w1 o1 Hlr)
    as (Ht1 & Hf1 & Hi1 & Hb1 & Hm1).
  destruct o1 as [lr | e].
  2: { destruct Hrest as [-> ->]. rewrite Hf1, Hb1, Hi1, Ht1.
       split; [apply files_evolve_refl |]. split; [auto |].
       exists []. repeat split; [constructor | cbn; lia]. }
  destruct Hrest as (w2 & o2 & Hev & Hrest).
  destruct (eval_and_checkpoint_effect c env lr w1 w2 o2 Hev)
    as (Hi2 & _ & _ & Hnp & Hfe & lb & Ht2 & Flb & Slb).
  rewrite Hf1 in Hfe. rewrite Ht1 in Ht2. rewrite Hi1 in Hi2.
  assert (Hnp2 : gpu_id env <> 0 ->
                 files w2 = files w /\
                 best_val_loss (vars w2) = best_val_loss (vars w)).
  { intros Hn. rewrite (Hnp Hn). auto. }
  destruct o2 as [[] | e].
  2: { destruct Hrest as [-> ->]. split; [exact Hfe |].
       split; [exact Hnp2 |]. exists lb. rewrite Slb.
       repeat split; [exact Ht2 | exact Flb | exact Hi2 | lia]. }
  destruct ((iter_num (vars w2) =? 0) && eval_only c).
  { destruct Hrest as [-> ->]. split; [exact Hfe |].
    split; [exact Hnp2 |]. exists lb. rewrite Slb, Hi2.
    repeat split; [exact Ht2 | exact Flb | | lia | lia | discriminate].
    rewrite Z.sub_diag. reflexivity. }
  destruct Hrest as (o3 & Hts & Ho).
  destruct (train_step_effect c env w2 w' o3 Hts)
    as (Hf3 & Hb3 & ls & Ht3 & Fls & Hcount).
  split; [rewrite Hf3; exact Hfe |].
  split.
  { intros Hn. destruct (Hnp2 Hn) as [E1 E2]. rewrite Hf3, Hb3. auto. }
  exists (ls ++ lb).
  split; [rewrite Ht3, Ht2, app_assoc; reflexivity |].
  split; [apply Forall_app; auto |].
  rewrite optimizer_steps_app, Slb, Nat.add_0_r.
  destruct o3 as [[] | e]; subst o.
  - destruct Hcount as [Hi3 ->]. rewrite Hi3, Hi2.
    repeat split; [| lia | lia |].
    + replace (iter_num (vars w) + 1 - iter_num (vars w)) with 1 by lia.
      reflexivity.
    + intros Hb. rewrite Z.geb_leb in Hb. apply Z.leb_gt in Hb.
      exact Hb.
  - destruct Hcount as [Hi3 Hle]. rewrite Hi3, Hi2. auto.
Qed.

(** Any number of turns, whatever the outcome. *)
Lemma training_loop_effect (c : config) (env : environment) (n : nat) :
  forall (w w' : world proc) (o : outcome unit),
    training_loop c env n w = Some (w', o) ->
    files_evolve c (files w) (files w') /\
    (gpu_id env <> 0 ->
     files w' = files w /\
     best_val_loss (vars w') = best_val_loss (vars w)) /\
    iter_num (vars w) <= iter_num (vars w')
      <= Z.max (iter_num (vars w) + 1) (max_iters c) /\
    exists l,
      trace w' = l ++ trace w /\
      Forall (turn_event c) l /\
      (Z.to_nat (iter_num (vars w') - iter_num (vars w))
       <= optimizer_steps l
       <= S (Z.to_nat (iter_num (vars w') - iter_num (vars w))))%nat /\
      (is_ok o = true ->
       optimizer_steps l =
       Z.to_nat (iter_num (vars w') - iter_num (vars w))).
Proof.
  induction n as [| n IH]; intros w w' o Hrun; [discriminate |].
  cbn [training_loop] in Hrun.
  destruct (loop_body c env w) as [w1 o1] eqn:Hbody.
  destruct (loop_body_effect c env w w1 o1 Hbody)
    as (Hfe & Hnp & l1 & Ht1 & Fl1 & Ho1).
  destruct o1 as [[|] | e].
  - injection Hrun as <- <-. destruct Ho1 as (Hs & Hi & _).
    split; [exact Hfe |]. split; [exact Hnp |]. split; [lia |].
    exists l1. repeat split; auto; lia.
  - destruct Ho1 as (Hs & Hi & Hlt). specialize (Hlt eq_refl).
    destruct (IH w1 w' o Hrun)
      as (Hfe' & Hnp' & Hi' & l2 & Ht2 & Fl2 & Hb & Hok).
    split; [eapply files_evolve_trans; eauto |].
    split.
    { intros Hn. destruct (Hnp Hn) as [E1 E2].
      destruct (Hnp' Hn) as [E3 E4]. split; congruence. }
    split; [lia |].
    exists (l2 ++ l1).
    split; [rewrite Ht2, Ht1, app_assoc; reflexivity |].
    split; [apply Forall_app; auto |].
    rewrite optimizer_steps_app, Hs.
    split; [lia |]. intros Hk. rewrite (Hok Hk). lia.
  - injection Hrun as <- <-. destruct Ho1 as [Hi Hs].
    split; [exact Hfe |]. split; [exact Hnp |]. split; [lia |].
    exists l1. rewrite Hi, Z.sub_diag.
    repeat split; auto; cbn; lia.
Qed.

End LoopEffects.

(** ** Whole runs: files, counters and optimizer steps *)

Section RunEffects.

Context `{Collaborators}.




(** X15.  On a worker whose rank is not zero the loop never changes a file
    and never changes [best_val_loss], whatever the number of turns and
    however it ends. *)
Theorem nonprimary_keeps_best_val_loss (c : config) (env : environment)
  (n : nat) (w w' : world proc) (o : outcome unit) :
  gpu_id env <> 0 ->
  training_loop c env n w = Some (w', o) ->
  files w' = files w /\
  best_val_loss (vars w') = best_val_loss (vars w).
Proof.
  intros Hg Hloop.
  destruct (training_loop_effect c env n w w' o Hloop) as (_ & Hnp & _).
  exact (Hnp Hg).
Qed.

(** X16.  [iter_num] counts the optimizer steps: when the loop is left by a
    [break], the number of [optimizer.step()] calls it made is exactly the
    advance of [iter_num]; when it is left by an exception, at most one step
    was made that [iter_num] does not count. *)
Theorem optimizer_steps_match_iter_num (c : config) (env : environment)
  (n : nat) (w w' : world proc) (o : outcome unit) :
  training_loop c env n w = Some (w', o) ->
  exists l,
    trace w' = l ++ trace w /\
    match o with
    | Ok _ =>
        Z.of_nat (optimizer_steps l) = iter_num (vars w') - iter_num (vars w)
    | Raise _ =>
        iter_num (vars w') - iter_num (vars w)
        <= Z.of_nat (optimizer_steps l)
        <= iter_num (vars w') - iter_num (vars w) + 1
    end.
Proof.
  intros Hloop.
  destruct (training_loop_effect c env n w w' o Hloop)
    as (_ & _ & Hi & l & Ht & _ & Hb & Hok).
  exists l. split; [exact Ht |].
  destruct o as [[] | e].
  - rewrite (Hok eq_refl). lia.
  - lia.
Qed.

(** X17.  [iter_num] never decreases in the loop and never passes
    [max_iters], except by the single step of a loop entered at or above
    [max_iters]; this holds for every run of the loop, also one that ends
    with an exception. *)
Theorem iter_num_bounds (c : config) (env : environment)
  (n : nat) (w w' : world proc) (o : outcome unit) :
  training_loop c env n w = Some (w', o) ->
  iter_num (vars w) <= iter_num (vars w')
    <= Z.max (iter_num (vars w) + 1) (max_iters c).
Proof.
  intros Hloop.
  destruct (training_loop_effect c env n w w' o Hloop) as (_ & _ & Hi & _).
  exact Hi.
Qed.

(** X18.  With [wandb_log] off, no run makes any call into wandb, on any
    worker and however the run ends. *)
Theorem no_wandb_when_disabled (c : config) (env : environment)
  (w0 : world unit) (w : world (option proc)) (o : outcome unit) :
  wandb_log c = false ->
  train_main c env w0 = Some (w, o) ->
  exists l,
    trace w = l ++ trace w0 /\
    Forall (fun e => ~ is_wandb e) l.
Proof.
  intros Hoff Hrun.
  destruct (train_main_trace c env w0 w o Hrun) as (ll & li & Ht & Fll & Fli).
  destruct (startup_events c env w0) as (ls & Hs & Fls & _).
  exists ((if is_ok o then [EvDestroyProcessGroup] else []) ++
          ll ++ li ++ ls).
  split.
  { rewrite Ht, Hs, <- !app_assoc. reflexivity. }
  assert (Hl : forall e, loop_event c env e -> ~ is_wandb e).
  { intros e. destruct e; simpl; try tauto.
    intros [_ Hon]. congruence. }
  assert (Hst : forall e, startup_event c env e -> ~ is_wandb e).
  { intros e. destruct e; simpl; try tauto.
    intros [_ Hon]. congruence. }
  repeat (apply Forall_app; split).
  - destruct (is_ok o); repeat constructor. simpl. tauto.
  - eapply Forall_impl; [exact Fll | exact Hl].
  - eapply Forall_impl; [exact Fli | exact Hst].
  - eapply Forall_impl; [exact Fls | exact Hst].
Qed.

(** X19.  With [eval_interval = 0] the loop ends in its first turn with a
    [ZeroDivisionError], on every worker (the modulo of line 220 is taken
    before the rank is looked at): nothing is evaluated, no batch is drawn,
    no step is made, no file changes and [iter_num] stays. *)
Theorem zero_eval_interval (c : config) (env : environment) (n : nat)
  (w : world proc) :
  eval_interval c = 0 ->
  exists w',
    training_loop c env (S n) w = Some (w', Raise ZeroDivisionError) /\
    trace w' = trace w /\ files w' = files w /\
    iter_num (vars w') = iter_num (vars w) /\
    model (vars w') = model (vars w) /\
    best_val_loss (vars w') = best_val_loss (vars w).
Proof.
  intros Hz. cbn [training_loop].
  unfold loop_body. unfold bind at 1.
  destruct (determine_lr c w) as [w1 o1] eqn:Hlr.
  destruct (determine_lr_effect c w w1 o1 Hlr) as (Ht & Hf & Hi & Hb & Hm).
  destruct o1 as [lr | e]; cbn [fst snd].
  - unfold bind at 1.
    unfold eval_and_checkpoint at 1, bind at 1, get_vars, lift, py_mod.
    cbn [fst snd]. rewrite Hz. cbn [Z.eqb fst snd].
    exists w1. auto 10.
  - exists w1. split; [| auto 10].
    unfold determine_lr in Hlr. destruct (decay_lr c).
    + unfold bind, get_vars, lift in Hlr. cbn [fst snd] in Hlr.
      destruct (get_lr c (iter_num (vars w))) as [lr |e'] eqn:Hg;
        cbn [fst snd] in Hlr; [discriminate |].
      injection Hlr as _ <-.
      rewrite (get_lr_raise_kind c _ _ Hg). reflexivity.
    + discriminate.
Qed.

(** X20.  With [log_interval = 0] no training step ever completes, on any
    worker: the loop never advances [iter_num], and it can only be left
    normally through the eval-only [break] at iteration 0. *)
Theorem zero_log_interval (c : config) (env : environment) (n : nat)
  (w w' : world proc) (o : outcome unit) :
  log_interval c = 0 ->
  training_loop c env n w = Some (w', o) ->
  iter_num (vars w') = iter_num (vars w) /\
  (is_ok o = true -> iter_num (vars w) = 0 /\ eval_only c = true).
Proof.
  intros Hz Hloop. destruct n as [| n]; [discriminate |].
  cbn [training_loop] in Hloop.
  destruct (loop_body c env w) as [w1 o1] eqn:Hbody.
  assert (Hturn : iter_num (vars w1) = iter_num (vars w) /\
                  match o1 with
                  | Ok b => b = true /\ iter_num (vars w) = 0 /\
                            eval_only c = true
                  | Raise _ => True
                  end).
  { destruct (loop_body_parts c env w w1 o1 Hbody)
      as (wa & oa & Hlr & Hrest).
    destruct (determine_lr_effect c w wa oa Hlr) as (_ & _ & Hia & _).
    destruct oa as [lr | e]; [| destruct Hrest as [-> ->]; auto].
    destruct Hrest as (wb & ob & Hev & Hrest).
    destruct (eval_and_checkpoint_effect c env lr wa wb ob Hev)
      as (Hib & _).
    rewrite Hia in Hib.
    destruct ob as [[] | e]; [| destruct Hrest as [-> ->]; auto].
    destruct ((iter_num (vars wb) =? 0) && eval_only c) eqn:Hbr.
    { destruct Hrest as [-> ->]. apply andb_prop in Hbr as [H0 Hev'].
      apply Z.eqb_eq in H0. rewrite Hib in H0. auto. }
    destruct Hrest as (oc & Hts & Ho).
    assert (Hraise : exists e, oc = Raise e /\
                               iter_num (vars w1) = iter_num (vars wb)).
    { clear Ho. revert Hts. unfold train_step. unfold bind at 1.
      destruct (get_batch c env "train" wb) as [wc o_b] eqn:Hgb.
      destruct (get_batch_outcome c env "train" wb wc o_b Hgb)
        as (_ & _ & Hvc & _).
      destruct o_b as [b | e]; cbn [fst snd];
        [| intros E; injection E as <- <-; rewrite Hvc; eauto].
      unfold bind at 1.
      destruct (model_call b.1 b.2 wc) as [wd o_l] eqn:Hmc.
      destruct (model_call_outcome _ _ wc wd o_l Hmc) as (_ & _ & Hvd & _).
      destruct o_l as [l | e]; cbn [fst snd];
        [| intros E; injection E as <- <-; rewrite Hvd, Hvc; eauto].
      unfold bind, emit, modify_vars, get_vars, lift, py_mod.
      cbn [fst snd files gen trace vars]. rewrite Hz.
      cbn [Z.eqb fst snd]. intros E. injection E as <- <-.
      cbn [vars]. rewrite Hvd, Hvc. eauto. }
    destruct Hraise as (e & -> & Hic). subst o1.
    rewrite Hic, Hib. auto. }
  destruct Hturn as [Hi Ho1].
  destruct o1 as [[|] | e].
  - injection Hloop as <- <-. split; [exact Hi |]. intros _. tauto.
  - destruct Ho1 as [? _]. discriminate.
  - injection Hloop as <- <-. split; [exact Hi | discriminate].
Qed.

(** X21.  Every evaluation that completes on the primary worker settles
    [best_val_loss]: it becomes the validation loss just estimated when that
    is strictly below it, and stays otherwise.  This happens at iteration 0
    as well, where no checkpoint is written, so that a later checkpoint must
    beat the loss of the untrained model. *)
Theorem best_val_loss_update (c : config) (env : environment) (lr : R)
  (w w' : world proc) :
  eval_and_checkpoint c env lr w = (w', Ok tt) ->
  gpu_id env = 0 ->
  iter_num (vars w) mod eval_interval c = 0 ->
  exists w1 lt lv,
    estimate_loss c env w = (w1, Ok (lt, lv)) /\
    best_val_loss (vars w') =
      (if loss_lt lv (best_val_loss (vars w)) then lv
       else best_val_loss (vars w)) /\
    (iter_num (vars w) <= 0 -> files w' = files w).
Proof.
  intros Hrun Hg Hmod.
  destruct (eval_and_checkpoint_cases c env lr w w' (Ok tt) Hrun)
    as [(_ & Hno & _) | [(_ & Hor & _) | (_ & _ & _ & Hev)]];
    [discriminate | tauto |].
  destruct Hev as (w1 & o1 & Hest & Hcase).
  destruct (estimate_loss_shape c env w w1 o1 Hest) as (le & _ & Hf1 & Hsh).
  destruct o1 as [[lt lv] | e]; [| destruct Hcase; discriminate].
  destruct Hsh as [_ Hv1]. destruct Hcase as [_ Hw'].
  cbn [fst snd] in Hw'. exists w1, lt, lv. split; [exact Hest |].
  assert (Hb1 : best_val_loss (vars w1) = best_val_loss (vars w))
    by (rewrite Hv1; reflexivity).
  assert (Hi1 : iter_num (vars w1) = iter_num (vars w))
    by (rewrite Hv1; reflexivity).
  rewrite <- Hb1.
  destruct (loss_lt lv (best_val_loss (vars w1)));
    [destruct (Z.gtb_spec (iter_num (vars w1)) 0) as [Hpos | Hpos] |];
    subst w'; cbn [vars files set_best_val_loss best_val_loss];
    (split; [reflexivity |]); intros Hle; solve [lia | exact Hf1].
Qed.

End RunEffects.

(** ** The configurator *)

Section ConfiguratorFacts.

Import Configurator.

Context `{Python}.

Lemma append_cons (x : ascii) (a b : string) :
  (String x a +:+ b = String x (a +:+ b))%string.
Proof. reflexivity. Qed.

Lemma append_nil (b : string) : ("" +:+ b = b)%string.
Proof. reflexivity. Qed.

Lemma contains_app (ch : ascii) (a b : string) :
  contains ch (a +:+ b) = contains ch a || contains ch b.
Proof.
  induction a as [| x a IH]; [reflexivity |].
  rewrite append_cons. cbn [contains]. rewrite IH, orb_assoc. reflexivity.
Qed.

Lemma split_no_sep (sep : ascii) (s : string) :
  contains sep s = false -> split sep s = [s].
Proof.
  induction s as [| x s IH]; [reflexivity |].
  cbn [contains split]. intros Hc. apply orb_false_iff in Hc as [Hx Hs].
  rewrite Hx, (IH Hs). reflexivity.
Qed.

Lemma split_app_sep (sep : ascii) (a b : string) :
  contains sep a = false ->
  split sep (a +:+ String sep b) = a :: split sep b.
Proof.
  induction a as [| x a IH]; intros Hc.
  - rewrite append_nil. cbn [split]. rewrite Ascii.eqb_refl. reflexivity.
  - cbn [contains] in Hc. apply orb_false_iff in Hc as [Hx Ha].
    rewrite append_cons. cbn [split]. rewrite Hx, (IH Ha). reflexivity.
Qed.

Lemma split_length (sep : ascii) (s : string) :
  length (split sep s) = S (count sep s).
Proof.
  induction s as [| x s IH]; [reflexivity |].
  cbn [split count]. destruct (Ascii.eqb x sep).
  - cbn [length]. rewrite IH. reflexivity.
  - destruct (split sep s) as [| p ps]; [discriminate |].
    cbn [length] in *. rewrite IH. reflexivity.
Qed.

(** A well-formed override reaches the lookup of line 81 with [key] and
    [val] as written. *)
Lemma configure_arg_override (fs : gmap string string) (key val : string)
  (s : state) :
  contains "=" key = false -> contains "=" val = false ->
  configure_arg fs (override_arg key val) s =
  let s3 := at_lookup key val s in
  match globals s3 !! key with
  | None => (s3, Some ValueError)
  | Some _ =>
      match parse_attempt val with
      | inl e => (s3, Some e)
      | inr attempt =>
          let s4 := set_global "attempt" attempt s3 in
          match globals s4 !! key with
          | None => (s4, Some (OtherError "KeyError"))
          | Some current =>
              if bool_decide (type_of attempt = type_of current)
              then (set_global key attempt
                      (print (LineOverride key attempt) s4), None)
              else (s4, Some AssertionError)
          end
      end
  end.
Proof.
  intros Hk Hv.
  assert (Hc : contains "=" (override_arg key val) = true).
  { unfold override_arg. rewrite !contains_app. cbn [contains].
    rewrite Ascii.eqb_refl. cbn [orb]. rewrite !orb_true_r. reflexivity. }
  assert (Hp : String.prefix "--" (override_arg key val) = true).
  { unfold override_arg. destruct key; reflexivity. }
  assert (Hs : split "=" (override_arg key val) =
               [("--" +:+ key)%string; val]).
  { change (override_arg key val)
      with (("--" +:+ key) +:+ String "=" val)%string.
    rewrite split_app_sep, (split_no_sep _ val Hv)
      by (rewrite contains_app, Hk; reflexivity).
    reflexivity. }
  unfold configure_arg. rewrite Hc. unfold override. rewrite Hp, Hs.
  reflexivity.
Qed.

Lemma at_lookup_other (key val k : string) (s : state) :
  k <> "arg"%string -> k <> "key"%string -> k <> "val"%string ->
  globals (at_lookup key val s) !! k = globals s !! k.
Proof.
  intros Ha Hk Hv. unfold at_lookup, set_global. cbn [globals].
  rewrite !lookup_insert_ne by congruence. reflexivity.
Qed.

Lemma at_lookup_temporary (key val k : string) (s : state) :
  k = "arg"%string \/ k = "key"%string \/ k = "val"%string ->
  is_Some (globals (at_lookup key val s) !! k).
Proof.
  unfold at_lookup, set_global. cbn [globals].
  intros [-> | [-> | ->]].
  - rewrite !lookup_insert_ne by discriminate.
    rewrite lookup_insert_eq. eauto.
  - rewrite lookup_insert_eq. eauto.
  - rewrite lookup_insert_ne by discriminate.
    rewrite lookup_insert_eq. eauto.
Qed.

(** X22.  A well-formed override [--key=val] ends with the [ValueError] of
    line 94 exactly when [key] is not a module global; the names [arg],
    [key] and [val], which the loop has assigned by then, count as known.
    An error of [literal_eval] never surfaces as a [ValueError]. *)
Theorem unknown_key_iff (fs : gmap string string) (key val : string)
  (s : state) :
  contains "=" key = false -> contains "=" val = false ->
  (configure_arg fs (override_arg key val) s).2 = Some ValueError <->
  globals s !! key = None /\
  key <> "arg"%string /\ key <> "key"%string /\ key <> "val"%string.
Proof.
  intros Hk Hv. rewrite (configure_arg_override fs key val s Hk Hv).
  cbv zeta. split.
  - intros Hres.
    assert (Hnone : globals (at_lookup key val s) !! key = None).
    { destruct (globals (at_lookup key val s) !! key) as [old |] eqn:Hl;
        [| reflexivity].
      destruct (parse_attempt val) as [e | attempt] eqn:Hp.
      - cbn [snd] in Hres. injection Hres as ->.
        unfold parse_attempt in Hp.
        destruct (literal_eval val) as [e | v]; [| discriminate].
        destruct (caught e) eqn:Hc; [discriminate |].
        injection Hp as ->. discriminate Hc.
      - destruct (globals (set_global "attempt" attempt
                             (at_lookup key val s)) !! key);
          [| discriminate].
        destruct (bool_decide _); discriminate. }
    assert (Hnt : ~ (key = "arg"%string \/ key = "key"%string \/
                     key = "val"%string)).
    { intros Ht. destruct (at_lookup_temporary key val key s Ht) as [v Hs].
      congruence. }
    split; [| tauto].
    rewrite <- (at_lookup_other key val key s) by tauto. exact Hnone.
  - intros (Hnone & Ha & Hkk & Hvv).
    rewrite (at_lookup_other key val key s Ha Hkk Hvv), Hnone. reflexivity.
Qed.

(** X23.  A well-formed override of a configuration variable is accepted
    exactly when the value, read as a literal or taken as text when it is
    not one, has the type of the variable's current value; the variable
    then holds the new value and one line is printed.  When the types
    differ the run ends with an [AssertionError], and when [literal_eval]
    fails otherwise with that failure; the variable keeps its value and
    nothing is printed. *)
Theorem override_accepted_iff (fs : gmap string string) (key val : string)
  (old : pyval) (s : state) :
  contains "=" key = false -> contains "=" val = false ->
  key ∉ temporaries ->
  globals s !! key = Some old ->
  let r := configure_arg fs (override_arg key val) s in
  match parse_attempt val with
  | inr attempt =>
      if bool_decide (type_of attempt = type_of old)
      then r.2 = None /\
           globals r.1 !! key = Some attempt /\
           console r.1 = LineOverride key attempt :: console s
      else r.2 = Some AssertionError /\
           globals r.1 !! key = Some old /\
           console r.1 = console s
  | inl e =>
      r.2 = Some e /\ globals r.1 !! key = Some old /\
      console r.1 = console s
  end.
Proof.
  intros Hk Hv Hnt Hold.
  assert (Hne : key <> "arg"%string /\ key <> "key"%string /\
                key <> "val"%string /\ key <> "attempt"%string).
  { unfold temporaries in Hnt. rewrite !not_elem_of_cons in Hnt. tauto. }
  destruct Hne as (Ha & Hkk & Hvv & Hat).
  rewrite (configure_arg_override fs key val s Hk Hv). cbv zeta.
  pose proof (at_lookup_other key val key s Ha Hkk Hvv) as Hl.
  rewrite Hold in Hl. rewrite Hl.
  destruct (parse_attempt val) as [e | attempt]; [auto |].
  assert (Hl4 : globals (set_global "attempt" attempt
                           (at_lookup key val s)) !! key = Some old).
  { unfold set_global at 1. cbn [globals].
    rewrite lookup_insert_ne by congruence. exact Hl. }
  rewrite Hl4.
  destruct (bool_decide (type_of attempt = type_of old));
    cbn [fst snd]; repeat split; try exact Hl4.
  unfold set_global at 1. cbn [globals]. apply lookup_insert_eq.
Qed.

(** One override argument: a variable that is not a temporary stays absent,
    or keeps the type of its value. *)
Lemma override_keeps_type (arg : string) (s s' : state) (o : option error)
  (k : string) :
  override arg s = (s', o) ->
  k ∉ temporaries ->
  match globals s !! k with
  | None => globals s' !! k = None
  | Some v => exists v', globals s' !! k = Some v' /\ type_of v' = type_of v
  end.
Proof.
  intros Hrun Hnt.
  assert (Hne : k <> "arg"%string /\ k <> "key"%string /\
                k <> "val"%string /\ k <> "attempt"%string).
  { unfold temporaries in Hnt. rewrite !not_elem_of_cons in Hnt. tauto. }
  destruct Hne as (Ha & Hkk & Hvv & Hat).
  assert (Hsame : forall t : state,
            globals t !! k = globals s !! k ->
            match globals s !! k with
            | None => globals t !! k = None
            | Some v =>
                exists v', globals t !! k = Some v' /\ type_of v' = type_of v
            end).
  { intros t Ht. rewrite Ht. destruct (globals s !! k); eauto. }
  unfold override in Hrun.
  destruct (negb (String.prefix "--" arg));
    [injection Hrun as <- <-; apply Hsame; reflexivity |].
  destruct (split "=" arg) as [| key [| val [| extra pieces]]];
    try (injection Hrun as <- <-; apply Hsame; reflexivity).
  set (s3 := set_global "key" (str_val (drop2 key))
               (set_global "val" (str_val val)
                  (set_global "key" (str_val key) s))) in *.
  assert (H3 : globals s3 !! k = globals s !! k).
  { unfold s3, set_global. cbn [globals].
    rewrite !lookup_insert_ne by congruence. reflexivity. }
  destruct (globals s3 !! drop2 key) as [old |];
    [| injection Hrun as <- <-; apply Hsame, H3].
  destruct (parse_attempt val) as [e | attempt];
    [injection Hrun as <- <-; apply Hsame, H3 |].
  set (s4 := set_global "attempt" attempt s3) in *.
  assert (H4 : globals s4 !! k = globals s !! k).
  { unfold s4, set_global at 1. cbn [globals].
    rewrite lookup_insert_ne by congruence. exact H3. }
  destruct (globals s4 !! drop2 key) as [current |] eqn:Hcur;
    [| injection Hrun as <- <-; apply Hsame, H4].
  destruct (bool_decide_reflect (type_of attempt = type_of current))
    as [Hty | Hty];
    [| injection Hrun as <- <-; apply Hsame, H4].
  injection Hrun as <- <-.
  destruct (decide (drop2 key = k)) as [Hk | Hk].
  - rewrite Hk, H4 in Hcur. rewrite Hcur. exists attempt.
    split; [| exact Hty].
    unfold set_global at 1. cbn [globals]. rewrite Hk.
    apply lookup_insert_eq.
  - apply Hsame. unfold set_global at 1, print. cbn [globals].
    rewrite lookup_insert_ne by exact Hk. exact H4.
Qed.

(** X24.  However many overrides are processed and however the processing
    ends, no configuration variable changes its type and none is created:
    a name other than the loop's own temporaries is absent afterwards if
    it was absent before, and otherwise holds a value of the type it held
    before. *)
Theorem overrides_preserve_types (fs : gmap string string)
  (args : list string) (s s' : state) (o : option error) (k : string) :
  Forall (fun arg => contains "=" arg = true) args ->
  configure_args fs args s = (s', o) ->
  k ∉ temporaries ->
  match globals s !! k with
  | None => globals s' !! k = None
  | Some v => exists v', globals s' !! k = Some v' /\ type_of v' = type_of v
  end.
Proof.
  intros Fargs. revert s.
  induction Fargs as [| arg args Harg _ IH]; intros s Hrun Hnt.
  - injection Hrun as <- <-. destruct (globals s !! k); eauto.
  - cbn [configure_args] in Hrun.
    destruct (configure_arg fs arg s) as [s1 o1] eqn:Hone.
    unfold configure_arg in Hone. rewrite Harg in Hone.
    pose proof (override_keeps_type arg _ s1 o1 k Hone Hnt) as H1.
    assert (Harg_k : k <> "arg"%string).
    { unfold temporaries in Hnt. rewrite !not_elem_of_cons in Hnt. tauto. }
    unfold set_global at 1 in H1. cbn [globals] in H1.
    rewrite lookup_insert_ne in H1 by congruence.
    destruct o1 as [e |]; [injection Hrun as <- <-; exact H1 |].
    specialize (IH s1 Hrun Hnt).
    destruct (globals s !! k) as [v |].
    + destruct H1 as (v1 & Hv1 & Hty1). rewrite Hv1 in IH.
      destruct IH as (v' & Hv' & Hty'). exists v'. split; congruence.
    + rewrite H1 in IH. exact IH.
Qed.

(** X25.  Malformed arguments.  An argument without [=] that starts with
    [--] (a bare flag) fails the assertion of line 70; an argument with
    [=] that does not start with [--] fails the assertion of line 78; an
    argument that starts with [--] and has more than one [=] fails the
    unpacking of line 79 with a [ValueError].  In each case [arg] is the
    only global assigned and nothing is printed. *)
Theorem malformed_arguments (fs : gmap string string) (arg : string)
  (s : state) :
  (contains "=" arg = false -> String.prefix "--" arg = true ->
   configure_arg fs arg s =
   (set_global "arg" (str_val arg) s, Some AssertionError)) /\
  (contains "=" arg = true -> String.prefix "--" arg = false ->
   configure_arg fs arg s =
   (set_global "arg" (str_val arg) s, Some AssertionError)) /\
  (String.prefix "--" arg = true -> (2 <= count "=" arg)%nat ->
   configure_arg fs arg s =
   (set_global "arg" (str_val arg) s, Some ValueError)).
Proof.
  unfold configure_arg. repeat split.
  - intros -> Hp. unfold run_config_file. rewrite Hp. reflexivity.
  - intros -> Hp. unfold override. rewrite Hp. reflexivity.
  - intros Hp Hcount.
    assert (Hc : contains "=" arg = true).
    { destruct (contains "=" arg) eqn:Hc; [reflexivity |].
      pose proof (split_length "=" arg) as Hl.
      rewrite (split_no_sep _ _ Hc) in Hl. cbn [length] in Hl. lia. }
    rewrite Hc. unfold override. rewrite Hp. cbn [negb].
    pose proof (split_length "=" arg) as Hl.
    destruct (split "=" arg) as [| key [| val [| extra pieces]]];
      try reflexivity.
    cbn [length] in Hl. lia.
Qed.

(** X26.  A configuration file that does not exist: the file is announced
    on the console, then opening it raises [FileNotFoundError]; [arg] and
    [config_file] are the only globals assigned.  The file is looked for
    under [config/], unless the argument is an absolute path. *)
Theorem missing_config_file (fs : gmap string string) (arg path : string)
  (s : state) :
  contains "=" arg = false -> String.prefix "--" arg = false ->
  path = (if String.prefix "/" arg then arg +:+ ".py"
          else "config/" +:+ arg +:+ ".py")%string ->
  fs !! path = None ->
  configure_arg fs arg s =
  (State (<["config_file" := str_val path]>
            (<["arg" := str_val arg]> (globals s)))
         (LineConfigFile path :: console s),
   Some FileNotFoundError).
Proof.
  intros Hc Hp Hpath Hmiss.
  unfold configure_arg. rewrite Hc. unfold run_config_file. rewrite Hp.
  assert (Hjoin : os_path_join_config (arg +:+ ".py") = path).
  { rewrite Hpath. unfold os_path_join_config.
    destruct arg as [| a rest]; [reflexivity |].
    rewrite append_cons. cbn [String.prefix].
    destruct (ascii_dec "/" a); [| reflexivity].
    destruct rest; reflexivity. }
  rewrite Hjoin, Hmiss. reflexivity.
Qed.


End ConfiguratorFacts.

(** * The further properties on the small instances *)



(** The sampler of the small instance returns a batch of the train split
    and raises on the three validation tokens of the short environment. *)
Lemma get_batch_returns_iff_small :
  (exists b,
     (get_batch small_config (small_env None) "train" fresh_world).2 = Ok b) /\
  (get_batch small_config short_val_env "val" fresh_world).2 =
    Raise RuntimeError.
Proof.
  split.
  - destruct (get_batch_returns_iff small_config (small_env None) "train"
                fresh_world toy_randint_in_range ltac:(simpl; lia))
      as (Hok & _).
    apply Hok. split; simpl; lia.
  - destruct (get_batch_returns_iff small_config short_val_env "val"
                fresh_world toy_randint_in_range ltac:(simpl; lia))
      as (_ & Hbad & _).
    apply Hbad. intros [_ Hlen]. simpl in Hlen. lia.
Defined.

(** A batch of the small instance holds training tokens only. *)
Lemma get_batch_tokens_from_split_small :
  exists x y,
    (get_batch small_config (small_env None) "train" fresh_world).2 =
      Ok (x, y) /\
    Forall (fun row => row ⊆ train_data (small_env None)) x /\
    Forall (fun row => row ⊆ train_data (small_env None)) y.
Proof.
  pose proof (get_batch_tokens_from_split small_config (small_env None)
                "train" fresh_world) as Htok.
  destruct (get_batch small_config (small_env None) "train" fresh_world).2
    as [[x y] | e] eqn:Hrun; [| vm_compute in Hrun; discriminate Hrun].
  exists x, y. split; [reflexivity | exact Htok].
Defined.

(** An evaluation pass of the small instance: two batches of each split. *)
Lemma estimate_loss_reports_small :
  exists w' lt lv,
    estimate_loss small_config (small_env None) fresh_world =
      (w', Ok (lt, lv)) /\
    trace w' =
      [EvModelTrain;
       EvForward false; EvGetBatch "val"; EvForward false; EvGetBatch "val";
       EvForward false; EvGetBatch "train";
       EvForward false; EvGetBatch "train";
       EvModelEval].
Proof.
  destruct (estimate_loss_returns toy_randint_in_range toy_forward_returns
              small_config (small_env None) (small_loop_ok None) fresh_world)
    as (w' & [lt lv] & Hrun).
  exists w', lt, lv. split; [exact Hrun |].
  exact (proj1 (estimate_loss_reports small_config (small_env None)
                  fresh_world w' lt lv Hrun)).
Defined.


(** Resuming the small instance from an empty directory. *)
Lemma resume_without_checkpoint_small :
  exists w,
    train_main (small_config_with "resume" 3) (small_env None) empty_world =
    Some (w, Raise FileNotFoundError) /\
    files w = ∅ /\ vars w = None.
Proof.
  eexists. split.
  - apply resume_without_checkpoint; [reflexivity | apply lookup_empty].
  - split; reflexivity.
Defined.

(** The small instance with [init_from = 'finetune']. *)
Lemma unknown_init_from_small :
  exists w,
    train_main (small_config_with "finetune" 3) (small_env None) empty_world =
    Some (w, Raise NameError).
Proof.
  eexists.
  apply unknown_init_from; [discriminate | discriminate | reflexivity].
Defined.

(** The model of the small instance built from scratch. *)
Lemma model_init_result_small :
  exists w' p,
    model_init small_config empty_world = (w', Ok p) /\
    m_training (model p) = true /\
    m_block_size (model p) = 3 /\
    iter_num p = 0.
Proof.
  pose proof (model_init_scratch small_config empty_world eq_refl) as Hrun.
  destruct (model_init_result small_config empty_world _ _ Hrun)
    as (Htr & _ & Hbs & Hfresh & _).
  eexists _, _. split; [exact Hrun |]. split; [exact Htr |].
  split; [apply Hbs; left; reflexivity |].
  apply Hfresh. discriminate.
Defined.



(** The loop of the small instance on rank 1. *)
Lemma nonprimary_keeps_best_val_loss_rank_1 :
  exists w' o,
    training_loop small_config (small_env (Some 1))
                  (loop_fuel small_config fresh_world) fresh_world =
      Some (w', o) /\
    files w' = ∅ /\
    best_val_loss (vars w') = loss_1e9.
Proof.
  destruct (training_loop_total small_config (small_env (Some 1))
              fresh_world) as [[w' o] Hrun].
  exists w', o. split; [exact Hrun |].
  apply (nonprimary_keeps_best_val_loss small_config (small_env (Some 1))
           (loop_fuel small_config fresh_world) fresh_world w' o); [discriminate | exact Hrun].
Defined.

(** The loop of the small instance from iteration 0 to [max_iters = 3]:
    three optimizer steps. *)
Lemma optimizer_steps_match_iter_num_small :
  exists w' l,
    training_loop small_config (small_env None)
                  (loop_fuel small_config fresh_world) fresh_world =
      Some (w', Ok tt) /\
    trace w' = l ++ [] /\
    optimizer_steps l = 3%nat.
Proof.
  destruct (training_loop_exit_aux small_config (small_env None) 3
              toy_randint_in_range toy_forward_returns (small_loop_ok None)
              fresh_world)
    as (w' & Hrun & Hi); [simpl; lia | simpl; lia | left; reflexivity |].
  destruct (optimizer_steps_match_iter_num small_config (small_env None)
              4 fresh_world w' (Ok tt) Hrun) as (l & Ht & Hn).
  exists w', l. split; [exact Hrun |]. split; [exact Ht |].
  rewrite Hi in Hn. simpl in Hn. lia.
Defined.

(** The loop of the small instance stays within [0, 3]. *)
Lemma iter_num_bounds_small :
  exists w' o,
    training_loop small_config (small_env None)
                  (loop_fuel small_config fresh_world) fresh_world =
      Some (w', o) /\
    0 <= iter_num (vars w') <= 3.
Proof.
  destruct (training_loop_total small_config (small_env None) fresh_world)
    as [[w' o] Hrun].
  exists w', o. split; [exact Hrun |].
  exact (iter_num_bounds small_config (small_env None)
           (loop_fuel small_config fresh_world) fresh_world w' o Hrun).
Defined.

(** The small instance has [wandb_log] off. *)
Lemma no_wandb_when_disabled_small :
  exists w o l,
    train_main small_config (small_env None) empty_world = Some (w, o) /\
    trace w = l ++ [] /\
    Forall (fun e => ~ is_wandb e) l.
Proof.
  destruct (train_main_total small_config (small_env None) empty_world)
    as [[w o] Hrun].
  destruct (no_wandb_when_disabled small_config (small_env None) empty_world
              w o eq_refl Hrun) as (l & Ht & Fl).
  exists w, o, l. split; [exact Hrun |]. split; [exact Ht | exact Fl].
Defined.

(** The small instance with [eval_interval = 0], on rank 1. *)
Lemma zero_eval_interval_small :
  exists w',
    training_loop (small_config_every 0 1) (small_env (Some 1)) 1
                  fresh_world =
      Some (w', Raise ZeroDivisionError) /\
    trace w' = [] /\ iter_num (vars w') = 0.
Proof.
  destruct (zero_eval_interval (small_config_every 0 1) (small_env (Some 1))
              0 fresh_world eq_refl)
    as (w' & Hrun & Ht & _ & Hi & _).
  exists w'. split; [exact Hrun |]. split; [exact Ht | exact Hi].
Defined.

(** The small instance with [log_interval = 0]. *)
Lemma zero_log_interval_small :
  exists w' o,
    training_loop (small_config_every 2 0) (small_env None)
                  (loop_fuel (small_config_every 2 0) fresh_world)
                  fresh_world =
      Some (w', o) /\
    iter_num (vars w') = 0 /\ is_ok o = false.
Proof.
  destruct (training_loop_total (small_config_every 2 0) (small_env None)
              fresh_world) as [[w' o] Hrun].
  destruct (zero_log_interval (small_config_every 2 0) (small_env None)
              (loop_fuel (small_config_every 2 0) fresh_world) fresh_world
              w' o eq_refl Hrun) as [Hi Hok].
  exists w', o. split; [exact Hrun |]. split; [exact Hi |].
  destruct (is_ok o); [| reflexivity].
  destruct (Hok eq_refl) as [_ Hev]. discriminate Hev.
Defined.

(** The evaluation at iteration 2 of the small instance. *)
Lemma best_val_loss_update_at_2 :
  exists w' w1 lt lv,
    eval_and_checkpoint small_config (small_env None) 1%R world_at_2 =
      (w', Ok tt) /\
    estimate_loss small_config (small_env None) world_at_2 =
      (w1, Ok (lt, lv)) /\
    best_val_loss (vars w') = (if lv <? 99 then lv else 99).
Proof.
  destruct (eval_and_checkpoint_returns toy_randint_in_range
              toy_forward_returns small_config (small_env None)
              (small_loop_ok None) 1%R world_at_2) as (w' & Hrun).
  destruct (best_val_loss_update small_config (small_env None) 1%R
              world_at_2 w' Hrun eq_refl eq_refl)
    as (w1 & lt & lv & Hest & Hbest & _).
  exists w', w1, lt, lv. split; [exact Hrun |]. split; [exact Hest |].
  exact Hbest.
Defined.

Section ConfiguratorSmall.

Import Configurator.

#[local] Existing Instance small.

Lemma not_temporary_batch_size : "batch_size"%string ∉ temporaries.
Proof.
  unfold temporaries. rewrite !not_elem_of_cons.
  repeat split; try discriminate. apply not_elem_of_nil.
Qed.

Lemma not_temporary_out_dir : "out_dir"%string ∉ temporaries.
Proof.
  unfold temporaries. rewrite !not_elem_of_cons.
  repeat split; try discriminate. apply not_elem_of_nil.
Qed.

(** A misspelt key. *)
Lemma unknown_key_iff_small :
  (configure_arg (H := small) ∅ (override_arg "batchsize" "32")
                 small_state).2 = Some ValueError.
Proof.
  apply (proj2 (unknown_key_iff (H := small) ∅ "batchsize" "32" small_state
                  eq_refl eq_refl)).
  split; [reflexivity |]. repeat split; discriminate.
Defined.

(** [--batch_size=32] on the small globals. *)
Lemma override_accepted_iff_small :
  (configure_arg (H := small) ∅ (override_arg "batch_size" "32")
                 small_state).2 = None /\
  globals (configure_arg (H := small) ∅ (override_arg "batch_size" "32")
                         small_state).1 !! "batch_size"%string =
    Some (SInt 32) /\
  console (configure_arg (H := small) ∅ (override_arg "batch_size" "32")
                         small_state).1 =
    [LineOverride "batch_size" (SInt 32)].
Proof.
  exact (override_accepted_iff (H := small) ∅ "batch_size" "32" (SInt 8)
           small_state eq_refl eq_refl not_temporary_batch_size eq_refl).
Defined.

(** Two overrides, the second of the wrong type: [out_dir] keeps its
    type. *)
Lemma overrides_preserve_types_small :
  exists s' o v',
    configure_args (H := small) ∅
      [override_arg "batch_size" "32"; override_arg "eval_only" "32"]
      small_state = (s', o) /\
    globals s' !! "out_dir"%string = Some v' /\
    type_of v' = TyStr.
Proof.
  destruct (configure_args (H := small) ∅
              [override_arg "batch_size" "32"; override_arg "eval_only" "32"]
              small_state) as [s' o] eqn:Hrun.
  assert (Fargs : Forall (fun arg => contains "=" arg = true)
                    [override_arg "batch_size" "32";
                     override_arg "eval_only" "32"])
    by (repeat constructor).
  destruct (overrides_preserve_types (H := small) ∅ _ small_state s' o
              "out_dir" Fargs Hrun not_temporary_out_dir)
    as (v' & Hv' & Hty).
  exists s', o, v'. split; [reflexivity |]. split; [exact Hv' | exact Hty].
Defined.

(** A bare flag, an override without dashes, and a value with [=] in it. *)
Lemma malformed_arguments_small :
  configure_arg (H := small) ∅ "--eval_only" small_state =
    (set_global "arg" (SStr "--eval_only") small_state,
     Some AssertionError) /\
  configure_arg (H := small) ∅ "batch_size=32" small_state =
    (set_global "arg" (SStr "batch_size=32") small_state,
     Some AssertionError) /\
  configure_arg (H := small) ∅ "--out_dir=a=b" small_state =
    (set_global "arg" (SStr "--out_dir=a=b") small_state,
     Some ValueError).
Proof.
  destruct (malformed_arguments (H := small) ∅ "--eval_only" small_state)
    as (Hflag & _ & _).
  destruct (malformed_arguments (H := small) ∅ "batch_size=32" small_state)
    as (_ & Hbare & _).
  destruct (malformed_arguments (H := small) ∅ "--out_dir=a=b" small_state)
    as (_ & _ & Htwo).
  split; [apply Hflag; reflexivity |].
  split; [apply Hbare; reflexivity |].
  apply Htwo; [reflexivity | simpl; lia].
Defined.

(** A configuration file that is not there. *)
Lemma missing_config_file_small :
  configure_arg (H := small) ∅ "train_shakespeare" small_state =
  (State (<["config_file" := SStr "config/train_shakespeare.py"]>
            (<["arg" := SStr "train_shakespeare"]> small_globals))
         [LineConfigFile "config/train_shakespeare.py"],
   Some FileNotFoundError).
Proof.
  exact (missing_config_file (H := small) ∅ "train_shakespeare"
           "config/train_shakespeare.py" small_state
           eq_refl eq_refl eq_refl (lookup_empty _)).
Defined.

End ConfiguratorSmall.
